(** * The real-time update relay of the PesoHQ grid

    A shallow embedding of the WebSocket servers of the repository:

    - [websocket-server/server.js], the MongoDB-backed relay (module [Relay]),
      together with the part of [websocket-server/db.js] it calls;
    - the earlier server with the periodic synthetic generator
      ([scripts/websocket-server.js] and the first version of
      [websocket-server/server.js], module [Baseline]).

    JavaScript values are modelled by [json] plus [option] for [undefined];
    the numbers the generator computes are doubles ([Baseline.binary64]);
    the handlers run in a small state-and-exception monad [JS] over the
    server's [World]; the event loop is a step function over [Event]s, with
    the [await] of the message handler split into the part that runs when the
    message arrives and the part that runs when the promise settles. *)

From Stdlib Require Import List String Ascii Bool Arith ZArith QArith Qround Qpower Lia Lqa.
From Stdlib Require Import DecimalString DecimalN DecimalPos.
Import ListNotations.

Local Open Scope string_scope.
Local Open Scope list_scope.
Local Open Scope nat_scope.

(** ** JavaScript values *)

(** A JSON value, as [JSON.parse] returns it.  A JSON number is a finite
    double, hence a rational; a number literal too large for a double parses
    to [Infinity], which [JSON.stringify] writes back as [null] and which has
    no counterpart here, so what is said of values passed on is said of
    values without numbers ([numberFree]). An object keeps its own
    properties as an association list; [lookup] reads the first binding of
    a key. *)
#[warnings="-register-all"]
Inductive json : Type :=
| JNull
| JBool (b : bool)
| JNum (q : Q)
| JStr (s : string)
| JArr (items : list json)
| JObj (fields : list (string * json)).

(** A JavaScript value that may be [undefined] is an [option json]. *)
Definition value : Type := option json.

(** The values that hold no number, at any depth. *)
Fixpoint numberFree (j : json) : bool :=
  match j with
  | JNum _ => false
  | JArr items => forallb numberFree items
  | JObj fields => forallb (fun kv => numberFree (snd kv)) fields
  | _ => true
  end.

(** [undefined], or a value that holds no number. *)
Definition withoutNumbers (v : value) : bool :=
  match v with
  | None => true
  | Some j => numberFree j
  end.

Fixpoint lookup (k : string) (fields : list (string * json)) : value :=
  match fields with
  | [] => None
  | (k', v) :: rest => if String.eqb k k' then Some v else lookup k rest
  end.

(** An object literal handed to [JSON.stringify]: properties whose value is
    [undefined] are left out of the serialised message. *)
Fixpoint stringify (props : list (string * value)) : list (string * json) :=
  match props with
  | [] => []
  | (k, Some v) :: rest => (k, v) :: stringify rest
  | (_, None) :: rest => stringify rest
  end.

Definition JSON_stringify (props : list (string * value)) : json :=
  JObj (stringify props).

(** A template literal [`${prefix}${i}`] with an integer [i]. *)
Definition template (prefix : string) (i : nat) : string :=
  prefix ++ NilEmpty.string_of_uint (Nat.to_uint i).

(** ** The updateable columns *)

Definition baseColumns : list string :=
  [ "revenue"; "expenses"; "profit"; "employees";
    "status"; "verified"; "premium"; "subscription_tier";
    "total_score"; "risk_factor"; "satisfaction_score";
    "engagement_rate"; "conversion_rate" ].

(** One turn of the loop [for (let i = 1; i <= 20; i++)]: four pushes. *)
Definition pushMetricColumns (cols : list string) (i : nat) : list string :=
  cols ++ [ template "performance_metric_" i;
            template "sales_metric_" i;
            template "behavior_metric_" i;
            template "kpi_" i ].

Definition updateableColumns : list string :=
  fold_left pushMetricColumns (seq 1 20) baseColumns.

(** The column set in the words of the specification: the thirteen base
    names, then four families of twenty numbered columns. *)
Definition spec_families : list string :=
  [ "performance_metric_"; "sales_metric_"; "behavior_metric_"; "kpi_" ].

Definition spec_columns : list string :=
  baseColumns ++
  flat_map (fun p => map (template p) (seq 1 20)) spec_families.

(** ** Connections and the server's world *)

Definition ConnId : Type := nat.

(** [WebSocket.readyState]. *)
Inductive ReadyState : Type := CONNECTING | OPEN | CLOSING | CLOSED.

(** What the [ws] library and the transport decide for one socket: its
    [readyState], and whether a call of [send], respectively [close], throws.
    The library is not part of the repository, so these are inputs. The
    library reports a failing connection through the error and close events
    of its socket: its [send] does not throw for an open socket, nor its
    [close] for code 1000 and a short reason. The two flags serve to say
    what the handlers do whatever the library does. *)
Record Socket : Type := mkSocket {
  readyState : ReadyState;
  sendThrows : bool;
  closeThrows : bool
}.

(** The three properties the message handler destructures. *)
Record CellUpdate : Type := mkCellUpdate {
  rowId : value;
  columnId : value;
  newValue : value
}.

(** Lines written with [console.log] and [console.error]. *)
Inductive LogLine : Type :=
| ClientConnected
| ClientDisconnected
| WebSocketError
| ReceivedMessage (message : json)
| UpdateSavedAndBroadcast (u : CellUpdate)
| ErrorProcessingMessage
| MongoConnecting
| MongoConnected
| MongoConnectionError
| ErrorUpdatingCell
| SentUpdate (row col : string) (v : value)
| ShuttingDown
| WebSocketServerClosed
| MongoConnectionClosed
| HttpServerClosed.

(** What the server does to the outside, in the order it does it. *)
Inductive Effect : Type :=
| Log (line : LogLine)
| Send (c : ConnId) (m : json)            (* [c.send(JSON.stringify(m))] went out *)
| UpdateCell (u : CellUpdate)             (* [updateCell(rowId, columnId, newValue)] called *)
| UpdateOne (u : CellUpdate)              (* [collection.updateOne] issued to the store *)
| Close (c : ConnId) (code : nat) (reason : string)
| WssClose                                (* [wss.close(callback)] called *)
| StoreClose                              (* [client.close()] of the MongoDB client *)
| ServerClose                             (* [server.close(callback)] called *)
| Exit (code : nat).                      (* [process.exit(code)] *)

Inductive Status : Type :=
| Live
| Exited (code : nat)
| Faulted.   (* ended by an uncaught exception or an unhandled rejection *)

Record World : Type := mkWorld {
  clients : list ConnId;            (* [const clients = new Set()], insertion order *)
  sockets : ConnId -> Socket;       (* the [ws] objects *)
  pending : list (nat * CellUpdate);(* message handlers suspended at [await updateCell] *)
  nextPromise : nat;
  mongoUri : bool;                  (* [MONGODB_URI] is set *)
  client : bool;                    (* db.js: [client] is not null *)
  collection : bool;                (* db.js: [collection] is not null *)
  onWssClosed : bool;               (* the callback of [wss.close] is registered *)
  onHttpClosed : bool;              (* the callback of [server.close] is registered *)
  status : Status;
  trace : list Effect
}.

Definition set_clients (cs : list ConnId) (w : World) : World :=
  mkWorld cs (sockets w) (pending w) (nextPromise w) (mongoUri w) (client w)
          (collection w) (onWssClosed w) (onHttpClosed w) (status w) (trace w).

Definition set_socket (c : ConnId) (s : Socket) (w : World) : World :=
  mkWorld (clients w) (fun c' => if Nat.eqb c' c then s else sockets w c')
          (pending w) (nextPromise w) (mongoUri w) (client w)
          (collection w) (onWssClosed w) (onHttpClosed w) (status w) (trace w).

Definition set_pending (p : list (nat * CellUpdate)) (n : nat) (w : World) : World :=
  mkWorld (clients w) (sockets w) p n (mongoUri w) (client w)
          (collection w) (onWssClosed w) (onHttpClosed w) (status w) (trace w).

Definition set_db (cl co : bool) (w : World) : World :=
  mkWorld (clients w) (sockets w) (pending w) (nextPromise w) (mongoUri w) cl
          co (onWssClosed w) (onHttpClosed w) (status w) (trace w).

Definition set_callbacks (a b : bool) (w : World) : World :=
  mkWorld (clients w) (sockets w) (pending w) (nextPromise w) (mongoUri w) (client w)
          (collection w) a b (status w) (trace w).

Definition set_status (st : Status) (w : World) : World :=
  mkWorld (clients w) (sockets w) (pending w) (nextPromise w) (mongoUri w) (client w)
          (collection w) (onWssClosed w) (onHttpClosed w) st (trace w).

Definition add_effect (e : Effect) (w : World) : World :=
  mkWorld (clients w) (sockets w) (pending w) (nextPromise w) (mongoUri w) (client w)
          (collection w) (onWssClosed w) (onHttpClosed w) (status w) (trace w ++ [e]).

(** [Set.prototype.add] and [Set.prototype.delete] on the insertion-ordered
    set of connections. *)
Definition Set_add (c : ConnId) (cs : list ConnId) : list ConnId :=
  if existsb (Nat.eqb c) cs then cs else cs ++ [c].

Definition Set_delete (c : ConnId) (cs : list ConnId) : list ConnId :=
  filter (fun c' => negb (Nat.eqb c' c)) cs.

(** ** A monad for handlers: state and exceptions *)

Inductive Completion (A : Type) : Type :=
| Normal (a : A) (w : World)
| Abrupt (w : World).   (* an exception is propagating *)

Arguments Normal {A} a w.
Arguments Abrupt {A} w.

Definition JS (A : Type) : Type := World -> Completion A.

Definition ret {A : Type} (a : A) : JS A := fun w => Normal a w.

Definition throw {A : Type} : JS A := fun w => Abrupt w.

Definition bind {A B : Type} (m : JS A) (k : A -> JS B) : JS B :=
  fun w => match m w with
           | Normal a w' => k a w'
           | Abrupt w' => Abrupt w'
           end.

Notation "x <- m ;; k" := (bind m (fun x => k))
  (at level 61, m at next level, right associativity).
Notation "m ;;; k" := (bind m (fun _ => k))
  (at level 61, right associativity).

(** [try { body } catch (error) { handler }]. *)
Definition try_catch {A : Type} (body handler : JS A) : JS A :=
  fun w => match body w with
           | Normal a w' => Normal a w'
           | Abrupt w' => handler w'
           end.

Definition gets {A : Type} (f : World -> A) : JS A := fun w => Normal (f w) w.

Definition modify (f : World -> World) : JS unit := fun w => Normal tt (f w).

Definition emit (e : Effect) : JS unit := modify (add_effect e).

Definition log (line : LogLine) : JS unit := emit (Log line).

(** [xs.forEach(f)]: an exception thrown by [f] ends the enumeration. *)
Fixpoint forEach {X : Type} (xs : list X) (f : X -> JS unit) : JS unit :=
  match xs with
  | [] => ret tt
  | x :: rest => f x ;;; forEach rest f
  end.

(** [client.send(m)]. *)
Definition send (c : ConnId) (m : json) : JS unit :=
  s <- gets (fun w => sockets w c) ;;
  if sendThrows s then throw else emit (Send c m).

(** [client.close(code, reason)]. *)
Definition close (c : ConnId) (code : nat) (reason : string) : JS unit :=
  s <- gets (fun w => sockets w c) ;;
  if closeThrows s then throw else emit (Close c code reason).

Definition isOpen (s : Socket) : bool :=
  match readyState s with OPEN => true | _ => false end.

(** The body of the broadcast loops, over the connections [cs]:
    [if (client.readyState === WebSocket.OPEN) { client.send(m) }]. *)
Definition sendLoop (m : json) (cs : list ConnId) : JS unit :=
  forEach cs (fun c =>
    s <- gets (fun w => sockets w c) ;;
    if isOpen s then send c m else ret tt).

(** The broadcast both servers make: [clients.forEach((client) => ...)]. *)
Definition broadcast (m : json) : JS unit :=
  cs <- gets clients ;;
  sendLoop m cs.

(** [cs.forEach(client => { client.close(1000, 'Server shutting down') })]. *)
Definition closeLoop (cs : list ConnId) : JS unit :=
  forEach cs (fun c => close c 1000 "Server shutting down").

(** Running one handler of the event loop.  A process that has exited or
    faulted runs nothing more; an exception that leaves the handler faults
    the process. *)
Definition run_handler (h : JS unit) (w : World) : World :=
  match status w with
  | Live => match h w with
            | Normal _ w' => w'
            | Abrupt w' => set_status Faulted w'
            end
  | _ => w
  end.

Definition run_events {E : Type} (step : E -> World -> World)
    (events : list E) (w : World) : World :=
  fold_left (fun w' e => step e w') events w.

(** The messages a connection was sent, in order. *)
Fixpoint received (c : ConnId) (t : list Effect) : list json :=
  match t with
  | [] => []
  | Send c' m :: rest =>
      if Nat.eqb c' c then m :: received c rest else received c rest
  | _ :: rest => received c rest
  end.

(** All messages sent, to whomever. *)
Fixpoint sends (t : list Effect) : list (ConnId * json) :=
  match t with
  | [] => []
  | Send c m :: rest => (c, m) :: sends rest
  | _ :: rest => sends rest
  end.

(** The persistence writes attempted: calls of [updateCell]. *)
Fixpoint writes (t : list Effect) : list CellUpdate :=
  match t with
  | [] => []
  | UpdateCell u :: rest => u :: writes rest
  | _ :: rest => writes rest
  end.

(** The connections the server closed: calls of [close]. *)
Fixpoint closes (t : list Effect) : list ConnId :=
  match t with
  | [] => []
  | Close c _ _ :: rest => c :: closes rest
  | _ :: rest => closes rest
  end.

(** The result of [JSON.parse(data.toString())] on an inbound payload: a
    [SyntaxError] is thrown, or a value is returned. *)
Inductive parsed : Type :=
| SyntaxError
| Parsed (message : json).

Definition JSON_parse (data : parsed) : JS json :=
  match data with
  | SyntaxError => throw
  | Parsed message => ret message
  end.

(** [message.key] for the keys the handler reads.  Reading a property of
    [null] throws a [TypeError]; numbers, strings, booleans and arrays have
    no such property. *)
Definition getProperty (message : json) (key : string) : JS value :=
  match message with
  | JNull => throw
  | JObj fields => ret (lookup key fields)
  | _ => ret None
  end.

(** [v === 'update'] *)
Definition isUpdate (v : value) : bool :=
  match v with
  | Some (JStr s) => String.eqb s "update"
  | _ => false
  end.

(** ** websocket-server/db.js and websocket-server/server.js *)

Module Relay.

(** What the MongoDB driver does during one call of [updateCell]. *)
Record StoreReply : Type := mkReply {
  connectOk : bool;          (* [client.connect()] succeeds *)
  createIndexOk : bool;      (* both [createIndex] calls succeed *)
  updateOne : option nat     (* [None]: [updateOne] throws; [Some n]: [result.modifiedCount] *)
}.

(** db.js, [connectToDatabase]; returns whether [collection] is set. *)
Definition connectToDatabase (reply : StoreReply) : JS bool :=
  try_catch
    (uri <- gets mongoUri ;;
     (if uri then ret tt else throw) ;;;
     cl <- gets client ;;
     (if cl then ret tt
      else
        log MongoConnecting ;;;
        modify (fun w => set_db true (collection w) w) ;;;
        (if connectOk reply then ret tt else throw) ;;;
        log MongoConnected ;;;
        modify (set_db true true) ;;;
        (if createIndexOk reply then ret tt else throw)) ;;;
     gets collection)
    (log MongoConnectionError ;;; throw).

(** db.js, [updateCell]. With [collection] still null, [collection.updateOne]
    throws a [TypeError]. *)
Definition updateCell (u : CellUpdate) (reply : StoreReply) : JS bool :=
  try_catch
    (coll <- connectToDatabase reply ;;
     (if coll then ret tt else throw) ;;;
     emit (UpdateOne u) ;;;
     match updateOne reply with
     | None => throw
     | Some modifiedCount => ret (0 <? modifiedCount)
     end)
    (log ErrorUpdatingCell ;;; throw).

(** db.js, [closeConnection]. *)
Definition closeConnection (closeOk : bool) : JS unit :=
  cl <- gets client ;;
  if cl then
    emit StoreClose ;;;
    (if closeOk then ret tt else throw) ;;;
    modify (set_db false false) ;;;
    log MongoConnectionClosed
  else ret tt.

Definition connectedMessage : json :=
  JSON_stringify [ ("type", Some (JStr "connected"));
                   ("message", Some (JStr "Connected to WebSocket server")) ].

(** [wss.on("connection", (ws) => ...)] up to the registration of the
    socket's handlers. *)
Definition onConnection (ws : ConnId) : JS unit :=
  log ClientConnected ;;;
  modify (fun w => set_clients (Set_add ws (clients w)) w) ;;;
  send ws connectedMessage.

Definition onClose (ws : ConnId) : JS unit :=
  log ClientDisconnected ;;;
  modify (fun w => set_clients (Set_delete ws (clients w)) w).

Definition onError (ws : ConnId) : JS unit :=
  log WebSocketError ;;;
  modify (fun w => set_clients (Set_delete ws (clients w)) w).

(** The message handler up to [await updateCell(rowId, columnId, newValue)]:
    the call is made and the handler is suspended on its promise. *)
Definition onMessage (ws : ConnId) (data : parsed) : JS unit :=
  try_catch
    (message <- JSON_parse data ;;
     log (ReceivedMessage message) ;;;
     ty <- getProperty message "type" ;;
     if isUpdate ty then
       r <- getProperty message "rowId" ;;
       c <- getProperty message "columnId" ;;
       v <- getProperty message "newValue" ;;
       let u := mkCellUpdate r c v in
       emit (UpdateCell u) ;;;
       k <- gets nextPromise ;;
       modify (fun w => set_pending (pending w ++ [(k, u)]) (S k) w)
     else ret tt)
    (log ErrorProcessingMessage).

Definition broadcastMessage (u : CellUpdate) (now : string) : json :=
  JSON_stringify [ ("type", Some (JStr "update"));
                   ("rowId", rowId u);
                   ("columnId", columnId u);
                   ("newValue", newValue u);
                   ("timestamp", Some (JStr now)) ].

(** The message handler from the settling of the promise on: [reply] is what
    the store did for this call, [now] is [new Date().toISOString()]. *)
Definition resumeMessage (u : CellUpdate) (reply : StoreReply) (now : string)
  : JS unit :=
  try_catch
    (success <- updateCell u reply ;;
     if success then
       broadcast (broadcastMessage u now) ;;;
       log (UpdateSavedAndBroadcast u)
     else ret tt)
    (log ErrorProcessingMessage).

(** [process.on("SIGINT", ...)] up to the call of [wss.close]. *)
Definition onSigint : JS unit :=
  log ShuttingDown ;;;
  cs <- gets clients ;;
  closeLoop cs ;;;
  emit WssClose ;;;
  modify (fun w => set_callbacks true (onHttpClosed w) w).

(** The callback given to [wss.close]. *)
Definition wssCloseCallback (closeOk : bool) : JS unit :=
  log WebSocketServerClosed ;;;
  closeConnection closeOk ;;;
  emit ServerClose ;;;
  modify (fun w => set_callbacks (onWssClosed w) true w).

(** The callback given to [server.close]. *)
Definition serverCloseCallback : JS unit :=
  log HttpServerClosed ;;;
  emit (Exit 0) ;;;
  modify (set_status (Exited 0)).

Fixpoint find_pending (k : nat) (p : list (nat * CellUpdate)) : option CellUpdate :=
  match p with
  | [] => None
  | (k', u) :: rest => if Nat.eqb k' k then Some u else find_pending k rest
  end.

Definition remove_pending (k : nat) (p : list (nat * CellUpdate))
  : list (nat * CellUpdate) :=
  filter (fun e => negb (Nat.eqb (fst e) k)) p.

(** What the event loop can be handed.  The awaits inside db.js are not
    events of their own: the whole of [updateCell] runs when its promise
    settles, with the store's answers given by the event. The code makes
    the tests of [connectToDatabase] and issues [updateOne] earlier, when
    the message arrives or when connecting ends; what is recorded at the
    settling is therefore recorded no earlier than the code does it, and
    before the broadcast of the same update, as in the code. *)
Inductive Event : Type :=
| Connection (ws : ConnId) (s : Socket)   (* a client completed the handshake *)
| Transport (ws : ConnId) (s : Socket)    (* the library changes a socket's status *)
| WsClose (ws : ConnId)                   (* the socket's "close" event *)
| WsError (ws : ConnId)                   (* the socket's "error" event *)
| Message (ws : ConnId) (data : parsed)   (* the socket's "message" event *)
| Settle (k : nat) (reply : StoreReply) (now : string)
                                          (* the [updateCell] promise [k] settles *)
| Sigint
| WssClosed (closeOk : bool)              (* [wss.close] calls back *)
| HttpClosed.                             (* [server.close] calls back *)

Definition step (e : Event) (w : World) : World :=
  match e with
  | Connection ws s => run_handler (onConnection ws) (set_socket ws s w)
  | Transport ws s => set_socket ws s w
  | WsClose ws => run_handler (onClose ws) w
  | WsError ws => run_handler (onError ws) w
  | Message ws data => run_handler (onMessage ws data) w
  | Settle k reply now =>
      match find_pending k (pending w) with
      | Some u =>
          run_handler (resumeMessage u reply now)
            (set_pending (remove_pending k (pending w)) (nextPromise w) w)
      | None => w
      end
  | Sigint => run_handler onSigint w
  | WssClosed closeOk =>
      if onWssClosed w
      then run_handler (wssCloseCallback closeOk)
             (set_callbacks false (onHttpClosed w) w)
      else w
  | HttpClosed =>
      if onHttpClosed w
      then run_handler serverCloseCallback
             (set_callbacks (onWssClosed w) false w)
      else w
  end.

Definition run : list Event -> World -> World := run_events step.

End Relay.

(** ** scripts/websocket-server.js and the first websocket-server/server.js *)

(** The server of [scripts/websocket-server.js]. The first version of
    [websocket-server/server.js] has the same [generateUpdateValue] and the
    same interval callback. *)
Module Baseline.

Definition string_of_Z (z : Z) : string := NilZero.string_of_int (Z.to_int z).

(** *** Numbers

    A Number of the program is an IEEE 754 double; its value is a rational.
    The result of an arithmetic operation is the double nearest to the exact
    result, a tie going to the double with an even significand. *)

(** [floor(log2(x))] for [x > 0]. *)
Definition exponent (x : Q) : Z :=
  let e := (Z.log2 (Qnum x) - Z.log2 (Z.pos (Qden x)))%Z in
  if Qle_bool (2 ^ e) x then e else (e - 1)%Z.

(** The integer nearest to [y], the even one on a tie. *)
Definition roundHalfEven (y : Q) : Z :=
  let f := Qfloor y in
  match Qcompare (y - inject_Z f) (1 # 2) with
  | Lt => f
  | Gt => (f + 1)%Z
  | Eq => if Z.even f then f else (f + 1)%Z
  end.

(** The distance between the doubles around [x > 0]: 53 bits of
    significand, and [2^-1074] for the subnormal numbers. *)
Definition ulp (x : Q) : Q := (2 ^ (Z.max (exponent x) (-1022) - 52))%Q.

Definition nearest (x : Q) : Q :=
  (inject_Z (roundHalfEven (x / ulp x)) * ulp x)%Q.

(** The double nearest to [x], for [x] within the range of the doubles
    (the numbers of this program stay below [2^53]). *)
Definition binary64 (x : Q) : Q :=
  match Qnum x with
  | Z0 => 0%Q
  | Zpos _ => nearest x
  | Zneg _ => (- nearest (- x))%Q
  end.

(** [x] is the value of a double. *)
Definition isBinary64 (x : Q) : bool := Qeq_bool (binary64 x) x.

(** [a * b] on doubles. *)
Definition times (a b : Q) : Q := binary64 (a * b).

(** [Math.floor(x)] for a double [x]. *)
Definition Math_floor (x : Q) : Z := Qfloor x.

(** [array[i]] for an integer index. *)
Definition at_index {X : Type} (array : list X) (i : Z) : option X :=
  if (i <? 0)%Z then None else nth_error array (Z.to_nat i).

(** [x.toFixed(2)] for a double [x] with [0 <= x < 10^21]: the digits of the
    integer [n] for which [n / 100] is nearest to the value of [x], the
    larger one on a tie, with a point before the last two. *)
Definition toFixed2 (x : Q) : string :=
  let n := Qfloor (x * 100 + (1 # 2))%Q in
  let cents := (n mod 100)%Z in
  string_of_Z (n / 100)%Z ++ "." ++
  (if (cents <? 10)%Z then "0" else "") ++ string_of_Z cents.

(** [s.includes(pattern)] *)
Definition includes (s pattern : string) : bool :=
  match String.index 0 pattern s with
  | Some _ => true
  | None => false
  end.

Definition number (z : Z) : value := Some (JNum (inject_Z z)).

Definition oneOf (names : list string) (s : string) : bool :=
  existsb (String.eqb s) names.

(** [generateUpdateValue(columnId)], with [random] the double that the one
    call of [Math.random()] it makes returns.  For [undefined] no case
    matches and [columnId.includes] throws. *)
Definition generateUpdateValue (columnId : option string) (random : Q) : JS value :=
  match columnId with
  | None => throw
  | Some col =>
      if oneOf ["revenue"; "expenses"] col then
        ret (number (Math_floor (times random 1000000)))
      else if oneOf ["profit"] col then
        ret (number (Math_floor (times random 200000)))
      else if oneOf ["employees"] col then
        ret (number (Math_floor (times random 1000) + 10))
      else if oneOf ["status"] col then
        ret (Some (JStr (if Qlt_le_dec (1 # 2) random then "Active" else "Inactive")))
      else if oneOf ["verified"; "premium"] col then
        ret (Some (JBool (if Qlt_le_dec (1 # 2) random then true else false)))
      else if oneOf ["subscription_tier"] col then
        ret (option_map JStr
               (at_index ["Free"; "Basic"; "Pro"; "Enterprise"]
                         (Math_floor (times random 4))))
      else if oneOf ["total_score"; "risk_factor"; "satisfaction_score";
                     "engagement_rate"; "conversion_rate"] col then
        ret (Some (JStr (toFixed2 (times random 100))))
      else if includes col "performance_metric" || includes col "kpi" then
        ret (Some (JStr (toFixed2 (times random 100))))
      else if includes col "sales_metric" || includes col "behavior_metric" then
        ret (number (Math_floor (times random 10000)))
      else
        ret (number (Math_floor (times random 1000)))
  end.

Definition syntheticMessage (row : string) (col : option string) (v : value) : json :=
  JSON_stringify [ ("type", Some (JStr "update"));
                   ("rowId", Some (JStr row));
                   ("columnId", option_map JStr col);
                   ("newValue", v) ].

(** The callback of [setInterval(..., 2000)]; [r1], [r2], [r3] are the
    doubles that its three calls of [Math.random()] return, in order. *)
Definition onInterval (r1 r2 r3 : Q) : JS unit :=
  cs <- gets clients ;;
  if 0 <? List.length cs then
    let randomRowId := ("row_" ++ string_of_Z (Math_floor (times r1 1000)))%string in
    let randomColumnId :=
      at_index updateableColumns
               (Math_floor
                  (times r2 (inject_Z (Z.of_nat (List.length updateableColumns))))) in
    randomValue <- generateUpdateValue randomColumnId r3 ;;
    broadcast (syntheticMessage randomRowId randomColumnId randomValue) ;;;
    log (SentUpdate randomRowId
           (match randomColumnId with Some col => col | None => "undefined" end)
           randomValue)
  else ret tt.

Definition onConnection (ws : ConnId) : JS unit :=
  log ClientConnected ;;;
  modify (fun w => set_clients (Set_add ws (clients w)) w).

Definition onClose (ws : ConnId) : JS unit :=
  log ClientDisconnected ;;;
  modify (fun w => set_clients (Set_delete ws (clients w)) w).

Definition onError (ws : ConnId) : JS unit :=
  log WebSocketError ;;;
  modify (fun w => set_clients (Set_delete ws (clients w)) w).

Inductive Event : Type :=
| Connection (ws : ConnId) (s : Socket)
| Transport (ws : ConnId) (s : Socket)
| WsClose (ws : ConnId)
| WsError (ws : ConnId)
| Tick (r1 r2 r3 : Q).   (* the interval timer fires *)

Definition step (e : Event) (w : World) : World :=
  match e with
  | Connection ws s => run_handler (onConnection ws) (set_socket ws s w)
  | Transport ws s => set_socket ws s w
  | WsClose ws => run_handler (onClose ws) w
  | WsError ws => run_handler (onError ws) w
  | Tick r1 r2 r3 => run_handler (onInterval r1 r2 r3) w
  end.

Definition run : list Event -> World -> World := run_events step.

End Baseline.

(** ** Reading the values of the generator *)

(** The double nearest to one third. *)
Definition oneThird : Q := 6004799503160661 # 18014398509481984.

(** [n] is [Math.floor(x)]. *)
Definition isFloorOf (n : Z) (x : Q) : Prop :=
  (inject_Z n <= x < inject_Z n + 1)%Q.

(** The number that a string of decimal digits denotes. *)
Definition decimal (s : string) : option Z :=
  option_map Z.of_uint (NilZero.uint_of_string s).

(** The last two digits that [toFixed2] writes. *)
Definition twoDigits (c : Z) : string :=
  ((if (c <? 10)%Z then "0" else "") ++ Baseline.string_of_Z c)%string.

(** [s] is [x] written with two decimals: the digits of the integer [n]
    nearest to [100 x] (the larger one on a tie), with a point before the
    last two. *)
Definition readsTwoDecimals (s : string) (x : Q) : Prop :=
  exists (n : Z) (a b : string),
    s = (a ++ "." ++ b)%string /\
    String.length b = 2 /\
    decimal a = Some (n / 100)%Z /\
    decimal b = Some (n mod 100)%Z /\
    (100 * x - (1 # 2) < inject_Z n <= 100 * x + (1 # 2))%Q.

(** ** Worlds used in the examples *)

Definition openSocket : Socket := mkSocket OPEN false false.
Definition closedSocket : Socket := mkSocket CLOSED false false.

(** A socket whose [send] throws, which the [ws] library does not do for
    an open socket. *)
Definition brokenSocket : Socket := mkSocket OPEN true false.


(** A running server with a connected store, no client and nothing done yet. *)
Definition idle : World :=
  mkWorld [] (fun _ => closedSocket) [] 0 true true true false false Live [].

(** The server with the connections [cs] registered, all open and healthy. *)
Definition serving (cs : list ConnId) : World :=
  mkWorld cs (fun _ => openSocket) [] 0 true true true false false Live [].

(** The store modified one document; it matched none; it cannot be reached. *)
Definition stored : Relay.StoreReply := Relay.mkReply true true (Some 1).

Definition notModified : Relay.StoreReply := Relay.mkReply true true (Some 0).

Definition storeDown : Relay.StoreReply := Relay.mkReply false false None.

(** [{ type: 'update', rowId: row, columnId: col, newValue: v }] *)
Definition updateOf (row col : string) (v : json) : json :=
  JObj [ ("type", JStr "update"); ("rowId", JStr row);
         ("columnId", JStr col); ("newValue", v) ].

(** ** Derived notions and the worlds of the examples *)

(** [w] after the effects [es]. *)
Definition add_effects (es : list Effect) (w : World) : World :=
  mkWorld (clients w) (sockets w) (pending w) (nextPromise w) (mongoUri w) (client w)
          (collection w) (onWssClosed w) (onHttpClosed w) (status w) (trace w ++ es).

(** The sends of [m] to the open connections among [cs]. *)
Definition deliveries (m : json) (cs : list ConnId) (w : World) : list Effect :=
  map (fun c => Send c m) (filter (fun c => isOpen (sockets w c)) cs).

(** The world a computation ends in, whichever way it ends. *)
Definition final {A : Type} (c : Completion A) : World :=
  match c with
  | Normal _ w => w
  | Abrupt w => w
  end.

(** [w'] differs from [w] by log lines, store traffic and db.js state only. *)
Definition quiet (w w' : World) : Prop :=
  clients w' = clients w /\
  sockets w' = sockets w /\
  pending w' = pending w /\
  nextPromise w' = nextPromise w /\
  status w' = status w /\
  sends (trace w') = sends (trace w) /\
  writes (trace w') = writes (trace w) /\
  closes (trace w') = closes (trace w) /\
  forall c, received c (trace w') = received c (trace w).

(** [const { rowId, columnId, newValue } = message] *)
Definition destructure (fields : list (string * json)) : CellUpdate :=
  mkCellUpdate (lookup "rowId" fields) (lookup "columnId" fields)
               (lookup "newValue" fields).

(** The edit of the specification's scenarios, as a payload and as the
    handler destructures it. *)
Definition edit : json := updateOf "row_42" "revenue" (JNum 500000).

Definition editUpdate : CellUpdate :=
  mkCellUpdate (Some (JStr "row_42")) (Some (JStr "revenue")) (Some (JNum 500000)).

(** The server with the connections [cs] registered and open, and a store
    that was never reached: [client] and [collection] are still null. *)
Definition degraded (cs : list ConnId) : World :=
  mkWorld cs (fun _ => openSocket) [] 0 true false false false false Live [].

(** The server with connections 1, 2 and 3 registered and open, where the
    [send] of connection 2 throws. *)
Definition oneBroken : World :=
  set_socket 2 brokenSocket (serving [1; 2; 3]).

(** A message of another type. *)
Definition ping : json := JObj [ ("type", JStr "ping"); ("rowId", JStr "row_1") ].

(** An update without [newValue]. *)
Definition partialEdit : json :=
  JObj [ ("type", JStr "update"); ("rowId", JStr "row_42");
         ("columnId", JStr "revenue") ].

(** [m.key] of a message that was sent. *)
Definition property (m : json) (key : string) : value :=
  match m with
  | JObj fields => lookup key fields
  | _ => None
  end.

(** An edit of the cell (row_42, revenue) to [v]. *)
Definition editTo (v : Z) : json := updateOf "row_42" "revenue" (JNum (inject_Z v)).

Definition updateTo (v : Z) : CellUpdate :=
  mkCellUpdate (Some (JStr "row_42")) (Some (JStr "revenue"))
               (Some (JNum (inject_Z v))).

(** Two updates of the same cell are in flight. *)
Definition twoInFlight : World :=
  Relay.run [ Relay.Message 1 (Parsed (editTo 100));
              Relay.Message 2 (Parsed (editTo 200)) ] (serving [1; 2]).

(** The calls of [close] the shutdown makes for the connections [cs]. *)
Definition goodbyes (cs : list ConnId) : list Effect :=
  map (fun c => Close c 1000 "Server shutting down") cs.


(** The store writes issued: calls of [collection.updateOne]. *)
Fixpoint issued (t : list Effect) : list CellUpdate :=
  match t with
  | [] => []
  | UpdateOne u :: rest => u :: issued rest
  | _ :: rest => issued rest
  end.

(** Effects that neither reach a client nor write to the store. *)
Definition benign (x : Effect) : Prop :=
  match x with
  | Send _ _ | UpdateOne _ => False
  | _ => True
  end.

(** What the relay may do, given whether [MONGODB_URI] is set: a message to
    a client is the greeting or, with a store configured, an update
    broadcast; the store is written only when it is configured. *)
Definition allowed (uri : bool) (x : Effect) : Prop :=
  match x with
  | Send _ m =>
      m = Relay.connectedMessage \/
      (uri = true /\ exists u now, m = Relay.broadcastMessage u now)
  | UpdateOne _ => uri = true
  | _ => True
  end.

(** The events that carry client traffic: an inbound message and the
    settling of its write. *)
Definition isTraffic (e : Relay.Event) : bool :=
  match e with
  | Relay.Message _ _ | Relay.Settle _ _ _ => true
  | _ => false
  end.


(** The events by which the [ws] library reports that connection [K]
    failed: the transport changes the state of its socket, and the socket
    raises its error and its close event. *)
Definition failureOf (K : ConnId) (e : Relay.Event) : bool :=
  match e with
  | Relay.Transport ws _ | Relay.WsClose ws | Relay.WsError ws => Nat.eqb ws K
  | _ => false
  end.

(** The events whose handler takes the connection out of the registry. *)
Definition unregisters (e : Relay.Event) : bool :=
  match e with
  | Relay.WsClose _ | Relay.WsError _ => true
  | _ => false
  end.

(** The events of the connections, whichever they are. *)
Definition connectionEvent (e : Relay.Event) : bool :=
  match e with
  | Relay.Transport _ _ | Relay.WsClose _ | Relay.WsError _ => true
  | _ => false
  end.

(** What the server did apart from logging. *)
Definition actions (t : list Effect) : list Effect :=
  filter (fun x => match x with Log _ => false | _ => true end) t.

(** The server with the connections [cs] registered and open, started
    without [MONGODB_URI]. *)
Definition unconfigured (cs : list ConnId) : World :=
  mkWorld cs (fun _ => openSocket) [] 0 false false false false false Live [].

(** ** The first websocket-server/server.js *)

(** The first version of [websocket-server/server.js]: no store; it greets
    a new connection, logs inbound messages without acting on them, runs
    the generator of [Baseline] and closes its connections on SIGINT. *)
Module FirstServer.

Definition onConnection (ws : ConnId) : JS unit :=
  log ClientConnected ;;;
  modify (fun w => set_clients (Set_add ws (clients w)) w) ;;;
  send ws Relay.connectedMessage.

(** [ws.on("message", (data) => console.log("Received message:", data.toString()))];
    the line is the payload text. *)
Definition onMessage (text : string) : JS unit :=
  log (ReceivedMessage (JStr text)).

(** [process.on("SIGINT", ...)] up to the call of [wss.close]. *)
Definition onSigint : JS unit :=
  log ShuttingDown ;;;
  cs <- gets clients ;;
  closeLoop cs ;;;
  emit WssClose ;;;
  modify (fun w => set_callbacks true (onHttpClosed w) w).

(** The callback given to [wss.close]. *)
Definition wssCloseCallback : JS unit :=
  log WebSocketServerClosed ;;;
  emit ServerClose ;;;
  modify (fun w => set_callbacks (onWssClosed w) true w).

(** The callback given to [server.close]. *)
Definition serverCloseCallback : JS unit :=
  log HttpServerClosed ;;;
  emit (Exit 0) ;;;
  modify (set_status (Exited 0)).

Inductive Event : Type :=
| Connection (ws : ConnId) (s : Socket)
| Transport (ws : ConnId) (s : Socket)
| WsClose (ws : ConnId)
| WsError (ws : ConnId)
| Message (ws : ConnId) (text : string)
| Tick (r1 r2 r3 : Q)
| Sigint
| WssClosed
| HttpClosed.

Definition step (e : Event) (w : World) : World :=
  match e with
  | Connection ws s => run_handler (onConnection ws) (set_socket ws s w)
  | Transport ws s => set_socket ws s w
  | WsClose ws => run_handler (Baseline.onClose ws) w
  | WsError ws => run_handler (Baseline.onError ws) w
  | Message ws text => run_handler (onMessage text) w
  | Tick r1 r2 r3 => run_handler (Baseline.onInterval r1 r2 r3) w
  | Sigint => run_handler onSigint w
  | WssClosed =>
      if onWssClosed w
      then run_handler wssCloseCallback (set_callbacks false (onHttpClosed w) w)
      else w
  | HttpClosed =>
      if onHttpClosed w
      then run_handler serverCloseCallback (set_callbacks (onWssClosed w) false w)
      else w
  end.

Definition run : list Event -> World -> World := run_events step.

End FirstServer.

(** ** The grid page: applying an update *)

(** [handleRealTimeUpdate] of the grid page (both versions of the page have
    it). Rows are objects with own properties; the message has the shape its
    type [WSMessage] declares. The callback is made anew when
    [allData.length] changes. In the newer page the socket is set up again
    with each new callback, so the callback that runs tests the current
    [allData]; in the older page the socket is set up once and keeps the
    callback of the first render, in which [allData] is empty. *)
Module Client.

(** A row object: its own properties. A property can hold [undefined]. *)
Definition DataRow : Type := list (string * value).

(** [row[key]]: [undefined] when the row has no such property. *)
Fixpoint getProp (key : string) (row : DataRow) : value :=
  match row with
  | [] => None
  | (k, v) :: rest => if String.eqb key k then v else getProp key rest
  end.

(** [{ ...row, [key]: v }]: the property is replaced where it stands, or
    added behind the others. *)
Fixpoint setProp (key : string) (v : value) (row : DataRow) : DataRow :=
  match row with
  | [] => [(key, v)]
  | (k, v') :: rest =>
      if String.eqb key k then (k, v) :: rest else (k, v') :: setProp key v rest
  end.

(** [interface WSMessage { type: "update"; rowId: string; columnId: string;
    newValue: any }] *)
Record WSMessage : Type := mkWSMessage {
  rowId : string;
  columnId : string;
  newValue : value
}.

(** [row.id === rowId] for a string [rowId]. *)
Definition hasId (id : string) (row : DataRow) : bool :=
  match getProp "id" row with
  | Some (JStr s) => String.eqb s id
  | _ => false
  end.

(** [prev.map((row) => (row.id === rowId ? { ...row, [columnId]: newValue } : row))] *)
Definition applyUpdate (message : WSMessage) (prev : list DataRow) : list DataRow :=
  map (fun row =>
         if hasId (rowId message) row
         then setProp (columnId message) (newValue message) row
         else row)
      prev.

(** The state of the page that the handler touches. *)
Record State : Type := mkState {
  loadedRows : list DataRow;
  allData : list DataRow;
  lastUpdate : option string
}.

(** [handleRealTimeUpdate(message)] as the newer page runs it; [time] is
    [new Date().toLocaleTimeString()]. *)
Definition handleRealTimeUpdate (message : WSMessage) (time : string)
    (st : State) : State :=
  mkState (applyUpdate message (loadedRows st))
          (if 0 <? List.length (allData st)
           then applyUpdate message (allData st)
           else allData st)
          (Some time).

(** [handleRealTimeUpdate(message)] as the older page runs it: the callback
    of the first render, whose [allData] is [[]], so that
    [allData.length > 0] is false whatever the state is by now. *)
Definition firstRenderHandler (message : WSMessage) (time : string)
    (st : State) : State :=
  let allDataOfFirstRender : list DataRow := [] in
  mkState (applyUpdate message (loadedRows st))
          (if 0 <? List.length allDataOfFirstRender
           then applyUpdate message (allData st)
           else allData st)
          (Some time).

End Client.

(** ** db.js: seeding the collection, and the startup of the relay *)

(** [initializeData] of db.js and [initialize] of server.js. The collection
    is the list of its documents ([countDocuments] is its length,
    [insertMany] appends); the lines these two functions log are kept apart
    from the relay's trace. *)
Module Seed.

Record Document : Type := mkDocument {
  row_id : string;
  data : Client.DataRow;
  updates : list CellUpdate;
  created_at : string;
  updated_at : string
}.

Inductive Line : Type :=
| AlreadyContains (count : nat)
| Initializing
| Creating (total : N)
| InsertedBatch (first last : N) (size : nat)
| Initialized (total : N)
| ErrorInitializing
| MongoInitialized
| FailedToInitialize
| WillRunWithoutPersistence.

(** What the store does during one run: the driver's replies to connecting,
    whether [countDocuments] throws, and for the [insertMany] of the batch
    that starts at a given row either success ([None]) or a failure after
    some documents of the batch were stored. *)
Record Replies : Type := mkReplies {
  connect : Relay.StoreReply;
  countThrows : bool;
  insertMany : N -> option nat
}.

Inductive Outcome : Type := Returned | Thrown.

Record Result : Type := mkResult {
  world : World;
  documents : list Document;
  lines : list Line;
  outcome : Outcome
}.

Definition TOTAL_ROWS : N := 100000.

Definition BATCH_SIZE : N := 1000.

Definition string_of_N (n : N) : string := NilEmpty.string_of_uint (N.to_uint n).

(** The integers [start], [start + 1], ... ([len] of them). *)
Fixpoint range (start : N) (len : nat) : list N :=
  match len with
  | 0 => []
  | S len' => start :: range (N.succ start) len'
  end.

Section Seeding.

(** The row object built for row [i] (its values are drawn from
    [Math.random()] and the clock), and the two readings of [new Date()]
    taken when its document is built. *)
Variable rowData : N -> Client.DataRow.
Variable now : N -> string * string.

Definition document (i : N) : Document :=
  mkDocument ("row_" ++ string_of_N i) (rowData i) [] (fst (now i)) (snd (now i)).

(** The loop [for (let batchStart = 0; batchStart < TOTAL_ROWS;
    batchStart += BATCH_SIZE)]; [fuel] bounds the number of turns. *)
Fixpoint insertBatches (fuel : nat) (batchStart : N) (r : Replies)
    (stored : list Document) (logged : list Line)
  : list Document * list Line * Outcome :=
  match fuel with
  | 0 => (stored, logged, Returned)
  | S fuel' =>
      if (batchStart <? TOTAL_ROWS)%N then
        let batchEnd := N.min (batchStart + BATCH_SIZE) TOTAL_ROWS in
        let batch := map document (range batchStart (N.to_nat (batchEnd - batchStart))) in
        match insertMany r batchStart with
        | None =>
            insertBatches fuel' (batchStart + BATCH_SIZE)%N r
              (stored ++ batch)
              (logged ++ [InsertedBatch (batchStart + 1) batchEnd (List.length batch)])
        | Some k => (stored ++ firstn k batch, logged, Thrown)
        end
      else (stored, logged, Returned)
  end.

(** Enough turns for the loop to end by its own test. *)
Definition turns : nat := S (N.to_nat (TOTAL_ROWS / BATCH_SIZE)).

(** db.js, [initializeData]. *)
Definition initializeData (r : Replies) (w : World) (stored : list Document)
  : Result :=
  match Relay.connectToDatabase (connect r) w with
  | Abrupt w' => mkResult w' stored [ErrorInitializing] Thrown
  | Normal false w' => mkResult w' stored [ErrorInitializing] Thrown
  | Normal true w' =>
      if countThrows r then mkResult w' stored [ErrorInitializing] Thrown
      else
        let count := List.length stored in
        if 0 <? count then mkResult w' stored [AlreadyContains count] Returned
        else
          match insertBatches turns 0 r stored [Initializing; Creating TOTAL_ROWS] with
          | (stored', logged, Returned) =>
              mkResult w' stored' (logged ++ [Initialized TOTAL_ROWS]) Returned
          | (stored', logged, Thrown) =>
              mkResult w' stored' (logged ++ [ErrorInitializing]) Thrown
          end
  end.

(** server.js, [initialize]. *)
Definition initialize (r : Replies) (w : World) (stored : list Document)
  : Result :=
  match Relay.connectToDatabase (connect r) w with
  | Abrupt w' =>
      mkResult w' stored [FailedToInitialize; WillRunWithoutPersistence] Returned
  | Normal _ w' =>
      let res := initializeData r w' stored in
      match outcome res with
      | Returned =>
          mkResult (world res) (documents res) (lines res ++ [MongoInitialized])
                   Returned
      | Thrown =>
          mkResult (world res) (documents res)
                   (lines res ++ [FailedToInitialize; WillRunWithoutPersistence])
                   Returned
      end
  end.

End Seeding.

End Seed.

(** The batch of documents that starts at row [1000 * j]. *)
Definition batchOf (rowData : N -> Client.DataRow) (now : N -> string * string) (j : N)
  : list Seed.Document :=
  map (Seed.document rowData now)
      (Seed.range (Seed.BATCH_SIZE * j) (N.to_nat Seed.BATCH_SIZE)).

Definition batchLine (j : N) : Seed.Line :=
  Seed.InsertedBatch (Seed.BATCH_SIZE * j + 1) (Seed.BATCH_SIZE * (j + 1))
                     (N.to_nat Seed.BATCH_SIZE).

(** The batches [j], ..., [j + n - 1], one after the other. *)
Fixpoint batchesFrom (rowData : N -> Client.DataRow) (now : N -> string * string)
    (j : N) (n : nat) : list Seed.Document :=
  match n with
  | 0 => []
  | S n' => batchOf rowData now j ++ batchesFrom rowData now (N.succ j) n'
  end.

(** The store can be used in this run: [MONGODB_URI] is set, a collection
    is at hand or connecting and creating the indexes succeed, and
    [countDocuments] does not throw. *)
Definition reachable (r : Seed.Replies) (w : World) : bool :=
  mongoUri w &&
  (if client w then collection w
   else Relay.connectOk (Seed.connect r) && Relay.createIndexOk (Seed.connect r)) &&
  negb (Seed.countThrows r).

(** All the rows of the seed, in order. *)
Definition seedRows (rowData : N -> Client.DataRow) (now : N -> string * string) (m : nat)
  : list Seed.Document :=
  map (Seed.document rowData now) (Seed.range 0 m).

(** A clock for the examples: every document is built at the same instant. *)
Definition at_noon : N -> string * string :=
  fun _ => ("2024-01-01T12:00:00.000Z", "2024-01-01T12:00:00.000Z").

Definition next_morning : N -> string * string :=
  fun _ => ("2024-01-02T08:00:00.000Z", "2024-01-02T08:00:00.000Z").

(** Rows for the examples, with the first two fields of the seed's rows. *)
Definition sampleRow (i : N) : Client.DataRow :=
  [ ("id", Some (JStr ("row_" ++ Seed.string_of_N i)));
    ("row_number", Some (JNum (inject_Z (Z.of_N i)))) ].

(** ** The grid page: its socket handlers *)

(** The page's [onmessage] and [onCellValueChanged], on the values that
    arrive at run time (the type [WSMessage] is not checked there). *)
Module Page.

(** [a === b] for values read from rows and from a parsed message: an array
    or object of the message is never the same object as a value of a
    row. *)
Definition strictEquals (a b : value) : bool :=
  match a, b with
  | None, None => true
  | Some JNull, Some JNull => true
  | Some (JBool x), Some (JBool y) => Bool.eqb x y
  | Some (JNum x), Some (JNum y) => Qeq_bool x y
  | Some (JStr x), Some (JStr y) => String.eqb x y
  | _, _ => false
  end.

Section Runtime.

(** The conversion of a computed property name to a string (ECMAScript's
    ToPropertyKey); on a string it is the identity. *)
Variable ToPropertyKey : value -> string.

Definition applyUpdate (rowId columnId newValue : value)
    (prev : list Client.DataRow) : list Client.DataRow :=
  map (fun row =>
         if strictEquals (Client.getProp "id" row) rowId
         then Client.setProp (ToPropertyKey columnId) newValue row
         else row)
      prev.

(** [handleRealTimeUpdate(message)] on a parsed object. *)
Definition handleRealTimeUpdate (message : list (string * json))
    (time : string) (st : Client.State) : Client.State :=
  let rowId := lookup "rowId" message in
  let columnId := lookup "columnId" message in
  let newValue := lookup "newValue" message in
  Client.mkState
    (applyUpdate rowId columnId newValue (Client.loadedRows st))
    (if 0 <? List.length (Client.allData st)
     then applyUpdate rowId columnId newValue (Client.allData st)
     else Client.allData st)
    (Some time).

(** [ws.onmessage]: parse, handle an update, ignore anything else; a
    parse error or a [null] message ends in the [catch] block, which only
    logs. *)
Definition onmessage (data : parsed) (time : string) (st : Client.State)
  : Client.State :=
  match data with
  | SyntaxError => st
  | Parsed JNull => st
  | Parsed (JObj message) =>
      if isUpdate (lookup "type" message)
      then handleRealTimeUpdate message time st
      else st
  | Parsed _ => st
  end.

End Runtime.

(** [onCellValueChanged(params)]: the edit counter after it, and the message
    it sends when the socket is open:
    [JSON.stringify({ type: 'update', rowId: data.id, columnId: colDef.field, newValue })]. *)
Definition onCellValueChanged (socketOpen : bool) (data : Client.DataRow)
    (field : option string) (newValue : value) (editedCellsCount : nat)
  : nat * option json :=
  (editedCellsCount + 1,
   if socketOpen
   then Some (JSON_stringify [ ("type", Some (JStr "update"));
                               ("rowId", Client.getProp "id" data);
                               ("columnId", option_map JStr field);
                               ("newValue", newValue) ])
   else None).

End Page.

(** The property-key conversion on strings, for the examples (which use
    string column names only). *)
Definition keyOfString (v : value) : string :=
  match v with
  | Some (JStr s) => s
  | _ => ""
  end.

(** Two loaded rows of the page, and updates for them. *)
Definition sampleRows : list Client.DataRow :=
  [ [ ("id", Some (JStr "row_41")); ("revenue", Some (JNum 100)) ];
    [ ("id", Some (JStr "row_42")); ("revenue", Some (JNum 200));
      ("status", Some (JStr "Active")) ] ].

Definition samplePage : Client.State := Client.mkState sampleRows [] None.

Definition revenueUpdate (row : string) (v : Z) : Client.WSMessage :=
  Client.mkWSMessage row "revenue" (Some (JNum (inject_Z v))).

Definition statusUpdate (row : string) (v : string) : Client.WSMessage :=
  Client.mkWSMessage row "status" (Some (JStr v)).

(** * Properties *)

(** ** The trace only grows *)

Lemma add_effect_one (e : Effect) (w : World) :
  add_effect e w = add_effects [e] w.
Proof. reflexivity. Qed.

Lemma add_effects_nil (w : World) : add_effects [] w = w.
Proof. destruct w; unfold add_effects; cbn. now rewrite app_nil_r. Qed.

Lemma add_effects_app (es1 es2 : list Effect) (w : World) :
  add_effects es2 (add_effects es1 w) = add_effects (es1 ++ es2) w.
Proof. unfold add_effects; cbn. now rewrite app_assoc. Qed.

Lemma received_app (c : ConnId) (t1 t2 : list Effect) :
  received c (t1 ++ t2) = received c t1 ++ received c t2.
Proof.
  induction t1 as [|e t1 IH]; cbn; [reflexivity|].
  destruct e; cbn; auto.
  destruct (Nat.eqb c0 c); cbn; now rewrite IH.
Qed.

Lemma sends_app (t1 t2 : list Effect) :
  sends (t1 ++ t2) = sends t1 ++ sends t2.
Proof.
  induction t1 as [|e t1 IH]; cbn; [reflexivity|].
  destruct e; cbn; now rewrite ?IH.
Qed.

Lemma writes_app (t1 t2 : list Effect) :
  writes (t1 ++ t2) = writes t1 ++ writes t2.
Proof.
  induction t1 as [|e t1 IH]; cbn; [reflexivity|].
  destruct e; cbn; now rewrite ?IH.
Qed.

Lemma closes_app (t1 t2 : list Effect) :
  closes (t1 ++ t2) = closes t1 ++ closes t2.
Proof.
  induction t1 as [|e t1 IH]; cbn; [reflexivity|].
  destruct e; cbn; now rewrite ?IH.
Qed.

Ltac observe :=
  cbn; rewrite ?sends_app, ?writes_app, ?closes_app, ?received_app; cbn;
  rewrite ?app_nil_r.

(** ** The broadcast loop *)

Lemma broadcast_unfold (m : json) (w : World) :
  broadcast m w = sendLoop m (clients w) w.
Proof. reflexivity. Qed.

(** With no throwing [send] among the open connections of [cs], the loop
    sends to each of them, in order. *)
Lemma sendLoop_ok (m : json) (cs : list ConnId) : forall w,
  (forall c, In c cs -> isOpen (sockets w c) = true ->
             sendThrows (sockets w c) = false) ->
  sendLoop m cs w = Normal tt (add_effects (deliveries m cs w) w).
Proof.
  induction cs as [|c cs IH]; intros w H.
  - cbn. now rewrite add_effects_nil.
  - unfold sendLoop, deliveries in *. cbn [forEach filter map].
    unfold bind at 1. unfold bind at 1. unfold gets at 1.
    destruct (isOpen (sockets w c)) eqn:Hopen.
    + unfold send, bind, gets.
      rewrite (H c (or_introl eq_refl) Hopen).
      unfold emit, modify. rewrite add_effect_one.
      rewrite IH.
      * cbn [sockets add_effects map]. now rewrite add_effects_app.
      * intros c' Hin. cbn [sockets add_effects]. apply H. now right.
    + unfold ret. apply IH. intros c' Hin. apply H. now right.
Qed.

(** A throwing [send] ends the loop: connections behind it get nothing. *)
Lemma sendLoop_throws (m : json) (pre : list ConnId) (K : ConnId)
    (post : list ConnId) : forall w,
  (forall c, In c pre -> isOpen (sockets w c) = true ->
             sendThrows (sockets w c) = false) ->
  isOpen (sockets w K) = true ->
  sendThrows (sockets w K) = true ->
  sendLoop m (pre ++ K :: post) w = Abrupt (add_effects (deliveries m pre w) w).
Proof.
  induction pre as [|c pre IH]; intros w H HK HT.
  - unfold sendLoop, deliveries. cbn [app forEach filter map].
    unfold bind at 1. unfold bind at 1. unfold gets at 1. rewrite HK.
    unfold send, bind, gets. rewrite HT. unfold throw.
    now rewrite add_effects_nil.
  - unfold sendLoop, deliveries in *. cbn [app forEach filter map].
    unfold bind at 1. unfold bind at 1. unfold gets at 1.
    destruct (isOpen (sockets w c)) eqn:Hopen.
    + unfold send at 1. unfold bind at 1. unfold gets at 1.
      rewrite (H c (or_introl eq_refl) Hopen).
      unfold emit, modify. rewrite add_effect_one.
      rewrite IH; cbn [sockets add_effects]; auto.
      * cbn [map]. now rewrite add_effects_app.
      * intros c' Hin. apply H. now right.
    + unfold ret. apply IH; auto. intros c' Hin. apply H. now right.
Qed.

Lemma received_deliveries_in (m : json) (c : ConnId) (cs : list ConnId) (w : World) :
  NoDup cs -> In c cs -> isOpen (sockets w c) = true ->
  received c (deliveries m cs w) = [m].
Proof.
  unfold deliveries.
  induction cs as [|c' cs IH]; intros Hnd Hin Hopen; [easy|].
  inversion Hnd as [|? ? Hnotin Hnd']; subst.
  cbn [filter].
  destruct Hin as [->|Hin].
  - rewrite Hopen. cbn. rewrite Nat.eqb_refl. f_equal.
    clear IH Hnd. induction cs as [|d cs IH]; [reflexivity|].
    cbn [filter]. assert (d <> c) by (intros ->; apply Hnotin; now left).
    assert (~ In c cs) by (intros Hc; apply Hnotin; now right).
    inversion Hnd'; subst.
    destruct (isOpen (sockets w d)); cbn; auto.
    destruct (Nat.eqb_spec d c); [contradiction|]. auto.
  - assert (c' <> c) by (intros ->; contradiction).
    destruct (isOpen (sockets w c')); cbn; auto.
    destruct (Nat.eqb_spec c' c); [contradiction|]. auto.
Qed.

Lemma received_deliveries_out (m : json) (c : ConnId) (cs : list ConnId) (w : World) :
  ~ (In c cs /\ isOpen (sockets w c) = true) ->
  received c (deliveries m cs w) = [].
Proof.
  unfold deliveries.
  induction cs as [|c' cs IH]; intros H; [reflexivity|].
  cbn [filter].
  assert (H' : ~ (In c cs /\ isOpen (sockets w c) = true))
    by (intros [? ?]; apply H; split; auto; now right).
  destruct (isOpen (sockets w c')) eqn:Hopen; cbn; auto.
  destruct (Nat.eqb_spec c' c) as [->|]; auto.
  exfalso. apply H. split; auto. now left.
Qed.

Lemma sends_deliveries (m : json) (cs : list ConnId) (w : World) :
  sends (deliveries m cs w) =
  map (fun c => (c, m)) (filter (fun c => isOpen (sockets w c)) cs).
Proof.
  unfold deliveries.
  induction (filter (fun c => isOpen (sockets w c)) cs) as [|c l IH]; cbn; congruence.
Qed.

Lemma writes_deliveries (m : json) (cs : list ConnId) (w : World) :
  writes (deliveries m cs w) = [].
Proof.
  unfold deliveries.
  induction (filter (fun c => isOpen (sockets w c)) cs) as [|c l IH]; cbn; congruence.
Qed.

(** ** The updateable columns *)

Lemma existsb_eqb_In (s : string) (l : list string) :
  existsb (String.eqb s) l = true <-> In s l.
Proof.
  rewrite existsb_exists. split.
  - intros [x [Hin Heq]]. apply String.eqb_eq in Heq. now subst.
  - intros Hin. exists s. split; [assumption | apply String.eqb_refl].
Qed.

Lemma forallb_incl (l1 l2 : list string) :
  forallb (fun s => existsb (String.eqb s) l2) l1 = true -> incl l1 l2.
Proof.
  rewrite forallb_forall. intros H s Hin. apply existsb_eqb_In. now apply H.
Qed.

Lemma updateableColumns_same_members (c : string) :
  In c updateableColumns <-> In c spec_columns.
Proof.
  split; apply forallb_incl; vm_compute; reflexivity.
Qed.

Lemma In_spec_columns (c : string) :
  In c spec_columns <->
  In c baseColumns \/
  exists (family : string) (N : nat),
    In family spec_families /\ 1 <= N <= 20 /\ c = template family N.
Proof.
  unfold spec_columns. rewrite in_app_iff, in_flat_map.
  split; (intros [Hbase | Hfam]; [now left | right]).
  - destruct Hfam as [family [Hf Hin]].
    apply in_map_iff in Hin. destruct Hin as [N [Heq HN]].
    apply in_seq in HN. exists family, N. repeat split; auto; lia.
  - destruct Hfam as [family [N [Hf [HN Heq]]]].
    exists family. split; [assumption|].
    apply in_map_iff. exists N. split; [now symmetry|].
    apply in_seq. lia.
Qed.

(** C7. The updateable columns are exactly the thirteen base names and the
    columns [performance_metric_N], [sales_metric_N], [behavior_metric_N] and
    [kpi_N] for N from 1 to 20: 93 columns, none of them twice. *)
Theorem updateableColumns_exact :
  List.length baseColumns = 13 /\
  List.length updateableColumns = 93 /\
  NoDup updateableColumns /\
  forall c : string,
    In c updateableColumns <->
    In c [ "revenue"; "expenses"; "profit"; "employees"; "status";
           "verified"; "premium"; "subscription_tier"; "total_score";
           "risk_factor"; "satisfaction_score"; "engagement_rate";
           "conversion_rate" ] \/
    exists (family : string) (N : nat),
      In family [ "performance_metric_"; "sales_metric_";
                  "behavior_metric_"; "kpi_" ] /\
      1 <= N <= 20 /\
      c = (family ++ NilEmpty.string_of_uint (Nat.to_uint N))%string.
Proof.
  split; [reflexivity|]. split; [reflexivity|]. split.
  - assert (H : nodup string_dec updateableColumns = updateableColumns)
      by (vm_compute; reflexivity).
    rewrite <- H. apply NoDup_nodup.
  - intros c. rewrite updateableColumns_same_members. apply In_spec_columns.
Qed.

(** ** Handlers that leave connections alone *)

Lemma quiet_refl (w : World) : quiet w w.
Proof. repeat split. Qed.

Lemma quiet_trans (w1 w2 w3 : World) : quiet w1 w2 -> quiet w2 w3 -> quiet w1 w3.
Proof.
  unfold quiet. intros (A1 & B1 & C1 & D1 & E1 & F1 & G1 & I1 & H1)
                       (A2 & B2 & C2 & D2 & E2 & F2 & G2 & I2 & H2).
  repeat split; try congruence; intros c; rewrite H2; apply H1.
Qed.

Lemma quiet_log (line : LogLine) (w : World) : quiet w (add_effect (Log line) w).
Proof. repeat split; intros; observe; try reflexivity. Qed.

Ltac crush_quiet :=
  repeat split; intros; observe; try reflexivity.

Lemma updateCell_quiet (u : CellUpdate) (reply : Relay.StoreReply) (w : World) :
  quiet w (final (Relay.updateCell u reply w)).
Proof.
  destruct w as [cs so pe np uri cl co a b st tr].
  destruct reply as [cok iok uo].
  unfold Relay.updateCell, Relay.connectToDatabase, try_catch, bind, gets,
    modify, log, emit, throw, ret; cbn.
  destruct uri, cl, cok, iok, co, uo as [n|]; cbn; crush_quiet.
Qed.

Lemma onMessage_normal (ws : ConnId) (data : parsed) (w : World) :
  exists w', Relay.onMessage ws data w = Normal tt w'.
Proof.
  unfold Relay.onMessage, try_catch.
  match goal with |- context [match ?b w with _ => _ end] => destruct (b w) as [[] w1|w1] end.
  - now exists w1.
  - eexists. reflexivity.
Qed.

Lemma resumeMessage_normal (u : CellUpdate) (reply : Relay.StoreReply)
    (now : string) (w : World) :
  exists w', Relay.resumeMessage u reply now w = Normal tt w'.
Proof.
  unfold Relay.resumeMessage, try_catch.
  match goal with |- context [match ?b w with _ => _ end] => destruct (b w) as [[] w1|w1] end.
  - now exists w1.
  - eexists. reflexivity.
Qed.

(** The message handler before the [await]: what it does for each shape of
    payload. *)
Lemma onMessage_syntax_error (ws : ConnId) (w : World) :
  Relay.onMessage ws SyntaxError w =
  Normal tt (add_effects [Log ErrorProcessingMessage] w).
Proof. reflexivity. Qed.

Lemma onMessage_null (ws : ConnId) (w : World) :
  Relay.onMessage ws (Parsed JNull) w =
  Normal tt (add_effects [Log (ReceivedMessage JNull); Log ErrorProcessingMessage] w).
Proof.
  unfold Relay.onMessage, try_catch, bind, log, emit, modify; cbn.
  rewrite !add_effect_one, add_effects_app. reflexivity.
Qed.

Lemma onMessage_update (ws : ConnId) (fields : list (string * json)) (w : World) :
  isUpdate (lookup "type" fields) = true ->
  Relay.onMessage ws (Parsed (JObj fields)) w =
  Normal tt
    (set_pending (pending w ++ [(nextPromise w, destructure fields)])
                 (S (nextPromise w))
                 (add_effects [Log (ReceivedMessage (JObj fields));
                               UpdateCell (destructure fields)] w)).
Proof.
  intros H.
  unfold Relay.onMessage, try_catch, bind, log, emit, modify, gets; cbn.
  rewrite H. unfold set_pending, add_effects, add_effect; cbn.
  now rewrite <- app_assoc.
Qed.

Lemma onMessage_other (ws : ConnId) (message : json) (w : World) :
  (forall fields, message = JObj fields -> isUpdate (lookup "type" fields) = false) ->
  message <> JNull ->
  Relay.onMessage ws (Parsed message) w =
  Normal tt (add_effects [Log (ReceivedMessage message)] w).
Proof.
  intros H Hnull.
  unfold Relay.onMessage, try_catch, bind, log, emit, modify, gets; cbn.
  destruct message; try contradiction; cbn; try reflexivity.
  now rewrite (H fields eq_refl).
Qed.

Lemma quiet_effects (es : list Effect) (w : World) :
  sends es = [] -> writes es = [] -> closes es = [] ->
  quiet w (add_effects es w).
Proof.
  intros Hs Hw Hc. repeat split; cbn.
  - now rewrite sends_app, Hs, app_nil_r.
  - now rewrite writes_app, Hw, app_nil_r.
  - now rewrite closes_app, Hc, app_nil_r.
  - intros c. rewrite received_app.
    assert (H : received c es = []).
    { clear -Hs. induction es as [|e es IH]; [reflexivity|].
      destruct e; cbn in *; auto. discriminate. }
    now rewrite H, app_nil_r.
Qed.

(** The continuation of the handler when the write did not return [true]. *)
Lemma resumeMessage_not_saved (u : CellUpdate) (reply : Relay.StoreReply)
    (now : string) (w : World) :
  (forall w1, Relay.updateCell u reply w <> Normal true w1) ->
  exists w', Relay.resumeMessage u reply now w = Normal tt w' /\ quiet w w'.
Proof.
  intros H. pose proof (updateCell_quiet u reply w) as Hq.
  unfold Relay.resumeMessage, try_catch, bind.
  destruct (Relay.updateCell u reply w) as [[|] w1|w1] eqn:E; cbn in Hq.
  - exfalso. now apply (H w1).
  - exists w1. split; [reflexivity | assumption].
  - eexists. split; [reflexivity|].
    eapply quiet_trans; [exact Hq | apply quiet_log].
Qed.

Lemma deliveries_frame (m : json) (w w1 : World) :
  quiet w w1 -> deliveries m (clients w1) w1 = deliveries m (clients w) w.
Proof.
  intros (Hc & Hs & _). unfold deliveries. now rewrite Hc, Hs.
Qed.

(** The continuation when the write returned [true] and no [send] throws. *)
Lemma resumeMessage_saved (u : CellUpdate) (reply : Relay.StoreReply)
    (now : string) (w w1 : World) :
  Relay.updateCell u reply w = Normal true w1 ->
  (forall c, In c (clients w) -> isOpen (sockets w c) = true ->
             sendThrows (sockets w c) = false) ->
  Relay.resumeMessage u reply now w =
  Normal tt (add_effects
               (deliveries (Relay.broadcastMessage u now) (clients w) w ++
                [Log (UpdateSavedAndBroadcast u)]) w1).
Proof.
  intros E H. pose proof (updateCell_quiet u reply w) as Hq.
  rewrite E in Hq; cbn in Hq.
  unfold Relay.resumeMessage, try_catch. unfold bind at 1. rewrite E.
  unfold bind at 1. rewrite broadcast_unfold, sendLoop_ok.
  - rewrite (deliveries_frame _ w w1 Hq).
    unfold log, emit, modify. now rewrite add_effect_one, add_effects_app.
  - destruct Hq as (Hc & Hs & _). rewrite Hc, Hs. exact H.
Qed.

(** The continuation when the write returned [true] and the [send] to [K]
    throws: the loop is left, the [catch] block logs the error. *)
Lemma resumeMessage_send_throws (u : CellUpdate) (reply : Relay.StoreReply)
    (now : string) (w w1 : World) (pre : list ConnId) (K : ConnId)
    (post : list ConnId) :
  Relay.updateCell u reply w = Normal true w1 ->
  clients w = pre ++ K :: post ->
  (forall c, In c pre -> isOpen (sockets w c) = true ->
             sendThrows (sockets w c) = false) ->
  isOpen (sockets w K) = true ->
  sendThrows (sockets w K) = true ->
  Relay.resumeMessage u reply now w =
  Normal tt (add_effects
               (deliveries (Relay.broadcastMessage u now) pre w ++
                [Log ErrorProcessingMessage]) w1).
Proof.
  intros E Hcs H HK HT. pose proof (updateCell_quiet u reply w) as Hq.
  rewrite E in Hq; cbn in Hq. destruct Hq as (Hc & Hs & _).
  unfold Relay.resumeMessage, try_catch. unfold bind at 1. rewrite E.
  unfold bind at 1. rewrite broadcast_unfold, Hc, Hcs.
  rewrite sendLoop_throws; rewrite ?Hs; auto.
  unfold log, emit, modify. rewrite add_effect_one, add_effects_app.
  unfold deliveries. now rewrite Hs.
Qed.

Lemma onMessage_sends (ws : ConnId) (data : parsed) (w : World) :
  sends (trace (final (Relay.onMessage ws data w))) = sends (trace w).
Proof.
  destruct data as [|message]; [now observe|].
  destruct message as [ | b | q | s | items | fields ];
    try (rewrite onMessage_other by (intros; discriminate); now observe).
  - rewrite onMessage_null. now observe.
  - destruct (isUpdate (lookup "type" fields)) eqn:Hty.
    + rewrite onMessage_update by assumption. now observe.
    + rewrite onMessage_other; [now observe | | discriminate].
      intros f Heq. injection Heq as <-. exact Hty.
Qed.

(** ** Persistence gates the broadcast *)

(** C1, as the code has it. The relay broadcasts an accepted update only when
    the persistence write returns true. Receiving the message sends nothing
    by itself, so an update whose write never settles is never broadcast;
    and when [updateCell] throws or returns false, the continuation of the
    handler sends nothing to any connection, completes normally, and leaves
    the registry, the sockets and the process status as they were. *)
Theorem no_broadcast_unless_saved (u : CellUpdate) (reply : Relay.StoreReply)
    (now : string) (w : World) :
  (forall ws data,
     exists w', Relay.onMessage ws data w = Normal tt w' /\
                sends (trace w') = sends (trace w)) /\
  ((forall w1, Relay.updateCell u reply w <> Normal true w1) ->
   exists w',
     Relay.resumeMessage u reply now w = Normal tt w' /\
     sends (trace w') = sends (trace w) /\
     clients w' = clients w /\
     sockets w' = sockets w /\
     status w' = status w).
Proof.
  split.
  - intros ws data.
    destruct (onMessage_normal ws data w) as (w' & E). exists w'.
    split; [exact E|].
    pose proof (onMessage_sends ws data w) as Hs. now rewrite E in Hs.
  - intros H.
    destruct (resumeMessage_not_saved u reply now w H)
      as (w' & E & Hc & Hs & _ & _ & Hst & Hsends & _).
    exists w'. repeat split; assumption.
Qed.

Lemma no_broadcast_unless_saved_witness :
  exists w',
    Relay.resumeMessage editUpdate notModified "2024-01-01T12:00:00.000Z"
      (serving [1; 2]) = Normal tt w' /\
    sends (trace w') = sends (trace (serving [1; 2])) /\
    clients w' = clients (serving [1; 2]) /\
    sockets w' = sockets (serving [1; 2]) /\
    status w' = status (serving [1; 2]).
Proof.
  apply (proj2 (no_broadcast_unless_saved editUpdate notModified
                  "2024-01-01T12:00:00.000Z" (serving [1; 2]))).
  intros w1. vm_compute. discriminate.
Defined.

(** C1 as stated fails: an update is accepted from connection 1 while
    connections 1 and 2 are open; the write reports no modification (or the
    store throws) and nothing is broadcast. *)
Lemma broadcast_regardless_counterexample :
  let accepted := Relay.run [Relay.Message 1 (Parsed edit)] (serving [1; 2]) in
  writes (trace accepted) = [editUpdate] /\
  sends (trace (Relay.run [Relay.Settle 0 notModified "2024-01-01T12:00:00.000Z"]
                          accepted)) = [] /\
  sends (trace (Relay.run [Relay.Settle 0 storeDown "2024-01-01T12:00:00.000Z"]
                          accepted)) = [].
Proof. vm_compute. repeat split. Qed.

(** ** Fan-out *)

(** C2, as the code has it. When the persistence write of an accepted update
    returned true and no [send] throws, every registered connection that is
    open is sent the same message once, whichever connection the update came
    from (the continuation does not know the originator); the other
    connections are sent nothing, and the registry is unchanged. *)
Theorem fanout_when_saved (u : CellUpdate) (reply : Relay.StoreReply)
    (now : string) (w w1 : World) :
  NoDup (clients w) ->
  Relay.updateCell u reply w = Normal true w1 ->
  (forall c, In c (clients w) -> isOpen (sockets w c) = true ->
             sendThrows (sockets w c) = false) ->
  exists w',
    Relay.resumeMessage u reply now w = Normal tt w' /\
    clients w' = clients w /\
    (forall c, In c (clients w) -> isOpen (sockets w c) = true ->
       received c (trace w') =
       received c (trace w) ++ [Relay.broadcastMessage u now]) /\
    (forall c, ~ (In c (clients w) /\ isOpen (sockets w c) = true) ->
       received c (trace w') = received c (trace w)) /\
    sends (trace w') =
    sends (trace w) ++
    map (fun c => (c, Relay.broadcastMessage u now))
        (filter (fun c => isOpen (sockets w c)) (clients w)).
Proof.
  intros Hnd E H.
  pose proof (updateCell_quiet u reply w) as Hq. rewrite E in Hq; cbn in Hq.
  destruct Hq as (Hc & Hs & _ & _ & _ & Hsends & _ & _ & Hrecv).
  eexists. split; [apply (resumeMessage_saved u reply now w w1 E H)|].
  cbn [clients trace add_effects]. split; [assumption|].
  split; [|split].
  - intros c Hin Hopen.
    rewrite !received_app, Hrecv, received_deliveries_in by assumption.
    cbn. now rewrite ?app_nil_r.
  - intros c Hout.
    rewrite !received_app, Hrecv, received_deliveries_out by assumption.
    cbn. now rewrite ?app_nil_r.
  - rewrite !sends_app, Hsends, sends_deliveries. cbn. now rewrite ?app_nil_r.
Qed.

Ltac nodup_nat :=
  repeat (constructor; [cbn; intuition discriminate|]); constructor.

Lemma fanout_when_saved_witness :
  exists w',
    Relay.resumeMessage editUpdate stored "2024-01-01T12:00:00.000Z"
      (serving [1; 2]) = Normal tt w' /\
    clients w' = [1; 2] /\
    (forall c, In c [1; 2] -> isOpen (sockets (serving [1; 2]) c) = true ->
       received c (trace w') =
       received c (trace (serving [1; 2])) ++
       [Relay.broadcastMessage editUpdate "2024-01-01T12:00:00.000Z"]) /\
    (forall c, ~ (In c [1; 2] /\ isOpen (sockets (serving [1; 2]) c) = true) ->
       received c (trace w') = received c (trace (serving [1; 2]))) /\
    sends (trace w') =
    sends (trace (serving [1; 2])) ++
    map (fun c => (c, Relay.broadcastMessage editUpdate "2024-01-01T12:00:00.000Z"))
        (filter (fun c => isOpen (sockets (serving [1; 2]) c)) [1; 2]).
Proof.
  refine (fanout_when_saved editUpdate stored "2024-01-01T12:00:00.000Z"
            (serving [1; 2])
            (add_effects [UpdateOne editUpdate] (serving [1; 2])) _ _ _).
  - nodup_nat.
  - reflexivity.
  - intros c _ _. reflexivity.
Defined.

(** C2 as stated fails: three connections are open, connection 1 sends an
    update that is accepted, the store cannot be reached, and none of the
    three connections is sent anything. *)
Lemma fanout_counterexample :
  let w := Relay.run [ Relay.Message 1 (Parsed edit);
                       Relay.Settle 0 storeDown "2024-01-01T12:00:00.000Z" ]
                     (degraded [1; 2; 3]) in
  writes (trace w) = [editUpdate] /\
  clients w = [1; 2; 3] /\
  (forall c, isOpen (sockets w c) = true) /\
  received 1 (trace w) = [] /\
  received 2 (trace w) = [] /\
  received 3 (trace w) = [].
Proof. vm_compute. repeat split. Qed.

(** ** A failing send *)

Lemma Set_delete_spec (K c : ConnId) (cs : list ConnId) :
  In c (Set_delete K cs) <-> In c cs /\ c <> K.
Proof.
  unfold Set_delete. rewrite filter_In.
  destruct (Nat.eqb_spec c K); cbn; intuition congruence.
Qed.

Lemma Set_delete_NoDup (K : ConnId) (cs : list ConnId) :
  NoDup cs -> NoDup (Set_delete K cs).
Proof. apply NoDup_filter. Qed.

Lemma Set_add_spec (K c : ConnId) (cs : list ConnId) :
  In c (Set_add K cs) <-> In c cs \/ c = K.
Proof.
  unfold Set_add. destruct (existsb (Nat.eqb K) cs) eqn:E.
  - split; [now left|]. intros [H| ->]; [assumption|].
    apply existsb_exists in E. destruct E as [x [Hin Heq]].
    apply Nat.eqb_eq in Heq. now subst.
  - rewrite in_app_iff. cbn. intuition.
Qed.

Lemma Set_add_NoDup (K : ConnId) (cs : list ConnId) :
  NoDup cs -> NoDup (Set_add K cs).
Proof.
  intros Hnd. unfold Set_add. destruct (existsb (Nat.eqb K) cs) eqn:E; [assumption|].
  apply NoDup_app; auto.
  - repeat constructor. intros [].
  - intros c Hin [Heq|[]]. subst c.
    assert (existsb (Nat.eqb K) cs = true); [|congruence].
    apply existsb_exists. exists K. split; [assumption | apply Nat.eqb_refl].
Qed.

Lemma NoDup_app_disjoint (l1 l2 : list ConnId) :
  NoDup (l1 ++ l2) -> forall c, In c l1 -> ~ In c l2.
Proof.
  induction l1 as [|a l1 IH]; intros Hnd c Hin; [easy|].
  cbn in Hnd. inversion Hnd as [|? ? Hnotin Hnd']; subst.
  destruct Hin as [->|Hin]; [|now apply IH].
  intros Hc. apply Hnotin, in_or_app. now right.
Qed.

(** ** Payloads that are not updates *)

(** C10. A payload that parses and whose [type] is not ['update'] causes no
    persistence write, no message to any connection (so no reply to the
    sender either), no close, and leaves the registry, the sockets, the
    suspended handlers and the process status unchanged; the handler
    completes normally. *)
Theorem other_types_ignored (ws : ConnId) (message : json) (w : World) :
  (forall fields, message = JObj fields ->
                  isUpdate (lookup "type" fields) = false) ->
  exists w',
    Relay.onMessage ws (Parsed message) w = Normal tt w' /\
    writes (trace w') = writes (trace w) /\
    sends (trace w') = sends (trace w) /\
    closes (trace w') = closes (trace w) /\
    clients w' = clients w /\
    sockets w' = sockets w /\
    pending w' = pending w /\
    status w' = status w.
Proof.
  intros H.
  assert (Hq : exists w', Relay.onMessage ws (Parsed message) w = Normal tt w'
                          /\ quiet w w').
  { destruct message as [ | b | q | s | items | fields ].
    - rewrite onMessage_null. eexists. split; [reflexivity|].
      now apply quiet_effects.
    - rewrite onMessage_other by (intros; discriminate).
      eexists; split; [reflexivity | now apply quiet_effects].
    - rewrite onMessage_other by (intros; discriminate).
      eexists; split; [reflexivity | now apply quiet_effects].
    - rewrite onMessage_other by (intros; discriminate).
      eexists; split; [reflexivity | now apply quiet_effects].
    - rewrite onMessage_other by (intros; discriminate).
      eexists; split; [reflexivity | now apply quiet_effects].
    - rewrite onMessage_other by (auto; intros; discriminate).
      eexists; split; [reflexivity | now apply quiet_effects]. }
  destruct Hq as (w' & E & Hc & Hs & Hp & _ & Hst & Hsends & Hw & Hcl & _).
  exists w'. repeat split; assumption.
Qed.

Lemma other_types_ignored_witness :
  exists w',
    Relay.onMessage 1 (Parsed ping) (serving [1; 2]) = Normal tt w' /\
    writes (trace w') = [] /\
    sends (trace w') = [] /\
    closes (trace w') = [] /\
    clients w' = [1; 2] /\
    sockets w' = sockets (serving [1; 2]) /\
    pending w' = [] /\
    status w' = Live.
Proof.
  apply (other_types_ignored 1 ping (serving [1; 2])).
  intros fields Heq. injection Heq as <-. reflexivity.
Defined.

(** ** Malformed payloads *)

(** C4, as the code has it. A payload that is not JSON makes [JSON.parse]
    throw: the error is logged, no write is attempted, nothing is sent or
    closed and the registry is unchanged; the same holds for a JSON object
    without [type]. An [update] without [rowId], [columnId] or [newValue] is
    not rejected: [updateCell] is called with [undefined] in place of what
    is missing and the handler is suspended on it like for any update. In
    all three cases the handler completes normally. *)
Theorem malformed_payloads (ws : ConnId) (w : World) :
  (exists w', Relay.onMessage ws SyntaxError w = Normal tt w' /\ quiet w w') /\
  (forall fields, lookup "type" fields = None ->
     exists w', Relay.onMessage ws (Parsed (JObj fields)) w = Normal tt w'
                /\ quiet w w') /\
  (forall fields, isUpdate (lookup "type" fields) = true ->
     exists w', Relay.onMessage ws (Parsed (JObj fields)) w = Normal tt w' /\
       writes (trace w') =
         writes (trace w) ++
         [mkCellUpdate (lookup "rowId" fields) (lookup "columnId" fields)
                       (lookup "newValue" fields)] /\
       pending w' =
         pending w ++
         [(nextPromise w,
           mkCellUpdate (lookup "rowId" fields) (lookup "columnId" fields)
                        (lookup "newValue" fields))] /\
       sends (trace w') = sends (trace w) /\
       clients w' = clients w /\
       status w' = status w).
Proof.
  split; [|split].
  - rewrite onMessage_syntax_error. eexists. split; [reflexivity|].
    now apply quiet_effects.
  - intros fields Hty.
    rewrite onMessage_other.
    + eexists. split; [reflexivity | now apply quiet_effects].
    + intros f Heq. injection Heq as <-. now rewrite Hty.
    + discriminate.
  - intros fields Hty. rewrite (onMessage_update ws fields w Hty).
    eexists. split; [reflexivity|].
    cbn [trace pending clients status set_pending add_effects].
    repeat split; observe; reflexivity.
Qed.

Lemma malformed_payloads_witness :
  (exists w', Relay.onMessage 1 SyntaxError (serving [1; 2]) = Normal tt w'
              /\ quiet (serving [1; 2]) w') /\
  (exists w', Relay.onMessage 1
                (Parsed (JObj [("rowId", JStr "row_42")])) (serving [1; 2])
              = Normal tt w' /\ quiet (serving [1; 2]) w') /\
  (exists w', Relay.onMessage 1 (Parsed partialEdit) (serving [1; 2])
              = Normal tt w' /\
     writes (trace w') =
       [mkCellUpdate (Some (JStr "row_42")) (Some (JStr "revenue")) None]).
Proof.
  destruct (malformed_payloads 1 (serving [1; 2])) as (H1 & H2 & H3).
  split; [exact H1|]. split.
  - apply H2. reflexivity.
  - destruct (H3 [ ("type", JStr "update"); ("rowId", JStr "row_42");
                   ("columnId", JStr "revenue") ] eq_refl)
      as (w' & E & Hw & _).
    exists w'. split; [exact E | exact Hw].
Defined.

(** C4 as stated fails: an [update] without [newValue] is not dropped. The
    persistence write is attempted, and when the store reports a
    modification the update is broadcast, without a [newValue]. *)
Lemma malformed_update_counterexample :
  let accepted := Relay.run [Relay.Message 1 (Parsed partialEdit)] (serving [1; 2]) in
  let w := Relay.run [Relay.Settle 0 stored "2024-01-01T12:00:00.000Z"] accepted in
  writes (trace accepted) =
    [mkCellUpdate (Some (JStr "row_42")) (Some (JStr "revenue")) None] /\
  received 2 (trace w) =
    [JObj [ ("type", JStr "update"); ("rowId", JStr "row_42");
            ("columnId", JStr "revenue");
            ("timestamp", JStr "2024-01-01T12:00:00.000Z") ]].
Proof. vm_compute. repeat split. Qed.

(** ** Timestamps *)

(** Whatever happens in the loop, what it sent is [m], to registered
    connections. *)
Lemma sendLoop_sends (m : json) (cs : list ConnId) : forall w,
  exists sent,
    incl sent cs /\
    final (sendLoop m cs w) = add_effects (map (fun c => Send c m) sent) w.
Proof.
  induction cs as [|c cs IH]; intros w.
  - exists []. split; [easy|]. cbn. now rewrite add_effects_nil.
  - unfold sendLoop in *. cbn [forEach].
    unfold bind at 1. unfold bind at 1. unfold gets at 1.
    destruct (isOpen (sockets w c)).
    + unfold send at 1. unfold bind at 1. unfold gets at 1.
      destruct (sendThrows (sockets w c)).
      * exists []. split; [easy|]. cbn. now rewrite add_effects_nil.
      * unfold emit, modify. rewrite add_effect_one.
        destruct (IH (add_effects [Send c m] w)) as (sent & Hincl & E).
        exists (c :: sent). split.
        -- intros x [->|Hx]; [now left | right; now apply Hincl].
        -- rewrite E, add_effects_app. reflexivity.
    + unfold ret.
      destruct (IH w) as (sent & Hincl & E).
      exists sent. split; [|exact E].
      intros x Hx. right. now apply Hincl.
Qed.

Lemma sends_map_Send (m : json) (sent : list ConnId) :
  sends (map (fun c => Send c m) sent) = map (fun c => (c, m)) sent.
Proof. induction sent as [|c l IH]; cbn; congruence. Qed.

(** What the continuation of the message handler sends, in every case. *)
Lemma resumeMessage_sends (u : CellUpdate) (reply : Relay.StoreReply)
    (now : string) (w : World) :
  exists w' sent,
    Relay.resumeMessage u reply now w = Normal tt w' /\
    incl sent (clients w) /\
    sends (trace w') =
    sends (trace w) ++ map (fun c => (c, Relay.broadcastMessage u now)) sent.
Proof.
  pose proof (updateCell_quiet u reply w) as Hq.
  unfold Relay.resumeMessage, try_catch. unfold bind at 1.
  destruct (Relay.updateCell u reply w) as [[|] w1|w1]; cbn in Hq;
    destruct Hq as (Hc & _ & _ & _ & _ & Hsends & _).
  - unfold bind at 1. rewrite broadcast_unfold.
    destruct (sendLoop_sends (Relay.broadcastMessage u now) (clients w1) w1)
      as (sent & Hincl & E).
    rewrite Hc in Hincl.
    destruct (sendLoop (Relay.broadcastMessage u now) (clients w1) w1)
      as [[] w2|w2]; cbn in E; subst w2;
      eexists; exists sent; (split; [reflexivity|]); (split; [assumption|]);
      observe; now rewrite Hsends, sends_map_Send.
  - exists w1, []. repeat split; [easy|]. cbn. now rewrite app_nil_r.
  - eexists; exists []. split; [reflexivity|]. split; [easy|].
    observe. now rewrite Hsends.
Qed.

Lemma generateUpdateValue_pure (col : option string) (random : Q) (w : World) :
  final (Baseline.generateUpdateValue col random w) = w.
Proof.
  unfold Baseline.generateUpdateValue. destruct col as [col|]; [|reflexivity].
  repeat match goal with
         | |- context [if ?b then _ else _] => destruct b
         end; reflexivity.
Qed.

(** What a timer tick sends, in every case. *)
Lemma onInterval_sends (r1 r2 r3 : Q) (w : World) :
  exists sent row col v,
    incl sent (clients w) /\
    sends (trace (final (Baseline.onInterval r1 r2 r3 w))) =
    sends (trace w) ++
    map (fun c => (c, Baseline.syntheticMessage row col v)) sent.
Proof.
  unfold Baseline.onInterval. unfold bind at 1. unfold gets at 1.
  destruct (0 <? List.length (clients w)).
  - set (row := ("row_" ++ _)%string).
    set (col := Baseline.at_index _ _).
    unfold bind at 1.
    pose proof (generateUpdateValue_pure col r3 w) as Hg.
    destruct (Baseline.generateUpdateValue col r3 w) as [v w1|w1];
      cbn in Hg; subst w1.
    + unfold bind at 1. rewrite broadcast_unfold.
      destruct (sendLoop_sends (Baseline.syntheticMessage row col v) (clients w) w)
        as (sent & Hincl & E).
      exists sent, row, col, v. split; [assumption|].
      destruct (sendLoop (Baseline.syntheticMessage row col v) (clients w) w)
        as [[] w2|w2]; cbn in E; subst w2; observe;
        now rewrite sends_map_Send.
    + exists [], row, col, None. split; [easy|]. cbn. now rewrite app_nil_r.
  - exists [], "", None, None. split; [easy|]. cbn. now rewrite app_nil_r.
Qed.

Lemma broadcastMessage_timestamp (u : CellUpdate) (now : string) :
  property (Relay.broadcastMessage u now) "type" = Some (JStr "update") /\
  property (Relay.broadcastMessage u now) "rowId" = rowId u /\
  property (Relay.broadcastMessage u now) "columnId" = columnId u /\
  property (Relay.broadcastMessage u now) "newValue" = newValue u /\
  property (Relay.broadcastMessage u now) "timestamp" = Some (JStr now).
Proof.
  destruct u as [[r|] [c|] [v|]]; cbn; repeat split.
Qed.

Lemma syntheticMessage_no_timestamp (row : string) (col : option string) (v : value) :
  property (Baseline.syntheticMessage row col v) "type" = Some (JStr "update") /\
  property (Baseline.syntheticMessage row col v) "timestamp" = None.
Proof.
  destruct col as [col|], v as [v|]; cbn; split; reflexivity.
Qed.

(** C5, as the code has it. Every message the relay sends for a client edit
    is the [update] message built after the write, whose [timestamp] is the
    relay's clock reading at that moment ([new Date().toISOString()]) and
    whose other fields are the three the handler took from the client's
    message, so a timestamp supplied by the client is not used. The
    messages of the periodic generator are [update] messages without a
    [timestamp]. *)
Theorem timestamps_of_updates :
  (forall (u : CellUpdate) (reply : Relay.StoreReply) (now : string) (w : World),
     exists w',
       Relay.resumeMessage u reply now w = Normal tt w' /\
       forall c m, In (c, m) (sends (trace w')) ->
         In (c, m) (sends (trace w)) \/
         (m = Relay.broadcastMessage u now /\
          property m "type" = Some (JStr "update") /\
          property m "timestamp" = Some (JStr now))) /\
  (forall (r1 r2 r3 : Q) (w : World) c m,
     In (c, m) (sends (trace (final (Baseline.onInterval r1 r2 r3 w)))) ->
     In (c, m) (sends (trace w)) \/
     (property m "type" = Some (JStr "update") /\
      property m "timestamp" = None)).
Proof.
  split.
  - intros u reply now w.
    destruct (resumeMessage_sends u reply now w) as (w' & sent & E & _ & Hs).
    exists w'. split; [exact E|].
    intros c m Hin. rewrite Hs in Hin. apply in_app_or in Hin.
    destruct Hin as [Hold|Hnew]; [now left | right].
    apply in_map_iff in Hnew. destruct Hnew as (c' & Heq & _).
    injection Heq as _ <-.
    pose proof (broadcastMessage_timestamp u now) as (Hty & _ & _ & _ & Hts).
    auto.
  - intros r1 r2 r3 w c m Hin.
    destruct (onInterval_sends r1 r2 r3 w) as (sent & row & col & v & _ & Hs).
    rewrite Hs in Hin. apply in_app_or in Hin.
    destruct Hin as [Hold|Hnew]; [now left | right].
    apply in_map_iff in Hnew. destruct Hnew as (c' & Heq & _).
    injection Heq as _ <-.
    apply syntheticMessage_no_timestamp.
Qed.

(** C5 as stated fails for the generator: with two clients connected, a tick
    sends an [update] that has no [timestamp]. *)
Lemma synthetic_timestamp_counterexample :
  let w := Baseline.run [Baseline.Tick (1 # 2) oneThird (1 # 4)] (serving [1; 2]) in
  received 1 (trace w) =
    [JObj [ ("type", JStr "update"); ("rowId", JStr "row_500");
            ("columnId", JStr "behavior_metric_5");
            ("newValue", JNum (2500 # 1)) ]] /\
  map (fun m => property m "timestamp") (received 1 (trace w)) = [None] /\
  map (fun m => property m "timestamp") (received 2 (trace w)) = [None].
Proof. vm_compute. repeat split. Qed.

(** A client's own timestamp does not reach the broadcast. *)
Example client_timestamp_ignored :
  let message :=
    JObj [ ("type", JStr "update"); ("rowId", JStr "row_42");
           ("columnId", JStr "revenue"); ("newValue", JNum (500000 # 1));
           ("timestamp", JStr "1999-12-31T23:59:59.000Z") ] in
  let w := Relay.run [ Relay.Message 1 (Parsed message);
                       Relay.Settle 0 stored "2024-01-01T12:00:00.000Z" ]
                     (serving [1; 2]) in
  map (fun m => property m "timestamp") (received 2 (trace w)) =
  [Some (JStr "2024-01-01T12:00:00.000Z")].
Proof. vm_compute. reflexivity. Qed.

(** ** The generator and the empty registry *)

(** C9. When no client is registered, a tick of the generator builds and
    sends nothing and changes nothing; so a tick that sends something had a
    registered client. *)
Theorem tick_without_clients (r1 r2 r3 : Q) (w : World) :
  (clients w = [] ->
   Baseline.onInterval r1 r2 r3 w = Normal tt w /\
   Baseline.step (Baseline.Tick r1 r2 r3) w = w) /\
  (sends (trace (Baseline.step (Baseline.Tick r1 r2 r3) w)) <> sends (trace w) ->
   clients w <> []).
Proof.
  assert (H : clients w = [] ->
              Baseline.onInterval r1 r2 r3 w = Normal tt w /\
              Baseline.step (Baseline.Tick r1 r2 r3) w = w).
  { intros Hempty.
    assert (E : Baseline.onInterval r1 r2 r3 w = Normal tt w).
    { unfold Baseline.onInterval, bind, gets. now rewrite Hempty. }
    split; [exact E|].
    unfold Baseline.step, run_handler. rewrite E. now destruct (status w). }
  split; [exact H|].
  intros Hsent Hempty. apply Hsent.
  destruct (H Hempty) as [_ ->]. reflexivity.
Qed.

Lemma tick_without_clients_witness :
  Baseline.onInterval (1 # 2) oneThird (1 # 4) idle = Normal tt idle /\
  Baseline.step (Baseline.Tick (1 # 2) oneThird (1 # 4)) idle = idle.
Proof.
  apply (tick_without_clients (1 # 2) oneThird (1 # 4) idle). reflexivity.
Defined.

(** ** Order of broadcasts *)

Lemma updateCell_healthy (u : CellUpdate) (reply : Relay.StoreReply)
    (n : nat) (w : World) :
  mongoUri w = true -> client w = true -> collection w = true ->
  Relay.updateOne reply = Some (S n) ->
  Relay.updateCell u reply w = Normal true (add_effects [UpdateOne u] w).
Proof.
  intros Huri Hcl Hco Hup.
  unfold Relay.updateCell, Relay.connectToDatabase, try_catch, bind, gets,
    modify, log, emit, throw, ret.
  rewrite Huri, Hcl, Hco, Hup. reflexivity.
Qed.

Lemma find_pending_remove (k1 k2 : nat) (p : list (nat * CellUpdate)) :
  k1 <> k2 ->
  Relay.find_pending k2 (Relay.remove_pending k1 p) = Relay.find_pending k2 p.
Proof.
  intros Hne. induction p as [|[k u] p IH]; [reflexivity|].
  cbn. destruct (Nat.eqb_spec k k1) as [->|Hk]; cbn.
  - destruct (Nat.eqb_spec k1 k2); [contradiction | exact IH].
  - destruct (Nat.eqb k k2); [reflexivity | exact IH].
Qed.

(** One [Settle] event for a suspended handler whose write succeeds. *)
Lemma step_Settle_saved (k : nat) (u : CellUpdate) (reply : Relay.StoreReply)
    (now : string) (n : nat) (w : World) :
  status w = Live ->
  Relay.find_pending k (pending w) = Some u ->
  mongoUri w = true -> client w = true -> collection w = true ->
  Relay.updateOne reply = Some (S n) ->
  (forall c, In c (clients w) -> isOpen (sockets w c) = true ->
             sendThrows (sockets w c) = false) ->
  Relay.step (Relay.Settle k reply now) w =
  add_effects
    ([UpdateOne u] ++
     deliveries (Relay.broadcastMessage u now) (clients w) w ++
     [Log (UpdateSavedAndBroadcast u)])
    (set_pending (Relay.remove_pending k (pending w)) (nextPromise w) w).
Proof.
  intros Hlive Hk Huri Hcl Hco Hup Hsend.
  unfold Relay.step. rewrite Hk.
  set (w0 := set_pending _ _ w).
  unfold run_handler. change (status w0) with (status w). rewrite Hlive.
  rewrite (resumeMessage_saved u reply now w0 (add_effects [UpdateOne u] w0)).
  - now rewrite add_effects_app.
  - now apply (updateCell_healthy u reply n w0).
  - exact Hsend.
Qed.

(** C6, as the code has it. The broadcast of an update is made when its
    persistence write settles, so broadcasts follow the order in which the
    writes settle, not the order in which the updates were accepted. For two
    accepted updates whose writes both return true, every registered open
    connection is sent the message of the write that settles first and then
    the message of the other one. *)
Theorem broadcasts_follow_settlement
    (k1 k2 : nat) (u1 u2 : CellUpdate) (reply1 reply2 : Relay.StoreReply)
    (now1 now2 : string) (n1 n2 : nat) (w : World) :
  status w = Live ->
  NoDup (clients w) ->
  mongoUri w = true -> client w = true -> collection w = true ->
  k1 <> k2 ->
  Relay.find_pending k1 (pending w) = Some u1 ->
  Relay.find_pending k2 (pending w) = Some u2 ->
  Relay.updateOne reply1 = Some (S n1) ->
  Relay.updateOne reply2 = Some (S n2) ->
  (forall c, In c (clients w) -> isOpen (sockets w c) = true ->
             sendThrows (sockets w c) = false) ->
  forall c, In c (clients w) -> isOpen (sockets w c) = true ->
    received c (trace (Relay.run [ Relay.Settle k1 reply1 now1;
                                   Relay.Settle k2 reply2 now2 ] w)) =
    received c (trace w) ++
    [ Relay.broadcastMessage u1 now1; Relay.broadcastMessage u2 now2 ].
Proof.
  intros Hlive Hnd Huri Hcl Hco Hne Hk1 Hk2 Hup1 Hup2 Hsend c Hin Hopen.
  unfold Relay.run, run_events. cbn [fold_left].
  rewrite (step_Settle_saved k1 u1 reply1 now1 n1 w) by assumption.
  rewrite (step_Settle_saved k2 u2 reply2 now2 n2); try assumption.
  - cbn [trace add_effects set_pending clients].
    rewrite !received_app.
    change (deliveries (Relay.broadcastMessage u2 now2) (clients w) _)
      with (deliveries (Relay.broadcastMessage u2 now2) (clients w) w).
    rewrite !received_deliveries_in by assumption.
    cbn. now rewrite <- app_assoc.
  - cbn [pending add_effects set_pending].
    now rewrite find_pending_remove.
Qed.

Lemma broadcasts_follow_settlement_witness :
  received 2 (trace (Relay.run
                       [ Relay.Settle 0 stored "2024-01-01T12:00:00.100Z";
                         Relay.Settle 1 stored "2024-01-01T12:00:00.200Z" ]
                       twoInFlight)) =
  received 2 (trace twoInFlight) ++
  [ Relay.broadcastMessage (updateTo 100) "2024-01-01T12:00:00.100Z";
    Relay.broadcastMessage (updateTo 200) "2024-01-01T12:00:00.200Z" ].
Proof.
  apply (broadcasts_follow_settlement 0 1 (updateTo 100) (updateTo 200)
           stored stored _ _ 0 0 twoInFlight); try reflexivity.
  - cbn. nodup_nat.
  - discriminate.
  - right. now left.
Defined.

(** C6 as stated fails: the update with value 100 is accepted before the
    update of the same cell with value 200; both writes succeed, the second
    one first. Every connection is sent the value 200 and then the value
    100. *)
Lemma ordering_counterexample :
  let w := Relay.run [ Relay.Message 1 (Parsed (editTo 100));
                       Relay.Message 2 (Parsed (editTo 200));
                       Relay.Settle 1 stored "2024-01-01T12:00:00.100Z";
                       Relay.Settle 0 stored "2024-01-01T12:00:00.200Z" ]
                     (serving [1; 2]) in
  writes (trace w) = [updateTo 100; updateTo 200] /\
  map (fun m => property m "newValue") (received 1 (trace w)) =
    [Some (JNum (200 # 1)); Some (JNum (100 # 1))] /\
  map (fun m => property m "newValue") (received 2 (trace w)) =
    [Some (JNum (200 # 1)); Some (JNum (100 # 1))].
Proof. vm_compute. repeat split. Qed.

(** ** Shutdown *)

Lemma closeLoop_ok (cs : list ConnId) : forall w,
  (forall c, In c cs -> closeThrows (sockets w c) = false) ->
  closeLoop cs w = Normal tt (add_effects (goodbyes cs) w).
Proof.
  induction cs as [|c cs IH]; intros w H.
  - cbn. now rewrite add_effects_nil.
  - unfold closeLoop, goodbyes in *. cbn [forEach map].
    unfold bind at 1. unfold close at 1. unfold bind at 1. unfold gets at 1.
    rewrite (H c (or_introl eq_refl)).
    unfold emit, modify. rewrite add_effect_one, IH.
    + now rewrite add_effects_app.
    + intros c' Hin. cbn [sockets add_effects]. apply H. now right.
Qed.

Lemma closeLoop_throws (pre : list ConnId) (K : ConnId) (post : list ConnId) :
  forall w,
  (forall c, In c pre -> closeThrows (sockets w c) = false) ->
  closeThrows (sockets w K) = true ->
  closeLoop (pre ++ K :: post) w = Abrupt (add_effects (goodbyes pre) w).
Proof.
  induction pre as [|c pre IH]; intros w H HK.
  - unfold closeLoop, goodbyes. cbn [app forEach map].
    unfold bind at 1. unfold close at 1. unfold bind at 1. unfold gets at 1.
    rewrite HK. unfold throw. now rewrite add_effects_nil.
  - unfold closeLoop, goodbyes in *. cbn [app forEach map].
    unfold bind at 1. unfold close at 1. unfold bind at 1. unfold gets at 1.
    rewrite (H c (or_introl eq_refl)).
    unfold emit, modify. rewrite add_effect_one, IH; cbn [sockets add_effects]; auto.
    + now rewrite add_effects_app.
    + intros c' Hin. apply H. now right.
Qed.

Lemma onSigint_ok (w : World) :
  (forall c, In c (clients w) -> closeThrows (sockets w c) = false) ->
  Relay.onSigint w =
  Normal tt
    (set_callbacks true (onHttpClosed w)
       (add_effects ([Log ShuttingDown] ++ goodbyes (clients w) ++ [WssClose]) w)).
Proof.
  intros H. unfold Relay.onSigint.
  unfold bind at 1. unfold log, emit, modify. rewrite add_effect_one.
  unfold bind at 1. unfold gets at 1. unfold bind at 1.
  change (clients (add_effects [Log ShuttingDown] w)) with (clients w).
  rewrite closeLoop_ok by exact H.
  unfold bind. rewrite add_effect_one, !add_effects_app. reflexivity.
Qed.

Lemma step_Sigint_ok (w : World) :
  status w = Live ->
  (forall c, In c (clients w) -> closeThrows (sockets w c) = false) ->
  Relay.step Relay.Sigint w =
  set_callbacks true (onHttpClosed w)
    (add_effects ([Log ShuttingDown] ++ goodbyes (clients w) ++ [WssClose]) w).
Proof.
  intros Hlive H. unfold Relay.step, run_handler.
  now rewrite Hlive, (onSigint_ok w H).
Qed.

(** ** The registry is a set *)

Lemma onMessage_clients (ws : ConnId) (data : parsed) (w : World) :
  clients (final (Relay.onMessage ws data w)) = clients w.
Proof.
  destruct data as [|message]; [reflexivity|].
  destruct message as [ | b | q | s | items | fields ];
    try (rewrite onMessage_other by (intros; discriminate); reflexivity).
  - now rewrite onMessage_null.
  - destruct (isUpdate (lookup "type" fields)) eqn:Hty.
    + now rewrite onMessage_update.
    + rewrite onMessage_other; [reflexivity | | discriminate].
      intros f Heq. injection Heq as <-. exact Hty.
Qed.

Lemma resumeMessage_clients (u : CellUpdate) (reply : Relay.StoreReply)
    (now : string) (w : World) :
  clients (final (Relay.resumeMessage u reply now w)) = clients w.
Proof.
  pose proof (updateCell_quiet u reply w) as Hq.
  unfold Relay.resumeMessage, try_catch. unfold bind at 1.
  destruct (Relay.updateCell u reply w) as [[|] w1|w1]; cbn in Hq;
    destruct Hq as (Hc & _); [| exact Hc | exact Hc].
  unfold bind at 1. rewrite broadcast_unfold.
  destruct (sendLoop_sends (Relay.broadcastMessage u now) (clients w1) w1)
    as (sent & _ & E).
  destruct (sendLoop (Relay.broadcastMessage u now) (clients w1) w1)
    as [[] w2|w2]; cbn in E; subst w2; exact Hc.
Qed.

Lemma closeLoop_final (cs : list ConnId) : forall w,
  exists closed, final (closeLoop cs w) = add_effects (goodbyes closed) w.
Proof.
  induction cs as [|c cs IH]; intros w.
  - exists []. cbn. now rewrite add_effects_nil.
  - unfold closeLoop in *. cbn [forEach].
    unfold bind at 1. unfold close at 1. unfold bind at 1. unfold gets at 1.
    destruct (closeThrows (sockets w c)).
    + exists []. cbn. now rewrite add_effects_nil.
    + unfold emit, modify. rewrite add_effect_one.
      destruct (IH (add_effects [Close c 1000 "Server shutting down"] w))
        as (closed & E).
      exists (c :: closed). rewrite E, add_effects_app. reflexivity.
Qed.

Lemma onSigint_clients (w : World) :
  clients (final (Relay.onSigint w)) = clients w.
Proof.
  unfold Relay.onSigint.
  unfold bind at 1. unfold log, emit, modify. rewrite add_effect_one.
  unfold bind at 1. unfold gets at 1. unfold bind at 1.
  change (clients (add_effects [Log ShuttingDown] w)) with (clients w).
  destruct (closeLoop_final (clients w) (add_effects [Log ShuttingDown] w))
    as (closed & E).
  destruct (closeLoop (clients w) (add_effects [Log ShuttingDown] w))
    as [[] w2|w2]; cbn in E; subst w2; reflexivity.
Qed.

Lemma run_handler_clients (h : JS unit) (w : World) :
  clients (run_handler h w) = clients w \/
  clients (run_handler h w) = clients (final (h w)).
Proof.
  unfold run_handler. destruct (status w); auto.
  destruct (h w); auto.
Qed.

(** Every event leaves the registry as it is, adds one connection to it or
    deletes one from it. *)
Lemma step_clients (e : Relay.Event) (w : World) :
  clients (Relay.step e w) = clients w \/
  exists ws, clients (Relay.step e w) = Set_add ws (clients w) \/
             clients (Relay.step e w) = Set_delete ws (clients w).
Proof.
  destruct e as [ws s|ws s|ws|ws|ws data|k reply now| |closeOk| ];
    unfold Relay.step.
  - destruct (run_handler_clients (Relay.onConnection ws) (set_socket ws s w))
      as [E|E]; rewrite E; [now left|].
    right. exists ws. left.
    unfold Relay.onConnection, bind, log, emit, modify, send, gets, throw; cbn.
    rewrite Nat.eqb_refl. now destruct (sendThrows s).
  - now left.
  - destruct (run_handler_clients (Relay.onClose ws) w) as [E|E]; rewrite E;
      [now left | right; exists ws; now right].
  - destruct (run_handler_clients (Relay.onError ws) w) as [E|E]; rewrite E;
      [now left | right; exists ws; now right].
  - left. destruct (run_handler_clients (Relay.onMessage ws data) w) as [E|E];
      rewrite E; [reflexivity | apply onMessage_clients].
  - left. destruct (Relay.find_pending k (pending w)) as [u|]; [|reflexivity].
    match goal with |- clients (run_handler ?h ?w0) = _ =>
      destruct (run_handler_clients h w0) as [E|E]; rewrite E;
        [reflexivity | now rewrite resumeMessage_clients]
    end.
  - left. destruct (run_handler_clients Relay.onSigint w) as [E|E]; rewrite E;
      [reflexivity | apply onSigint_clients].
  - left. destruct (onWssClosed w); [|reflexivity].
    match goal with |- clients (run_handler ?h ?w0) = _ =>
      destruct (run_handler_clients h w0) as [E|E]; rewrite E; [reflexivity|]
    end.
    unfold Relay.wssCloseCallback, Relay.closeConnection, bind, log, emit,
      modify, gets, throw, ret; cbn.
    now destruct (client w), closeOk.
  - left. destruct (onHttpClosed w); [|reflexivity].
    match goal with |- clients (run_handler ?h ?w0) = _ =>
      destruct (run_handler_clients h w0) as [E|E]; rewrite E; reflexivity
    end.
Qed.

(** The registry never holds a connection twice. *)
Lemma run_NoDup (events : list Relay.Event) : forall w,
  NoDup (clients w) -> NoDup (clients (Relay.run events w)).
Proof.
  induction events as [|e events IH]; intros w Hnd; [exact Hnd|].
  unfold Relay.run, run_events in *. cbn [fold_left]. apply IH.
  destruct (step_clients e w) as [E|[ws [E|E]]]; rewrite E.
  - exact Hnd.
  - now apply Set_add_NoDup.
  - now apply Set_delete_NoDup.
Qed.

(** Deleting is idempotent and harmless for a connection that is not
    registered. *)
Lemma Set_delete_absent (ws : ConnId) (cs : list ConnId) :
  ~ In ws cs -> Set_delete ws cs = cs.
Proof.
  intros Hnotin. unfold Set_delete.
  induction cs as [|c cs IH]; [reflexivity|].
  cbn. destruct (Nat.eqb_spec c ws) as [->|Hne]; cbn.
  - exfalso. apply Hnotin. now left.
  - rewrite IH; [reflexivity|]. intros Hin. apply Hnotin. now right.
Qed.

(** Three connections are open, the transport drops connection 2, and the
    next update reaches the two that remain. *)
Example dropped_connection :
  let w := Relay.run [ Relay.Transport 2 closedSocket;
                       Relay.WsClose 2;
                       Relay.Message 1 (Parsed edit);
                       Relay.Settle 0 stored "2024-01-01T12:00:00.000Z" ]
                     (serving [1; 2; 3]) in
  clients w = [1; 3] /\
  sends (trace w) =
    [ (1, Relay.broadcastMessage editUpdate "2024-01-01T12:00:00.000Z");
      (3, Relay.broadcastMessage editUpdate "2024-01-01T12:00:00.000Z") ].
Proof. vm_compute. split; reflexivity. Qed.

(** The update of connection 1 is echoed to connection 1 as well. *)
Example echo_to_originator :
  let w := Relay.run [ Relay.Message 1 (Parsed edit);
                       Relay.Settle 0 stored "2024-01-01T12:00:00.000Z" ]
                     (serving [1; 2]) in
  received 1 (trace w) = received 2 (trace w) /\
  received 1 (trace w) =
    [ JObj [ ("type", JStr "update"); ("rowId", JStr "row_42");
             ("columnId", JStr "revenue"); ("newValue", JNum (500000 # 1));
             ("timestamp", JStr "2024-01-01T12:00:00.000Z") ] ].
Proof. vm_compute. split; reflexivity. Qed.

(** * Further properties of the relay *)

(** ** The registry along a run *)

Lemma Set_delete_add (ws : ConnId) (cs : list ConnId) :
  ~ In ws cs -> Set_delete ws (Set_add ws cs) = cs.
Proof.
  intros Hnotin. unfold Set_add.
  destruct (existsb (Nat.eqb ws) cs) eqn:E.
  - apply existsb_exists in E. destruct E as (x & Hin & Heq).
    apply Nat.eqb_eq in Heq. subst x. contradiction.
  - unfold Set_delete. rewrite filter_app. cbn. rewrite Nat.eqb_refl. cbn.
    rewrite app_nil_r. now apply Set_delete_absent.
Qed.

Lemma Set_delete_length (ws : ConnId) (cs : list ConnId) :
  NoDup cs -> In ws cs -> S (List.length (Set_delete ws cs)) = List.length cs.
Proof.
  unfold Set_delete. induction cs as [|c cs IH]; intros Hnd Hin; [easy|].
  inversion Hnd as [|? ? Hnotin Hnd']; subst. cbn.
  destruct (Nat.eqb_spec c ws) as [->|Hne]; cbn.
  - f_equal. fold (Set_delete ws cs). now rewrite Set_delete_absent.
  - destruct Hin as [->|Hin]; [contradiction|]. f_equal. now apply IH.
Qed.

Lemma step_WsClose_live (ws : ConnId) (w : World) :
  status w = Live ->
  Relay.step (Relay.WsClose ws) w =
  set_clients (Set_delete ws (clients w)) (add_effects [Log ClientDisconnected] w).
Proof.
  intros Hlive. unfold Relay.step, run_handler. now rewrite Hlive.
Qed.

Lemma step_WsError_live (ws : ConnId) (w : World) :
  status w = Live ->
  Relay.step (Relay.WsError ws) w =
  set_clients (Set_delete ws (clients w)) (add_effects [Log WebSocketError] w).
Proof.
  intros Hlive. unfold Relay.step, run_handler. now rewrite Hlive.
Qed.

Lemma step_Connection_live (ws : ConnId) (s : Socket) (w : World) :
  status w = Live ->
  sendThrows s = false ->
  Relay.step (Relay.Connection ws s) w =
  set_clients (Set_add ws (clients w))
    (add_effects [Log ClientConnected; Send ws Relay.connectedMessage]
       (set_socket ws s w)).
Proof.
  intros Hlive Hsend. unfold Relay.step, run_handler.
  change (status (set_socket ws s w)) with (status w). rewrite Hlive.
  unfold Relay.onConnection, bind, log, emit, modify, send, gets, throw; cbn.
  rewrite Nat.eqb_refl, Hsend.
  unfold set_clients, add_effects, add_effect; cbn. unfold add_effect; cbn.
  now rewrite <- app_assoc.
Qed.

(** ** A failing connection *)

Lemma run_app (events1 events2 : list Relay.Event) (w : World) :
  Relay.run (events1 ++ events2) w = Relay.run events2 (Relay.run events1 w).
Proof. unfold Relay.run, run_events. apply fold_left_app. Qed.

Lemma Set_delete_twice (K : ConnId) (cs : list ConnId) :
  Set_delete K (Set_delete K cs) = Set_delete K cs.
Proof.
  apply Set_delete_absent. rewrite Set_delete_spec. intros [_ H]. now apply H.
Qed.

(** What the events reporting the failure of connection [K] do to a live
    server: they unregister [K] and write log lines. *)
Lemma failure_run (K : ConnId) (failure : list Relay.Event) : forall w,
  status w = Live ->
  forallb (failureOf K) failure = true ->
  status (Relay.run failure w) = Live /\
  (forall c, received c (trace (Relay.run failure w)) = received c (trace w)) /\
  clients (Relay.run failure w) =
    (if existsb unregisters failure then Set_delete K (clients w) else clients w).
Proof.
  induction failure as [|e failure IH]; intros w Hlive Hall; [auto|].
  cbn [forallb] in Hall. apply andb_true_iff in Hall. destruct Hall as [He Hall].
  unfold Relay.run, run_events in *. cbn [fold_left existsb].
  destruct e as [ws s|ws s|ws|ws|ws data|k reply now| |closeOk| ];
    try discriminate; cbn in He; apply Nat.eqb_eq in He; subst ws.
  - destruct (IH (Relay.step (Relay.Transport K s) w) Hlive Hall)
      as (H1 & H2 & H3).
    cbn [unregisters orb]. auto.
  - rewrite (step_WsClose_live K w Hlive).
    destruct (IH (set_clients (Set_delete K (clients w))
                    (add_effects [Log ClientDisconnected] w)) Hlive Hall)
      as (H1 & H2 & H3).
    split; [exact H1|]. split.
    + intros c. rewrite H2. cbn. rewrite received_app. cbn. apply app_nil_r.
    + rewrite H3. cbn [unregisters orb clients set_clients].
      destruct (existsb unregisters failure); [apply Set_delete_twice | reflexivity].
  - rewrite (step_WsError_live K w Hlive).
    destruct (IH (set_clients (Set_delete K (clients w))
                    (add_effects [Log WebSocketError] w)) Hlive Hall)
      as (H1 & H2 & H3).
    split; [exact H1|]. split.
    + intros c. rewrite H2. cbn. rewrite received_app. cbn. apply app_nil_r.
    + rewrite H3. cbn [unregisters orb clients set_clients].
      destruct (existsb unregisters failure); [apply Set_delete_twice | reflexivity].
Qed.

(** C3. A send that fails does not keep the message from the other
    connections, and the connection that failed leaves the registry. The
    [send] of the [ws] library does not throw for an open socket: a failed
    send shows as the error and close events of that socket. So, for an
    update whose write returned true, the loop hands the message to every
    registered open connection, K and the N - 1 others alike; and once the
    failure of K is reported (its socket changes state, raises its error
    event, its close event, or both), K is out of the registry, every other
    connection is still registered, and what the others were sent stands. *)
Theorem failed_send_is_isolated (u : CellUpdate) (reply : Relay.StoreReply)
    (now : string) (w w1 : World) (K : ConnId) (failure : list Relay.Event) :
  status w = Live ->
  NoDup (clients w) ->
  Relay.updateCell u reply w = Normal true w1 ->
  (forall c, In c (clients w) -> isOpen (sockets w c) = true ->
             sendThrows (sockets w c) = false) ->
  In K (clients w) ->
  isOpen (sockets w K) = true ->
  forallb (failureOf K) failure = true ->
  existsb unregisters failure = true ->
  exists w',
    Relay.resumeMessage u reply now w = Normal tt w' /\
    (forall c, In c (clients w) -> isOpen (sockets w c) = true ->
       received c (trace (Relay.run failure w')) =
       received c (trace w) ++ [Relay.broadcastMessage u now]) /\
    clients (Relay.run failure w') = Set_delete K (clients w) /\
    ~ In K (clients (Relay.run failure w')) /\
    (forall c, c <> K ->
       (In c (clients (Relay.run failure w')) <-> In c (clients w))) /\
    status (Relay.run failure w') = Live.
Proof.
  intros Hlive Hnd E Hsend HK HKopen Hall Hex.
  pose proof (updateCell_quiet u reply w) as Hq. rewrite E in Hq; cbn in Hq.
  destruct Hq as (Hc & Hs & _ & _ & Hst & _ & _ & _ & Hrecv).
  eexists. split; [apply (resumeMessage_saved u reply now w w1 E Hsend)|].
  set (w' := add_effects _ w1).
  assert (Hlive' : status w' = Live) by (cbn; congruence).
  destruct (failure_run K failure w' Hlive' Hall) as (H1 & H2 & H3).
  rewrite Hex in H3. cbn [clients add_effects w'] in H3. rewrite Hc in H3.
  split.
  { intros c Hin Hopen. rewrite H2. unfold w'. cbn [trace add_effects].
    rewrite !received_app, Hrecv, received_deliveries_in by assumption.
    cbn. now rewrite ?app_nil_r. }
  split; [exact H3|]. rewrite H3.
  split; [rewrite Set_delete_spec; intros [_ H]; now apply H|].
  split; [|exact H1].
  intros c Hne. rewrite Set_delete_spec. tauto.
Qed.

Lemma failed_send_is_isolated_witness :
  let failure := [ Relay.Transport 2 closedSocket; Relay.WsError 2;
                   Relay.WsClose 2 ] in
  exists w',
    Relay.resumeMessage editUpdate stored "2024-01-01T12:00:00.000Z"
      (serving [1; 2; 3]) = Normal tt w' /\
    received 1 (trace (Relay.run failure w')) =
      [Relay.broadcastMessage editUpdate "2024-01-01T12:00:00.000Z"] /\
    received 3 (trace (Relay.run failure w')) =
      [Relay.broadcastMessage editUpdate "2024-01-01T12:00:00.000Z"] /\
    clients (Relay.run failure w') = [1; 3] /\
    status (Relay.run failure w') = Live.
Proof.
  destruct (failed_send_is_isolated editUpdate stored
              "2024-01-01T12:00:00.000Z" (serving [1; 2; 3])
              (add_effects [UpdateOne editUpdate] (serving [1; 2; 3])) 2
              [ Relay.Transport 2 closedSocket; Relay.WsError 2;
                Relay.WsClose 2 ])
    as (w' & E & Hrecv & Hcs & _ & _ & Hst).
  - reflexivity.
  - cbn. nodup_nat.
  - reflexivity.
  - intros c _ _. reflexivity.
  - cbn. tauto.
  - reflexivity.
  - reflexivity.
  - reflexivity.
  - exists w'. split; [exact E|].
    split; [apply (Hrecv 1); [cbn; tauto | reflexivity]|].
    split; [apply (Hrecv 3); [cbn; tauto | reflexivity]|].
    split; [exact Hcs | exact Hst].
Defined.

(** ** Shutdown *)

Lemma actions_app (t1 t2 : list Effect) :
  actions (t1 ++ t2) = actions t1 ++ actions t2.
Proof. apply filter_app. Qed.

Lemma actions_cons (x : Effect) (t : list Effect) :
  actions (x :: t) =
  (match x with Log _ => [] | _ => [x] end) ++ actions t.
Proof. destruct x; reflexivity. Qed.

Lemma actions_logs (logs : list LogLine) : actions (map Log logs) = [].
Proof. induction logs; cbn; auto. Qed.

Lemma actions_goodbyes (cs : list ConnId) : actions (goodbyes cs) = goodbyes cs.
Proof. induction cs as [|c cs IH]; cbn; [reflexivity|]. now f_equal. Qed.

(** An event of a connection changes the registry and the sockets and
    writes log lines; it leaves the rest of the server as it is. *)
Lemma connection_event_frame (e : Relay.Event) (w : World) :
  connectionEvent e = true ->
  exists cs so logs,
    Relay.step e w =
    mkWorld cs so (pending w) (nextPromise w) (mongoUri w) (client w)
            (collection w) (onWssClosed w) (onHttpClosed w) (status w)
            (trace w ++ map Log logs).
Proof.
  assert (Hsame : exists cs so logs,
            w = mkWorld cs so (pending w) (nextPromise w) (mongoUri w) (client w)
                  (collection w) (onWssClosed w) (onHttpClosed w) (status w)
                  (trace w ++ map Log logs)).
  { exists (clients w), (sockets w), []. cbn. rewrite app_nil_r. now destruct w. }
  destruct e as [ws s|ws s|ws|ws|ws data|k reply now| |closeOk| ];
    try discriminate; intros _; unfold Relay.step, run_handler.
  - eexists _, _, []. cbn. rewrite app_nil_r. reflexivity.
  - destruct (status w) eqn:Hst; [|exact Hsame ..].
    eexists _, _, [ClientDisconnected].
    unfold Relay.onClose, bind, log, emit, modify, add_effect, set_clients.
    cbn. rewrite ?Hst. reflexivity.
  - destruct (status w) eqn:Hst; [|exact Hsame ..].
    eexists _, _, [WebSocketError].
    unfold Relay.onError, bind, log, emit, modify, add_effect, set_clients.
    cbn. rewrite ?Hst. reflexivity.
Qed.

Lemma connection_events_frame (events : list Relay.Event) : forall w,
  forallb connectionEvent events = true ->
  exists cs so logs,
    Relay.run events w =
    mkWorld cs so (pending w) (nextPromise w) (mongoUri w) (client w)
            (collection w) (onWssClosed w) (onHttpClosed w) (status w)
            (trace w ++ map Log logs).
Proof.
  induction events as [|e events IH]; intros w Hall.
  - exists (clients w), (sockets w), []. cbn. rewrite app_nil_r.
    now destruct w.
  - cbn [forallb] in Hall. apply andb_true_iff in Hall.
    destruct Hall as [He Hall].
    unfold Relay.run, run_events in *. cbn [fold_left].
    destruct (connection_event_frame e w He) as (cs1 & so1 & logs1 & E1).
    destruct (IH (Relay.step e w) Hall) as (cs & so & logs & E).
    rewrite E, E1. cbn.
    exists cs, so, (logs1 ++ logs). now rewrite map_app, app_assoc.
Qed.


(** When the store connection does not close, the shutdown is not clean:
    the callback of [wss.close] is left by the exception, [server.close] is
    not called and the process does not exit with code 0. *)
Lemma store_close_failure_stops_shutdown
    (w : World) (during after : list Relay.Event) :
  status w = Live ->
  (forall c, In c (clients w) -> closeThrows (sockets w c) = false) ->
  client w = true ->
  forallb connectionEvent during = true ->
  forallb connectionEvent after = true ->
  (exists es,
     trace (Relay.run ([Relay.Sigint] ++ during ++ [Relay.WssClosed false] ++
                       after ++ [Relay.HttpClosed]) w) = trace w ++ es /\
     actions es =
       map (fun c => Close c 1000 "Server shutting down") (clients w) ++
       [WssClose; StoreClose]) /\
  status (Relay.run ([Relay.Sigint] ++ during ++ [Relay.WssClosed false] ++
                     after ++ [Relay.HttpClosed]) w) = Faulted.
Proof.
  intros Hlive H Hcl Hduring Hafter.
  rewrite !run_app.
  change (Relay.run [Relay.Sigint] w) with (Relay.step Relay.Sigint w).
  rewrite (step_Sigint_ok w Hlive H).
  set (w1 := set_callbacks true (onHttpClosed w) _).
  destruct (connection_events_frame during w1 Hduring) as (cs1 & so1 & logs1 & E1).
  rewrite E1.
  set (w2 := mkWorld cs1 so1 _ _ _ _ _ _ _ _ _).
  change (Relay.run [Relay.WssClosed false] w2)
    with (Relay.step (Relay.WssClosed false) w2).
  set (w3 := Relay.step (Relay.WssClosed false) w2).
  destruct (connection_events_frame after w3 Hafter) as (cs2 & so2 & logs2 & E2).
  rewrite E2.
  set (w4 := mkWorld cs2 so2 _ _ _ _ _ _ _ _ _).
  change (Relay.run [Relay.HttpClosed] w4) with (Relay.step Relay.HttpClosed w4).
  unfold w4, w3, w2, w1.
  destruct w as [cs so pe np uri cl co a b st tr]. cbn in Hlive, Hcl. subst st cl.
  fold (goodbyes cs).
  destruct b; cbn; unfold add_effect; cbn;
    repeat (rewrite <- app_assoc; cbn);
    (split; [|reflexivity]); eexists; (split; [reflexivity|]);
    fold (goodbyes cs);
    repeat (rewrite actions_cons || rewrite actions_app);
    rewrite actions_goodbyes, !actions_logs; cbn;
    now rewrite ?app_nil_r.
Qed.


(** X1. Starting with an empty registry, whatever events the relay is handed,
    its registry never holds a connection twice. *)
Theorem registry_has_no_duplicates (events : list Relay.Event) (w : World) :
  clients w = [] -> NoDup (clients (Relay.run events w)).
Proof.
  intros Hempty.
  assert (H : forall evs w0, NoDup (clients w0) ->
                             NoDup (clients (Relay.run evs w0))).
  { induction evs as [|e evs IH]; intros w0 Hnd; [exact Hnd|].
    unfold Relay.run, run_events in *. cbn [fold_left]. apply IH.
    destruct (step_clients e w0) as [E|[ws [E|E]]]; rewrite E.
    - exact Hnd.
    - now apply Set_add_NoDup.
    - now apply Set_delete_NoDup. }
  apply H. rewrite Hempty. constructor.
Qed.

Lemma registry_has_no_duplicates_witness :
  NoDup (clients (Relay.run [ Relay.Connection 1 openSocket;
                              Relay.Connection 1 openSocket;
                              Relay.Connection 2 openSocket;
                              Relay.WsClose 1;
                              Relay.Connection 1 openSocket ] idle)).
Proof.
  apply (registry_has_no_duplicates _ idle). reflexivity.
Defined.

(** X2. A connection that was not registered, connects and then closes,
    leaves the registry exactly as it was, order included. *)
Theorem connect_then_close_restores_registry
    (ws : ConnId) (s : Socket) (w : World) :
  status w = Live ->
  sendThrows s = false ->
  ~ In ws (clients w) ->
  clients (Relay.run [Relay.Connection ws s; Relay.WsClose ws] w) = clients w.
Proof.
  intros Hlive Hsend Hnotin.
  unfold Relay.run, run_events. cbn [fold_left].
  rewrite (step_Connection_live ws s w Hlive Hsend).
  rewrite step_WsClose_live by exact Hlive.
  cbn [clients set_clients add_effects set_socket].
  now apply Set_delete_add.
Qed.

Lemma connect_then_close_restores_registry_witness :
  clients (Relay.run [Relay.Connection 3 openSocket; Relay.WsClose 3]
                     (serving [1; 2])) = [1; 2].
Proof.
  apply (connect_then_close_restores_registry 3 openSocket (serving [1; 2])).
  - reflexivity.
  - reflexivity.
  - cbn. intuition discriminate.
Defined.

(** X3. Unregistering is idempotent: the close or error event of a
    connection that is not registered leaves the registry unchanged, and a
    second close event changes nothing the first one did not. *)
Theorem unregister_is_idempotent (ws : ConnId) (w : World) :
  (~ In ws (clients w) ->
   clients (Relay.step (Relay.WsClose ws) w) = clients w /\
   clients (Relay.step (Relay.WsError ws) w) = clients w) /\
  clients (Relay.run [Relay.WsClose ws; Relay.WsClose ws] w) =
  clients (Relay.run [Relay.WsClose ws] w) /\
  clients (Relay.run [Relay.WsClose ws; Relay.WsError ws] w) =
  clients (Relay.run [Relay.WsClose ws] w).
Proof.
  assert (Hdel : forall cs, ~ In ws (Set_delete ws cs)).
  { intros cs Hin. apply Set_delete_spec in Hin. now destruct Hin. }
  unfold Relay.run, run_events. cbn [fold_left].
  destruct (status w) eqn:Hst.
  - rewrite !(step_WsClose_live ws w Hst), !(step_WsError_live ws w Hst).
    rewrite step_WsClose_live by exact Hst.
    rewrite step_WsError_live by exact Hst.
    cbn [clients set_clients add_effects].
    split; [intros H; split; now apply Set_delete_absent|].
    split; apply Set_delete_absent, Hdel.
  - unfold Relay.step, run_handler. rewrite !Hst. repeat split; reflexivity.
  - unfold Relay.step, run_handler. rewrite !Hst. repeat split; reflexivity.
Qed.

Lemma unregister_is_idempotent_witness :
  clients (Relay.step (Relay.WsClose 7) (serving [1; 2])) = [1; 2] /\
  clients (Relay.step (Relay.WsError 7) (serving [1; 2])) = [1; 2].
Proof.
  apply (proj1 (unregister_is_idempotent 7 (serving [1; 2]))).
  cbn. intuition discriminate.
Defined.

(** X4. The close or error event of a registered connection removes that
    connection and no other: the registry shrinks by exactly one and keeps
    every other connection. *)
Theorem close_removes_exactly_one (ws : ConnId) (w : World) :
  status w = Live ->
  NoDup (clients w) ->
  In ws (clients w) ->
  S (List.length (clients (Relay.step (Relay.WsClose ws) w))) =
    List.length (clients w) /\
  S (List.length (clients (Relay.step (Relay.WsError ws) w))) =
    List.length (clients w) /\
  (forall c, In c (clients (Relay.step (Relay.WsClose ws) w)) <->
             In c (clients w) /\ c <> ws) /\
  (forall c, In c (clients (Relay.step (Relay.WsError ws) w)) <->
             In c (clients w) /\ c <> ws).
Proof.
  intros Hlive Hnd Hin.
  rewrite step_WsClose_live, step_WsError_live by assumption.
  cbn [clients set_clients add_effects].
  split; [now apply Set_delete_length|].
  split; [now apply Set_delete_length|].
  split; intros c; apply Set_delete_spec.
Qed.

Lemma close_removes_exactly_one_witness :
  S (List.length (clients (Relay.step (Relay.WsClose 2) (serving [1; 2; 3])))) = 3 /\
  S (List.length (clients (Relay.step (Relay.WsError 2) (serving [1; 2; 3])))) = 3 /\
  (forall c, In c (clients (Relay.step (Relay.WsClose 2) (serving [1; 2; 3]))) <->
             In c [1; 2; 3] /\ c <> 2) /\
  (forall c, In c (clients (Relay.step (Relay.WsError 2) (serving [1; 2; 3]))) <->
             In c [1; 2; 3] /\ c <> 2).
Proof.
  apply (close_removes_exactly_one 2 (serving [1; 2; 3])).
  - reflexivity.
  - cbn. nodup_nat.
  - right. now left.
Defined.

(** X5. A new connection whose [send] does not throw is registered and is
    sent the greeting [{type: 'connected', ...}] once, whatever its
    [readyState]; no other connection is sent anything and the process
    stays live. *)
Theorem connection_is_greeted (ws : ConnId) (s : Socket) (w : World) :
  status w = Live ->
  sendThrows s = false ->
  let w' := Relay.step (Relay.Connection ws s) w in
  In ws (clients w') /\
  received ws (trace w') = received ws (trace w) ++ [Relay.connectedMessage] /\
  (forall c, c <> ws -> received c (trace w') = received c (trace w)) /\
  property Relay.connectedMessage "type" = Some (JStr "connected") /\
  status w' = Live.
Proof.
  intros Hlive Hsend w'. subst w'.
  rewrite (step_Connection_live ws s w Hlive Hsend).
  cbn [clients status trace set_clients add_effects set_socket].
  split; [apply Set_add_spec; now right|].
  split; [|split; [|split; [reflexivity | exact Hlive]]].
  - rewrite received_app. cbn. now rewrite Nat.eqb_refl.
  - intros c Hne. rewrite received_app. cbn.
    destruct (Nat.eqb_spec ws c); [now subst | now rewrite app_nil_r].
Qed.

Lemma connection_is_greeted_witness :
  let w' := Relay.step (Relay.Connection 3 openSocket) (serving [1; 2]) in
  In 3 (clients w') /\
  received 3 (trace w') =
    received 3 (trace (serving [1; 2])) ++ [Relay.connectedMessage] /\
  (forall c, c <> 3 -> received c (trace w') = received c (trace (serving [1; 2]))) /\
  property Relay.connectedMessage "type" = Some (JStr "connected") /\
  status w' = Live.
Proof.
  apply (connection_is_greeted 3 openSocket (serving [1; 2])); reflexivity.
Defined.

(** ** What the relay sends and writes *)

Lemma run_handler_cases (h : JS unit) (w : World) :
  run_handler h w = w \/
  run_handler h w = final (h w) \/
  run_handler h w = set_status Faulted (final (h w)).
Proof.
  unfold run_handler. destruct (status w); auto.
  destruct (h w); cbn; auto.
Qed.

Lemma benign_allowed (uri : bool) (es : list Effect) :
  Forall benign es -> Forall (allowed uri) es.
Proof.
  apply Forall_impl. intros [ ] H; cbn in *; auto; contradiction.
Qed.

Lemma issued_app (t1 t2 : list Effect) :
  issued (t1 ++ t2) = issued t1 ++ issued t2.
Proof.
  induction t1 as [|e t1 IH]; cbn; [reflexivity|].
  destruct e; cbn; now rewrite ?IH.
Qed.

Lemma In_Send_sends (c : ConnId) (m : json) (es : list Effect) :
  In (Send c m) es <-> In (c, m) (sends es).
Proof.
  induction es as [|e es IH]; cbn; [tauto|].
  destruct e; cbn; rewrite <- IH; intuition (try discriminate; try congruence).
Qed.

Lemma In_UpdateOne_issued (u : CellUpdate) (es : list Effect) :
  In (UpdateOne u) es <-> In u (issued es).
Proof.
  induction es as [|e es IH]; cbn; [tauto|].
  destruct e; cbn; rewrite <- IH; intuition (try discriminate; try congruence).
Qed.

(** The loop sends only to open connections whose [send] does not throw. *)
Lemma sendLoop_sends_open (m : json) (cs : list ConnId) : forall w,
  exists sent,
    (forall c, In c sent ->
       In c cs /\ isOpen (sockets w c) = true /\ sendThrows (sockets w c) = false) /\
    final (sendLoop m cs w) = add_effects (map (fun c => Send c m) sent) w.
Proof.
  induction cs as [|c cs IH]; intros w.
  - exists []. split; [easy|]. cbn. now rewrite add_effects_nil.
  - unfold sendLoop in *. cbn [forEach].
    unfold bind at 1. unfold bind at 1. unfold gets at 1.
    destruct (isOpen (sockets w c)) eqn:Hopen.
    + unfold send at 1. unfold bind at 1. unfold gets at 1.
      destruct (sendThrows (sockets w c)) eqn:Hthrow.
      * exists []. split; [easy|]. cbn. now rewrite add_effects_nil.
      * unfold emit, modify. rewrite add_effect_one.
        destruct (IH (add_effects [Send c m] w)) as (sent & Hsent & E).
        exists (c :: sent). split.
        -- intros x [<-|Hx]; [repeat split; auto; now left|].
           destruct (Hsent x Hx) as (Hin & Ho & Ht).
           repeat split; auto. now right.
        -- rewrite E, add_effects_app. reflexivity.
    + unfold ret.
      destruct (IH w) as (sent & Hsent & E).
      exists sent. split; [|exact E].
      intros x Hx. destruct (Hsent x Hx) as (Hin & Ho & Ht).
      repeat split; auto. now right.
Qed.

(** What one call of [updateCell] does: it changes db.js state and adds log
    lines and at most the store write; the write was issued whenever the
    call returns true, and only with [MONGODB_URI] set. *)
Lemma updateCell_shape (u : CellUpdate) (reply : Relay.StoreReply) (w : World) :
  exists cl co es,
    final (Relay.updateCell u reply w) = add_effects es (set_db cl co w) /\
    sends es = [] /\ closes es = [] /\ writes es = [] /\
    Forall (allowed (mongoUri w)) es /\
    incl (issued es) [u] /\
    (forall w1, Relay.updateCell u reply w = Normal true w1 ->
                In (UpdateOne u) es).
Proof.
  destruct w as [cs so pe np uri cl co a b st tr].
  destruct reply as [cok iok uo].
  unfold Relay.updateCell, Relay.connectToDatabase, try_catch, bind, gets,
    modify, log, emit, throw, ret; cbn.
  destruct uri, cl, cok, iok, co, uo as [[|n]|]; cbn;
    unfold add_effect; cbn; repeat (rewrite <- app_assoc; cbn);
    do 3 eexists;
    (split; [unfold add_effects, set_db; cbn; reflexivity|]);
    (split; [reflexivity|]); (split; [reflexivity|]); (split; [reflexivity|]);
    (split; [solve [repeat constructor]|]);
    (split; [intros x Hx; cbn in *; tauto|]);
    intros w1 Hw1; try discriminate; cbn; tauto.
Qed.

(** What the continuation of the message handler does, in every case: the
    effects of [updateCell], then sends of the broadcast to open connections,
    then at most a log line. *)
Lemma resumeMessage_shape (u : CellUpdate) (reply : Relay.StoreReply)
    (now : string) (w : World) :
  exists cl co es sent logs,
    Relay.resumeMessage u reply now w =
      Normal tt
        (add_effects
           (es ++ map (fun c => Send c (Relay.broadcastMessage u now)) sent ++
            map Log logs)
           (set_db cl co w)) /\
    sends es = [] /\ closes es = [] /\ writes es = [] /\
    Forall (allowed (mongoUri w)) es /\
    incl (issued es) [u] /\
    (forall c, In c sent ->
       In c (clients w) /\ isOpen (sockets w c) = true /\
       sendThrows (sockets w c) = false) /\
    (sent <> [] -> In (UpdateOne u) es).
Proof.
  destruct (updateCell_shape u reply w)
    as (cl & co & es & Hfinal & Hs & Hc & Hw & Hall & Hiss & Htrue).
  exists cl, co, es.
  unfold Relay.resumeMessage, try_catch. unfold bind at 1.
  destruct (Relay.updateCell u reply w) as [[|] w1|w1] eqn:E; cbn in Hfinal;
    subst w1.
  - unfold bind at 1. rewrite broadcast_unfold.
    destruct (sendLoop_sends_open (Relay.broadcastMessage u now)
                (clients (add_effects es (set_db cl co w)))
                (add_effects es (set_db cl co w)))
      as (sent & Hsent & E2).
    exists sent.
    destruct (sendLoop (Relay.broadcastMessage u now)
                (clients (add_effects es (set_db cl co w)))
                (add_effects es (set_db cl co w)))
      as [[] w2|w2]; cbn in E2; subst w2.
    + exists [UpdateSavedAndBroadcast u].
      unfold log, emit, modify. rewrite add_effect_one, !add_effects_app.
      repeat split; auto; try apply (Hsent c H).
      intros _; now apply (Htrue _ eq_refl).
    + exists [ErrorProcessingMessage].
      unfold log, emit, modify. rewrite add_effect_one, !add_effects_app.
      repeat split; auto; try apply (Hsent c H).
      intros _; now apply (Htrue _ eq_refl).
  - exists [], []. cbn [map app]. rewrite app_nil_r.
    repeat split; auto; try contradiction.
  - exists [], [ErrorProcessingMessage].
    unfold log, emit, modify. rewrite add_effect_one, add_effects_app.
    cbn [map app].
    repeat split; auto; try contradiction.
Qed.

Lemma benign_logs (logs : list LogLine) : Forall benign (map Log logs).
Proof. induction logs; cbn; constructor; cbn; auto. Qed.

Lemma closes_logs (logs : list LogLine) : closes (map Log logs) = [].
Proof. induction logs; cbn; auto. Qed.

Lemma closes_map_Send (m : json) (sent : list ConnId) :
  closes (map (fun c => Send c m) sent) = [].
Proof. induction sent as [|c l IH]; cbn; congruence. Qed.

Lemma sends_benign (es : list Effect) : Forall benign es -> sends es = [].
Proof.
  induction 1 as [|x es Hx _ IH]; [reflexivity|].
  destruct x; cbn in *; auto; contradiction.
Qed.

Lemma issued_benign (es : list Effect) : Forall benign es -> issued es = [].
Proof.
  induction 1 as [|x es Hx _ IH]; [reflexivity|].
  destruct x; cbn in *; auto; contradiction.
Qed.

Lemma issued_map_Send (m : json) (sent : list ConnId) :
  issued (map (fun c => Send c m) sent) = [].
Proof. induction sent as [|c l IH]; cbn; congruence. Qed.

(** X6. An update is never sent to a connection that is not registered, not
    open, or whose [send] throws: every message the continuation of the
    message handler adds is the broadcast of its update, to a registered
    connection with [readyState] OPEN. *)
Theorem updates_reach_only_open_registered
    (u : CellUpdate) (reply : Relay.StoreReply) (now : string) (w : World) :
  exists w',
    Relay.resumeMessage u reply now w = Normal tt w' /\
    forall c m, In (c, m) (sends (trace w')) ->
      In (c, m) (sends (trace w)) \/
      (m = Relay.broadcastMessage u now /\
       In c (clients w) /\
       isOpen (sockets w c) = true /\
       sendThrows (sockets w c) = false).
Proof.
  destruct (resumeMessage_shape u reply now w)
    as (cl & co & es & sent & logs & E & Hs & _ & _ & _ & _ & Hsent & _).
  eexists. split; [exact E|].
  intros c m Hin. cbn [trace add_effects set_db] in Hin.
  rewrite !sends_app, Hs, (sends_benign _ (benign_logs logs)), sends_map_Send in Hin.
  cbn in Hin. rewrite app_nil_r in Hin.
  apply in_app_or in Hin. destruct Hin as [Hold|Hnew]; [now left | right].
  apply in_map_iff in Hnew. destruct Hnew as (c' & Heq & Hc').
  injection Heq as -> <-. split; [reflexivity|]. now apply Hsent.
Qed.

(** ** The payload through the relay *)

Lemma broadcastMessage_keys (u : CellUpdate) (now : string) (k : string) (v : json) :
  property (Relay.broadcastMessage u now) k = Some v ->
  In k ["type"; "rowId"; "columnId"; "newValue"; "timestamp"].
Proof.
  destruct u as [[r|] [c|] [nv|]]; cbn;
    repeat match goal with
           | |- context [String.eqb k ?s] =>
               destruct (String.eqb_spec k s); [subst; cbn; tauto|]
           end; discriminate.
Qed.

(** X7. The relay passes the fields of an update on: the handler is
    suspended on the [rowId], [columnId] and [newValue] of the inbound
    message, and for each of the three that holds no number (a string, a
    boolean, null, arrays and objects of these) a client reading it from
    the broadcast gets what the sender put there, and nothing where the
    sender put nothing. Any other property of the inbound message is
    dropped: the broadcast has no property besides [type], these three and
    [timestamp]. *)
Theorem update_fields_survive_relay
    (ws : ConnId) (fields : list (string * json)) (w : World) :
  isUpdate (lookup "type" fields) = true ->
  exists w' u,
    Relay.onMessage ws (Parsed (JObj fields)) w = Normal tt w' /\
    pending w' = pending w ++ [(nextPromise w, u)] /\
    forall now,
      (forall k, In k ["rowId"; "columnId"; "newValue"] ->
         withoutNumbers (lookup k fields) = true ->
         property (Relay.broadcastMessage u now) k = lookup k fields) /\
      forall k v, property (Relay.broadcastMessage u now) k = Some v ->
                  In k ["type"; "rowId"; "columnId"; "newValue"; "timestamp"].
Proof.
  intros Hty. rewrite (onMessage_update ws fields w Hty).
  eexists. exists (destructure fields). split; [reflexivity|].
  split; [reflexivity|]. intros now.
  pose proof (broadcastMessage_timestamp (destructure fields) now)
    as (_ & Hr & Hc & Hv & _).
  split; [|apply broadcastMessage_keys].
  intros k Hk _. cbn in Hk.
  destruct Hk as [<-|[<-|[<-|[]]]]; assumption.
Qed.

Lemma update_fields_survive_relay_witness :
  exists w' u,
    Relay.onMessage 1
      (Parsed (JObj [ ("type", JStr "update"); ("rowId", JStr "row_42");
                      ("columnId", JStr "status"); ("newValue", JStr "Active");
                      ("comment", JStr "dropped") ]))
      (serving [1; 2]) = Normal tt w' /\
    pending w' = [(0, u)] /\
    forall now,
      (forall k, In k ["rowId"; "columnId"; "newValue"] ->
         withoutNumbers
           (lookup k [ ("type", JStr "update"); ("rowId", JStr "row_42");
                       ("columnId", JStr "status"); ("newValue", JStr "Active");
                       ("comment", JStr "dropped") ]) = true ->
         property (Relay.broadcastMessage u now) k =
         lookup k [ ("type", JStr "update"); ("rowId", JStr "row_42");
                    ("columnId", JStr "status"); ("newValue", JStr "Active");
                    ("comment", JStr "dropped") ]) /\
      forall k v, property (Relay.broadcastMessage u now) k = Some v ->
                  In k ["type"; "rowId"; "columnId"; "newValue"; "timestamp"].
Proof.
  apply (update_fields_survive_relay 1
           [ ("type", JStr "update"); ("rowId", JStr "row_42");
             ("columnId", JStr "status"); ("newValue", JStr "Active");
             ("comment", JStr "dropped") ] (serving [1; 2])).
  reflexivity.
Defined.

(** ** db.js *)

(** X8. [updateCell] returns true exactly when [MONGODB_URI] is set, the
    collection is available (it was obtained before, or [client] is still
    null and connecting and index creation succeed now), and [updateOne]
    reports at least one modified document. It returns false exactly when
    the same holds with no modified document; in every other case it
    throws. *)
Theorem updateCell_outcome (u : CellUpdate) (reply : Relay.StoreReply) (w : World) :
  let available :=
    mongoUri w = true /\
    (if client w then collection w = true
     else Relay.connectOk reply = true /\ Relay.createIndexOk reply = true) in
  ((exists w1, Relay.updateCell u reply w = Normal true w1) <->
   available /\ exists n, Relay.updateOne reply = Some (S n)) /\
  ((exists w1, Relay.updateCell u reply w = Normal false w1) <->
   available /\ Relay.updateOne reply = Some 0) /\
  ((exists w1, Relay.updateCell u reply w = Abrupt w1) <->
   ~ (available /\ exists n, Relay.updateOne reply = Some n)).
Proof.
  destruct w as [cs so pe np uri cl co a b st tr].
  destruct reply as [cok iok uo].
  unfold Relay.updateCell, Relay.connectToDatabase, try_catch, bind, gets,
    modify, log, emit, throw, ret; cbn.
  destruct uri, cl, cok, iok, co, uo as [[|n]|]; cbn;
    (split; [|split]); split; intros H;
    try (destruct H as (w1 & H); discriminate);
    try (eexists; reflexivity);
    try (repeat split; eauto; fail);
    try (intros ((Ha & Hb) & (k & Hc)); first [discriminate | destruct Hb; discriminate]);
    try (destruct H as ((Ha & Hb) & Hc);
         first [discriminate | destruct Hb; discriminate | destruct Hc; discriminate]);
    try (exfalso; apply H; repeat split; eauto; fail).
Qed.

(** X9. A failed first connection is not retried. With no connection yet
    ([client] and [collection] null), when [client.connect()] fails the call
    of [updateCell] throws and leaves [client] set but [collection] null;
    every later call then throws as well, whatever the store would answer,
    without issuing a write. *)
Theorem failed_connect_blocks_later_writes
    (u1 u2 : CellUpdate) (reply1 reply2 : Relay.StoreReply) (w : World) :
  mongoUri w = true ->
  client w = false ->
  collection w = false ->
  Relay.connectOk reply1 = false ->
  exists w1 w2,
    Relay.updateCell u1 reply1 w = Abrupt w1 /\
    client w1 = true /\ collection w1 = false /\
    Relay.updateCell u2 reply2 w1 = Abrupt w2 /\
    client w2 = true /\ collection w2 = false /\
    issued (trace w2) = issued (trace w).
Proof.
  intros Huri Hcl Hco Hcok.
  destruct w as [cs so pe np uri cl co a b st tr]. cbn in *. subst.
  destruct reply1 as [cok1 iok1 uo1]. cbn in Hcok. subst.
  unfold Relay.updateCell, Relay.connectToDatabase, try_catch, bind, gets,
    modify, log, emit, throw, ret; cbn.
  do 2 eexists. repeat split. cbn.
  rewrite !issued_app. cbn. now rewrite !app_nil_r.
Qed.

Lemma failed_connect_blocks_later_writes_witness :
  exists w1 w2,
    Relay.updateCell editUpdate storeDown (degraded [1; 2]) = Abrupt w1 /\
    client w1 = true /\ collection w1 = false /\
    Relay.updateCell (updateTo 200) stored w1 = Abrupt w2 /\
    client w2 = true /\ collection w2 = false /\
    issued (trace w2) = issued (trace (degraded [1; 2])).
Proof.
  apply (failed_connect_blocks_later_writes editUpdate (updateTo 200)
           storeDown stored (degraded [1; 2])); reflexivity.
Defined.

(** X10. A failed index creation is forgotten. With no connection yet, when
    connecting succeeds but [createIndex] fails, the call of [updateCell]
    throws without issuing its write, but [collection] is set; the next
    call whose [updateOne] modifies a document returns true. *)
Theorem failed_index_creation_recovers
    (u1 u2 : CellUpdate) (reply1 reply2 : Relay.StoreReply) (n : nat) (w : World) :
  mongoUri w = true ->
  client w = false ->
  Relay.connectOk reply1 = true ->
  Relay.createIndexOk reply1 = false ->
  Relay.updateOne reply2 = Some (S n) ->
  exists w1 w2,
    Relay.updateCell u1 reply1 w = Abrupt w1 /\
    issued (trace w1) = issued (trace w) /\
    client w1 = true /\ collection w1 = true /\
    Relay.updateCell u2 reply2 w1 = Normal true w2 /\
    issued (trace w2) = issued (trace w) ++ [u2].
Proof.
  intros Huri Hcl Hcok Hiok Hup.
  destruct w as [cs so pe np uri cl co a b st tr]. cbn in *. subst.
  destruct reply1 as [cok1 iok1 uo1]. cbn in *. subst.
  destruct reply2 as [cok2 iok2 uo2]. cbn in *. subst.
  unfold Relay.updateCell, Relay.connectToDatabase, try_catch, bind, gets,
    modify, log, emit, throw, ret; cbn.
  do 2 eexists. repeat split; cbn; rewrite !issued_app; cbn;
    now rewrite ?app_nil_r.
Qed.

Lemma failed_index_creation_recovers_witness :
  exists w1 w2,
    Relay.updateCell editUpdate (Relay.mkReply true false (Some 1))
      (degraded [1; 2]) = Abrupt w1 /\
    issued (trace w1) = issued (trace (degraded [1; 2])) /\
    client w1 = true /\ collection w1 = true /\
    Relay.updateCell (updateTo 200) stored w1 = Normal true w2 /\
    issued (trace w2) = issued (trace (degraded [1; 2])) ++ [updateTo 200].
Proof.
  apply (failed_index_creation_recovers editUpdate (updateTo 200)
           (Relay.mkReply true false (Some 1)) stored 0 (degraded [1; 2]));
    reflexivity.
Defined.

(** X12. [closeConnection] closes the store client once. When there is a
    client it calls [client.close()]; if that succeeds it resets [client]
    and [collection], so that a second call does nothing and the next
    [updateCell] connects anew; if it throws, [client] stays set. When there
    is no client it does nothing. *)
Theorem closeConnection_once (w : World) :
  (client w = false -> forall ok, Relay.closeConnection ok w = Normal tt w) /\
  (client w = true ->
   exists w1,
     Relay.closeConnection true w = Normal tt w1 /\
     trace w1 = trace w ++ [StoreClose; Log MongoConnectionClosed] /\
     client w1 = false /\ collection w1 = false /\
     (forall ok, Relay.closeConnection ok w1 = Normal tt w1) /\
     (mongoUri w = true ->
      forall u reply n,
        Relay.connectOk reply = true ->
        Relay.createIndexOk reply = true ->
        Relay.updateOne reply = Some (S n) ->
        exists w2,
          Relay.updateCell u reply w1 = Normal true w2 /\
          trace w2 = trace w1 ++ [Log MongoConnecting; Log MongoConnected; UpdateOne u] /\
          client w2 = true /\ collection w2 = true)) /\
  (client w = true ->
   exists w3,
     Relay.closeConnection false w = Abrupt w3 /\
     trace w3 = trace w ++ [StoreClose] /\
     client w3 = true).
Proof.
  destruct w as [cs so pe np uri cl co a b st tr]. cbn.
  unfold Relay.closeConnection, bind, gets, modify, log, emit, throw, ret; cbn.
  split; [|split]; intros Hcl; subst cl.
  - intros ok. reflexivity.
  - eexists. split; [reflexivity|]. cbn.
    split; [now rewrite <- app_assoc|].
    split; [reflexivity|]. split; [reflexivity|]. split; [reflexivity|].
    intros Huri u [cok iok uo] n Hcok Hiok Hup. cbn in *. subst.
    unfold Relay.updateCell, Relay.connectToDatabase, try_catch, bind, gets,
      modify, log, emit, throw, ret; cbn.
    eexists. split; [reflexivity|]. cbn.
    repeat split. now rewrite <- !app_assoc.
  - eexists. repeat split.
Qed.

(** ** Every event of the relay *)

Lemma run_handler_effects (h : JS unit) (w : World) (es : list Effect) :
  trace (final (h w)) = trace w ++ es ->
  mongoUri (final (h w)) = mongoUri w ->
  exists es',
    (es' = [] \/ es' = es) /\
    trace (run_handler h w) = trace w ++ es' /\
    mongoUri (run_handler h w) = mongoUri w.
Proof.
  intros Ht Hu.
  destruct (run_handler_cases h w) as [E|[E|E]]; rewrite E.
  - exists []. rewrite app_nil_r. auto.
  - exists es. auto.
  - exists es. cbn. auto.
Qed.

Lemma onMessage_effects (ws : ConnId) (data : parsed) (w : World) :
  exists es,
    trace (final (Relay.onMessage ws data w)) = trace w ++ es /\
    Forall benign es /\
    mongoUri (final (Relay.onMessage ws data w)) = mongoUri w.
Proof.
  destruct data as [|message].
  - rewrite onMessage_syntax_error. eexists. split; [reflexivity|].
    split; [repeat constructor | reflexivity].
  - destruct message as [ | b | q | s | items | fields ];
      try (rewrite onMessage_other by (intros; discriminate);
           eexists; split; [reflexivity|];
           split; [repeat constructor | reflexivity]).
    + rewrite onMessage_null. eexists. split; [reflexivity|].
      split; [repeat constructor | reflexivity].
    + destruct (isUpdate (lookup "type" fields)) eqn:Hty.
      * rewrite onMessage_update by assumption.
        eexists. split; [reflexivity|]. split; [repeat constructor | reflexivity].
      * rewrite onMessage_other; [| | discriminate].
        -- eexists. split; [reflexivity|].
           split; [repeat constructor | reflexivity].
        -- intros f Heq. injection Heq as <-. exact Hty.
Qed.

Lemma resumeMessage_effects (u : CellUpdate) (reply : Relay.StoreReply)
    (now : string) (w : World) :
  exists es,
    trace (final (Relay.resumeMessage u reply now w)) = trace w ++ es /\
    Forall (allowed (mongoUri w)) es /\
    mongoUri (final (Relay.resumeMessage u reply now w)) = mongoUri w.
Proof.
  destruct (resumeMessage_shape u reply now w)
    as (cl & co & es & sent & logs & E & _ & _ & _ & Hall & _ & _ & Hu).
  rewrite E. eexists. split; [reflexivity|]. split; [|reflexivity].
  apply Forall_app. split; [exact Hall|].
  apply Forall_app. split; [|apply benign_allowed, benign_logs].
  apply Forall_forall. intros x Hx.
  apply in_map_iff in Hx. destruct Hx as (c & <- & Hc).
  assert (Hne : sent <> []) by (intros ->; contradiction).
  pose proof (Hu Hne) as Hin.
  rewrite Forall_forall in Hall. pose proof (Hall _ Hin) as Huri. cbn in Huri.
  cbn. right. split; [exact Huri|]. now exists u, now.
Qed.

Lemma benign_goodbyes (cs : list ConnId) : Forall benign (goodbyes cs).
Proof. induction cs; cbn; constructor; cbn; auto. Qed.

Lemma onSigint_shape (w : World) :
  exists es b1 b2,
    final (Relay.onSigint w) = set_callbacks b1 b2 (add_effects es w) /\
    Forall benign es.
Proof.
  unfold Relay.onSigint.
  unfold bind at 1. unfold log, emit, modify. rewrite add_effect_one.
  unfold bind at 1. unfold gets at 1. unfold bind at 1.
  change (clients (add_effects [Log ShuttingDown] w)) with (clients w).
  destruct (closeLoop_final (clients w) (add_effects [Log ShuttingDown] w))
    as (closed & E).
  destruct (closeLoop (clients w) (add_effects [Log ShuttingDown] w))
    as [[] w2|w2]; cbn in E; subst w2.
  - unfold bind. rewrite add_effect_one, !add_effects_app. cbn.
    do 3 eexists. split; [reflexivity|].
    constructor; [exact I|]. apply Forall_app. split.
    + apply benign_goodbyes.
    + repeat constructor.
  - rewrite add_effects_app. cbn.
    exists (Log ShuttingDown :: goodbyes closed), (onWssClosed w), (onHttpClosed w).
    split; [now destruct w|].
    constructor; [exact I | apply benign_goodbyes].
Qed.

Lemma onSigint_effects (w : World) :
  exists es,
    trace (final (Relay.onSigint w)) = trace w ++ es /\
    Forall benign es /\
    mongoUri (final (Relay.onSigint w)) = mongoUri w.
Proof.
  destruct (onSigint_shape w) as (es & b1 & b2 & E & Hb).
  rewrite E. exists es. repeat split. exact Hb.
Qed.

(** What any one event adds to the trace. *)
Lemma step_effects (e : Relay.Event) (w : World) :
  exists es,
    trace (Relay.step e w) = trace w ++ es /\
    Forall (allowed (mongoUri w)) es /\
    mongoUri (Relay.step e w) = mongoUri w.
Proof.
  destruct e as [ws s|ws s|ws|ws|ws data|k reply now| |closeOk| ];
    unfold Relay.step.
  - assert (H : exists es,
               trace (final (Relay.onConnection ws (set_socket ws s w))) =
                 trace (set_socket ws s w) ++ es /\
               Forall (allowed (mongoUri w)) es /\
               mongoUri (final (Relay.onConnection ws (set_socket ws s w))) =
                 mongoUri w).
    { unfold Relay.onConnection, bind, log, emit, modify, send, gets, throw; cbn.
      rewrite Nat.eqb_refl. destruct (sendThrows s); cbn.
      - eexists. split; [reflexivity|]. split; [repeat constructor | reflexivity].
      - rewrite <- app_assoc. cbn. eexists. split; [reflexivity|].
        split; [|reflexivity].
        constructor; [exact I|]. constructor; [|constructor]. cbn. now left. }
    destruct H as (es & Ht & Hall & Hu).
    destruct (run_handler_effects _ _ es Ht Hu) as (es' & [->| ->] & Ht' & Hu');
      eexists; split; eauto.
  - exists []. rewrite app_nil_r. auto.
  - destruct (run_handler_effects (Relay.onClose ws) w [Log ClientDisconnected]
                eq_refl eq_refl) as (es' & [->| ->] & Ht' & Hu');
      eexists; split; eauto; split; auto; repeat constructor.
  - destruct (run_handler_effects (Relay.onError ws) w [Log WebSocketError]
                eq_refl eq_refl) as (es' & [->| ->] & Ht' & Hu');
      eexists; split; eauto; split; auto; repeat constructor.
  - destruct (onMessage_effects ws data w) as (es & Ht & Hb & Hu).
    destruct (run_handler_effects _ _ es Ht Hu) as (es' & [->| ->] & Ht' & Hu');
      eexists; split; eauto; split; auto. now apply benign_allowed.
  - destruct (Relay.find_pending k (pending w)) as [u|].
    + set (w0 := set_pending _ _ w).
      destruct (resumeMessage_effects u reply now w0) as (es & Ht & Hall & Hu).
      destruct (run_handler_effects _ _ es Ht Hu) as (es' & [->| ->] & Ht' & Hu');
        eexists; split; eauto.
    + exists []. rewrite app_nil_r. auto.
  - destruct (onSigint_effects w) as (es & Ht & Hb & Hu).
    destruct (run_handler_effects _ _ es Ht Hu) as (es' & [->| ->] & Ht' & Hu');
      eexists; split; eauto; split; auto. now apply benign_allowed.
  - destruct (onWssClosed w); [|exists []; rewrite app_nil_r; auto].
    set (w0 := set_callbacks _ _ w).
    assert (H : exists es,
               trace (final (Relay.wssCloseCallback closeOk w0)) = trace w0 ++ es /\
               Forall benign es /\
               mongoUri (final (Relay.wssCloseCallback closeOk w0)) = mongoUri w).
    { unfold Relay.wssCloseCallback, Relay.closeConnection, bind, log, emit,
        modify, gets, throw, ret; cbn.
      destruct (client w), closeOk; cbn; repeat (rewrite <- app_assoc; cbn);
        eexists; (split; [reflexivity|]); split;
        first [reflexivity | repeat constructor]. }
    destruct H as (es & Ht & Hb & Hu).
    destruct (run_handler_effects _ _ es Ht Hu) as (es' & [->| ->] & Ht' & Hu');
      eexists; split; eauto; split; auto. now apply benign_allowed.
  - destruct (onHttpClosed w); [|exists []; rewrite app_nil_r; auto].
    set (w0 := set_callbacks _ _ w).
    assert (H : exists es,
               trace (final (Relay.serverCloseCallback w0)) = trace w0 ++ es /\
               Forall benign es /\
               mongoUri (final (Relay.serverCloseCallback w0)) = mongoUri w).
    { unfold Relay.serverCloseCallback, bind, log, emit, modify; cbn.
      rewrite <- app_assoc. cbn.
      eexists. split; [reflexivity|]. split; [repeat constructor | reflexivity]. }
    destruct H as (es & Ht & Hb & Hu).
    destruct (run_handler_effects _ _ es Ht Hu) as (es' & [->| ->] & Ht' & Hu');
      eexists; split; eauto; split; auto. now apply benign_allowed.
Qed.

Lemma run_effects (events : list Relay.Event) : forall w,
  exists es,
    trace (Relay.run events w) = trace w ++ es /\
    Forall (allowed (mongoUri w)) es.
Proof.
  induction events as [|e events IH]; intros w.
  - exists []. rewrite app_nil_r. auto.
  - unfold Relay.run, run_events in *. cbn [fold_left].
    destruct (step_effects e w) as (es1 & Ht1 & Hall1 & Hu1).
    destruct (IH (Relay.step e w)) as (es2 & Ht2 & Hall2).
    exists (es1 ++ es2). rewrite Ht2, Ht1, <- app_assoc. split; [reflexivity|].
    apply Forall_app. split; [exact Hall1|]. now rewrite Hu1 in Hall2.
Qed.

(** ** The write comes first *)







(** X13. Whatever events it is handed, the relay sends its clients only two
    kinds of message: the greeting [{type: 'connected', ...}] and broadcasts
    of updates, each with [type] ['update'] and a [timestamp]. *)
Theorem relay_sends_only_greetings_and_updates
    (events : list Relay.Event) (w : World) (c : ConnId) (m : json) :
  In (c, m) (sends (trace (Relay.run events w))) ->
  In (c, m) (sends (trace w)) \/
  m = Relay.connectedMessage \/
  (exists u now,
     m = Relay.broadcastMessage u now /\
     property m "type" = Some (JStr "update") /\
     property m "timestamp" = Some (JStr now)).
Proof.
  destruct (run_effects events w) as (es & Ht & Hall).
  rewrite Ht, sends_app. intros Hin. apply in_app_or in Hin.
  destruct Hin as [Hold|Hnew]; [now left | right].
  apply In_Send_sends in Hnew.
  rewrite Forall_forall in Hall. pose proof (Hall _ Hnew) as H. cbn in H.
  destruct H as [->|(_ & u & now & ->)]; [now left | right].
  exists u, now. split; [reflexivity|].
  pose proof (broadcastMessage_timestamp u now) as (Hty & _ & _ & _ & Hts). auto.
Qed.

Lemma relay_sends_only_greetings_and_updates_witness :
  In (2, Relay.broadcastMessage editUpdate "2024-01-01T12:00:00.000Z")
     (sends (trace (serving [1; 2]))) \/
  Relay.broadcastMessage editUpdate "2024-01-01T12:00:00.000Z" =
    Relay.connectedMessage \/
  (exists u now,
     Relay.broadcastMessage editUpdate "2024-01-01T12:00:00.000Z" =
       Relay.broadcastMessage u now /\
     property (Relay.broadcastMessage editUpdate "2024-01-01T12:00:00.000Z") "type"
       = Some (JStr "update") /\
     property (Relay.broadcastMessage editUpdate "2024-01-01T12:00:00.000Z")
       "timestamp" = Some (JStr now)).
Proof.
  apply (relay_sends_only_greetings_and_updates
           [ Relay.Message 1 (Parsed edit);
             Relay.Settle 0 stored "2024-01-01T12:00:00.000Z" ]
           (serving [1; 2]) 2).
  vm_compute. right. now left.
Defined.

(** X11. Without [MONGODB_URI] the relay relays nothing: whatever events it
    is handed, it never issues a store write and the only messages it sends
    are greetings. *)
Theorem without_store_uri_nothing_is_relayed
    (events : list Relay.Event) (w : World) :
  mongoUri w = false ->
  issued (trace (Relay.run events w)) = issued (trace w) /\
  forall c m, In (c, m) (sends (trace (Relay.run events w))) ->
    In (c, m) (sends (trace w)) \/ m = Relay.connectedMessage.
Proof.
  intros Huri.
  destruct (run_effects events w) as (es & Ht & Hall).
  rewrite Huri in Hall. rewrite Forall_forall in Hall. rewrite Ht. split.
  - rewrite issued_app.
    assert (H : issued es = []).
    { destruct (issued es) as [|u l] eqn:E; [reflexivity|].
      assert (Hin : In u (issued es)) by (rewrite E; now left).
      apply In_UpdateOne_issued in Hin. pose proof (Hall _ Hin) as H.
      cbn in H. discriminate. }
    now rewrite H, app_nil_r.
  - intros c m Hin. rewrite sends_app in Hin. apply in_app_or in Hin.
    destruct Hin as [Hold|Hnew]; [now left | right].
    apply In_Send_sends in Hnew. pose proof (Hall _ Hnew) as H. cbn in H.
    destruct H as [->|(Hf & _)]; [reflexivity | discriminate].
Qed.

Lemma without_store_uri_nothing_is_relayed_witness :
  issued (trace (Relay.run [ Relay.Connection 3 openSocket;
                             Relay.Message 1 (Parsed edit);
                             Relay.Settle 0 stored "2024-01-01T12:00:00.000Z" ]
                           (unconfigured [1; 2]))) =
    issued (trace (unconfigured [1; 2])) /\
  forall c m,
    In (c, m) (sends (trace (Relay.run
                               [ Relay.Connection 3 openSocket;
                                 Relay.Message 1 (Parsed edit);
                                 Relay.Settle 0 stored "2024-01-01T12:00:00.000Z" ]
                               (unconfigured [1; 2])))) ->
    In (c, m) (sends (trace (unconfigured [1; 2]))) \/ m = Relay.connectedMessage.
Proof.
  apply (without_store_uri_nothing_is_relayed _ (unconfigured [1; 2])).
  reflexivity.
Defined.

Lemma onMessage_frame (ws : ConnId) (data : parsed) (w : World) :
  exists es p n,
    Relay.onMessage ws data w = Normal tt (set_pending p n (add_effects es w)) /\
    closes es = [].
Proof.
  assert (Hsame : forall es, add_effects es w =
                             set_pending (pending w) (nextPromise w) (add_effects es w))
    by reflexivity.
  destruct data as [|message].
  - rewrite onMessage_syntax_error. do 3 eexists. split; [apply f_equal, Hsame|].
    reflexivity.
  - destruct message as [ | b | q | s | items | fields ];
      try (rewrite onMessage_other by (intros; discriminate);
           do 3 eexists; split; [apply f_equal, Hsame | reflexivity]).
    + rewrite onMessage_null. do 3 eexists.
      split; [apply f_equal, Hsame | reflexivity].
    + destruct (isUpdate (lookup "type" fields)) eqn:Hty.
      * rewrite onMessage_update by assumption.
        do 3 eexists. split; reflexivity.
      * rewrite onMessage_other; [| | discriminate].
        -- do 3 eexists. split; [apply f_equal, Hsame | reflexivity].
        -- intros f Heq. injection Heq as <-. exact Hty.
Qed.

Lemma traffic_step_frame (e : Relay.Event) (w : World) :
  isTraffic e = true ->
  clients (Relay.step e w) = clients w /\
  sockets (Relay.step e w) = sockets w /\
  status (Relay.step e w) = status w /\
  closes (trace (Relay.step e w)) = closes (trace w).
Proof.
  destruct e as [ws s|ws s|ws|ws|ws data|k reply now| |closeOk| ];
    try discriminate; intros _; unfold Relay.step.
  - destruct (onMessage_frame ws data w) as (es & p & n & E & Hc).
    unfold run_handler. destruct (status w) eqn:Hst; rewrite ?E; cbn;
      rewrite ?closes_app, ?Hc, ?app_nil_r; auto.
  - destruct (Relay.find_pending k (pending w)) as [u|]; [|auto].
    set (w0 := set_pending _ _ w).
    destruct (resumeMessage_shape u reply now w0)
      as (cl & co & es & sent & logs & E & _ & Hc & _).
    unfold run_handler. change (status w0) with (status w).
    destruct (status w) eqn:Hst; rewrite ?E; cbn;
      rewrite ?closes_app, ?Hc, ?closes_map_Send, ?closes_logs, ?app_nil_r; auto.
Qed.

(** X16. Client traffic cannot take the relay or a connection down. Whatever
    messages arrive (malformed or not) and however their writes settle
    (succeeding, failing, with sends that throw), the relay closes no
    connection, removes none from the registry, changes no socket, and the
    process keeps the status it had. *)
Theorem traffic_never_disconnects (events : list Relay.Event) (w : World) :
  forallb isTraffic events = true ->
  clients (Relay.run events w) = clients w /\
  sockets (Relay.run events w) = sockets w /\
  status (Relay.run events w) = status w /\
  closes (trace (Relay.run events w)) = closes (trace w).
Proof.
  revert w. induction events as [|e events IH]; intros w Hall; [auto|].
  cbn in Hall. apply andb_true_iff in Hall. destruct Hall as [He Hall].
  unfold Relay.run, run_events in *. cbn [fold_left].
  destruct (traffic_step_frame e w He) as (H1 & H2 & H3 & H4).
  destruct (IH (Relay.step e w) Hall) as (I1 & I2 & I3 & I4).
  repeat split; congruence.
Qed.

Lemma traffic_never_disconnects_witness :
  clients (Relay.run [ Relay.Message 1 SyntaxError;
                       Relay.Message 1 (Parsed JNull);
                       Relay.Message 3 (Parsed edit);
                       Relay.Settle 0 stored "2024-01-01T12:00:00.000Z";
                       Relay.Message 1 (Parsed partialEdit);
                       Relay.Settle 1 storeDown "2024-01-01T12:00:01.000Z" ]
                     oneBroken) = clients oneBroken /\
  sockets (Relay.run [ Relay.Message 1 SyntaxError;
                       Relay.Message 1 (Parsed JNull);
                       Relay.Message 3 (Parsed edit);
                       Relay.Settle 0 stored "2024-01-01T12:00:00.000Z";
                       Relay.Message 1 (Parsed partialEdit);
                       Relay.Settle 1 storeDown "2024-01-01T12:00:01.000Z" ]
                     oneBroken) = sockets oneBroken /\
  status (Relay.run [ Relay.Message 1 SyntaxError;
                      Relay.Message 1 (Parsed JNull);
                      Relay.Message 3 (Parsed edit);
                      Relay.Settle 0 stored "2024-01-01T12:00:00.000Z";
                      Relay.Message 1 (Parsed partialEdit);
                      Relay.Settle 1 storeDown "2024-01-01T12:00:01.000Z" ]
                    oneBroken) = status oneBroken /\
  closes (trace (Relay.run [ Relay.Message 1 SyntaxError;
                             Relay.Message 1 (Parsed JNull);
                             Relay.Message 3 (Parsed edit);
                             Relay.Settle 0 stored "2024-01-01T12:00:00.000Z";
                             Relay.Message 1 (Parsed partialEdit);
                             Relay.Settle 1 storeDown "2024-01-01T12:00:01.000Z" ]
                           oneBroken)) = closes (trace oneBroken).
Proof.
  apply (traffic_never_disconnects _ oneBroken). reflexivity.
Defined.

(** * Double arithmetic *)

Section Doubles.

Local Open Scope Q_scope.

Lemma pow2_pos (e : Z) : 0 < 2 ^ e.
Proof. apply Qpower_0_lt. reflexivity. Qed.

Lemma pow2_plus (a b : Z) : 2 ^ (a + b) == 2 ^ a * 2 ^ b.
Proof. apply Qpower_plus. discriminate. Qed.

Lemma pow2_succ (a : Z) : 2 ^ (a + 1) == 2 * 2 ^ a.
Proof. rewrite pow2_plus. change (2 ^ 1) with 2. ring. Qed.

Lemma pow2_le (a b : Z) : (a <= b)%Z -> 2 ^ a <= 2 ^ b.
Proof. intros H. apply Qpower_le_compat_l; [exact H | discriminate]. Qed.

Lemma pow2_lt (a b : Z) : (a < b)%Z -> 2 ^ a < 2 ^ b.
Proof. intros H. apply Qpower_lt_compat_l; [exact H | reflexivity]. Qed.

Lemma pow2_lt_inv (a b : Z) : 2 ^ a < 2 ^ b -> (a < b)%Z.
Proof. intros H. apply (Qpower_lt_compat_l_inv 2); [exact H | reflexivity]. Qed.

Lemma pow2_Z (n : Z) : (0 <= n)%Z -> inject_Z (2 ^ n) == 2 ^ n.
Proof. intros H. now rewrite Zpower_Qpower. Qed.

Lemma log2_bounds (a : Z) :
  (0 < a)%Z -> 2 ^ Z.log2 a <= inject_Z a /\ inject_Z a < 2 * 2 ^ Z.log2 a.
Proof.
  intros Ha. destruct (Z.log2_spec a Ha) as [H1 H2].
  pose proof (Z.log2_nonneg a) as Hn.
  rewrite <- pow2_succ, <- !pow2_Z by lia. split.
  - now rewrite <- Zle_Qle.
  - rewrite <- Zlt_Qlt. now rewrite Z.add_1_r.
Qed.

Lemma exponent_spec (x : Q) :
  0 < x -> 2 ^ Baseline.exponent x <= x /\ x < 2 ^ (Baseline.exponent x + 1).
Proof.
  intros Hx. destruct x as [a b].
  assert (Ha : (0 < a)%Z) by (unfold Qlt in Hx; cbn in Hx; lia).
  unfold Baseline.exponent. cbn [Qnum Qden].
  set (la := Z.log2 a). set (lb := Z.log2 (Z.pos b)).
  destruct (log2_bounds a Ha) as [A1 A2]. fold la in A1, A2.
  destruct (log2_bounds (Z.pos b) eq_refl) as [B1 B2]. fold lb in B1, B2.
  pose proof (pow2_pos la) as Pa. pose proof (pow2_pos lb) as Pb.
  assert (Hx' : (a # b) * inject_Z (Z.pos b) == inject_Z a).
  { unfold Qeq, Qmult, inject_Z. cbn. lia. }
  assert (He0 : 2 ^ (la - lb) * 2 ^ lb == 2 ^ la).
  { rewrite <- pow2_plus. now replace (la - lb + lb)%Z with la by lia. }
  assert (Hm1 : 2 * 2 ^ (la - lb - 1) == 2 ^ (la - lb)).
  { rewrite <- pow2_succ. now replace (la - lb - 1 + 1)%Z with (la - lb)%Z by lia. }
  pose proof (pow2_pos (la - lb)) as Pe. pose proof (pow2_pos (la - lb - 1)) as Pm.
  assert (T : if Qle_bool (2 ^ (la - lb)) (a # b)
              then 2 ^ (la - lb) <= a # b else a # b < 2 ^ (la - lb)).
  { destruct (Qle_bool (2 ^ (la - lb)) (a # b)) eqn:T.
    - now apply Qle_bool_iff.
    - apply Qnot_le_lt. intros Hc. apply Qle_bool_iff in Hc. congruence. }
  destruct (Qle_bool (2 ^ (la - lb)) (a # b)).
  - split; [exact T|]. rewrite pow2_succ.
    set (X := a # b) in *. set (A := inject_Z a) in *.
    set (B := inject_Z (Z.pos b)) in *.
    set (PA := 2 ^ la) in *. set (PB := 2 ^ lb) in *.
    set (E := 2 ^ (la - lb)) in *.
    clearbody X A B PA PB E.
    apply Qnot_le_lt. intros Hc.
    assert (2 * E * B <= X * B) by nra.
    assert (E * PB <= E * B) by nra.
    nra.
  - replace (la - lb - 1 + 1)%Z with (la - lb)%Z by lia. split; [|exact T].
    set (X := a # b) in *. set (A := inject_Z a) in *.
    set (B := inject_Z (Z.pos b)) in *.
    set (PA := 2 ^ la) in *. set (PB := 2 ^ lb) in *.
    set (E := 2 ^ (la - lb)) in *. set (M := 2 ^ (la - lb - 1)) in *.
    clearbody X A B PA PB E M.
    apply Qnot_lt_le. intros Hc.
    assert (X * B < M * B) by nra.
    assert (M * B < M * (2 * PB)) by nra.
    nra.
Qed.

Lemma roundHalfEven_spec (y : Q) :
  y - (1 # 2) <= inject_Z (Baseline.roundHalfEven y) /\
  inject_Z (Baseline.roundHalfEven y) <= y + (1 # 2).
Proof.
  unfold Baseline.roundHalfEven.
  pose proof (Qfloor_le y) as H1. pose proof (Qlt_floor y) as H2.
  rewrite inject_Z_plus in H2. change (inject_Z 1) with 1 in H2.
  destruct (Qcompare (y - inject_Z (Qfloor y)) (1 # 2)) eqn:C.
  - apply Qeq_alt in C.
    destruct (Z.even (Qfloor y)); rewrite ?inject_Z_plus;
      change (inject_Z 1) with 1; lra.
  - apply Qlt_alt in C. lra.
  - apply Qgt_alt in C. rewrite inject_Z_plus. change (inject_Z 1) with 1. lra.
Qed.

Lemma ulp_pos (x : Q) : 0 < Baseline.ulp x.
Proof. apply pow2_pos. Qed.

Lemma nearest_spec (x : Q) :
  x - Baseline.ulp x * (1 # 2) <= Baseline.nearest x /\ Baseline.nearest x <= x + Baseline.ulp x * (1 # 2).
Proof.
  unfold Baseline.nearest. pose proof (ulp_pos x) as Hu.
  destruct (roundHalfEven_spec (x / Baseline.ulp x)) as [H1 H2].
  assert (E : x / Baseline.ulp x * Baseline.ulp x == x) by (field; lra).
  set (y := x / Baseline.ulp x) in *. set (m := inject_Z (Baseline.roundHalfEven y)) in *.
  set (u := Baseline.ulp x) in *. clearbody y m u. nra.
Qed.

(** Twice the unit in the last place of a positive [x] is at most
    [x / 2^51], unless [x] is subnormal. *)
Lemma ulp_bound (x : Q) :
  0 < x -> Baseline.ulp x * 2 ^ 52 <= x \/ Baseline.ulp x == 2 ^ (-1074).
Proof.
  intros Hx. unfold Baseline.ulp. destruct (exponent_spec x Hx) as [H _].
  destruct (Z.max_spec (Baseline.exponent x) (-1022)) as [[_ ->]|[_ ->]].
  - now right.
  - left. rewrite <- pow2_plus.
    now replace (Baseline.exponent x - 52 + 52)%Z with (Baseline.exponent x) by lia.
Qed.

Lemma ulp_below (x B : Q) :
  0 < x -> x < B -> 1 <= B -> Baseline.ulp x * 2 ^ 52 < B.
Proof.
  intros Hx HB H1. destruct (ulp_bound x Hx) as [H|H].
  - lra.
  - rewrite H, <- pow2_plus. cbn [Z.add]. 
    apply Qlt_le_trans with (2 ^ 0); [now apply pow2_lt | exact H1].
Qed.

Lemma nearest_nonneg (x : Q) : 0 < x -> 0 <= Baseline.nearest x.
Proof.
  intros Hx. unfold Baseline.nearest. pose proof (ulp_pos x) as Hu.
  destruct (roundHalfEven_spec (x / Baseline.ulp x)) as [H1 _].
  assert (Hy : 0 < x / Baseline.ulp x).
  { apply Qlt_shift_div_l; lra. }
  assert (Hm : (0 <= Baseline.roundHalfEven (x / Baseline.ulp x))%Z).
  { assert (H : inject_Z (-1) < inject_Z (Baseline.roundHalfEven (x / Baseline.ulp x))).
    { change (inject_Z (-1)) with (-1). lra. }
    rewrite <- Zlt_Qlt in H. lia. }
  rewrite Zle_Qle in Hm. change (inject_Z 0) with 0 in Hm.
  apply Qmult_le_0_compat; lra.
Qed.

(** The largest double below [B] is reached at most: a product with a
    factor of at most [1 - 2^-53] does not round up to [B]. *)
Lemma nearest_below (x B : Q) :
  0 < x -> 1 <= B -> x <= B * (1 - 2 ^ (-53)) -> Baseline.nearest x < B.
Proof.
  intros Hx H1 Hle.
  assert (Hc : 2 ^ (-53) * 2 ^ 52 == 1 # 2) by reflexivity.
  assert (Hp : 0 < 2 ^ (-53)) by apply pow2_pos.
  assert (Hd : 0 < 2 ^ 52) by apply pow2_pos.
  assert (HBc : 0 < B * 2 ^ (-53)) by (apply Qmult_lt_0_compat; lra).
  assert (HxB : x < B).
  { set (c := 2 ^ (-53)) in *. clearbody c. lra. }
  pose proof (ulp_below x B Hx HxB H1) as Hu.
  destruct (nearest_spec x) as [_ Hn]. pose proof (ulp_pos x) as Hu0.
  set (c := 2 ^ (-53)) in *. set (d := 2 ^ 52) in *.
  set (u := Baseline.ulp x) in *. set (n := Baseline.nearest x) in *. clearbody c d u n.
  assert (u * d * c < B * c) by nra.
  nra.
Qed.

Lemma binary64_pos (x : Q) : 0 < x -> Baseline.binary64 x = Baseline.nearest x.
Proof.
  intros Hx. unfold Baseline.binary64. destruct x as [[|p|p] d]; try reflexivity;
    unfold Qlt in Hx; cbn in Hx; lia.
Qed.

Lemma binary64_zero (x : Q) : x == 0 -> Baseline.binary64 x = 0.
Proof.
  intros Hx. unfold Baseline.binary64. destruct x as [[|p|p] d]; try reflexivity;
    unfold Qeq in Hx; cbn in Hx; lia.
Qed.

(** The largest double below 1 is [1 - 2^-53]. *)
Lemma double_below_one (r : Q) :
  0 < r -> r < 1 -> Baseline.nearest r == r -> r <= 1 - 2 ^ (-53).
Proof.
  intros H0 H1 Hr. destruct (exponent_spec r H0) as [E1 E2].
  assert (He : (Baseline.exponent r < 0)%Z).
  { apply pow2_lt_inv. change (2 ^ 0) with 1. lra. }
  destruct (Z.eq_dec (Baseline.exponent r) (-1)) as [E|E].
  - unfold Baseline.nearest, Baseline.ulp in Hr. rewrite E in Hr.
    change (Z.max (-1) (-1022) - 52)%Z with (-53)%Z in Hr.
    set (m := Baseline.roundHalfEven (r / 2 ^ (-53))) in *.
    assert (Hm : (m < 2 ^ 53)%Z).
    { rewrite Zlt_Qlt. 
      assert (Hc : inject_Z (2 ^ 53) * 2 ^ (-53) == 1) by reflexivity.
      assert (Hp : 0 < 2 ^ (-53)) by apply pow2_pos.
      set (c := 2 ^ (-53)) in *. set (M := inject_Z m) in *.
      set (K := inject_Z (2 ^ 53)) in *. clearbody c M K. nra. }
    assert (Hm' : inject_Z m <= inject_Z (2 ^ 53 - 1)) by (rewrite <- Zle_Qle; lia).
    assert (Hc : inject_Z (2 ^ 53 - 1) * 2 ^ (-53) == 1 - 2 ^ (-53)) by reflexivity.
    assert (Hp : 0 < 2 ^ (-53)) by apply pow2_pos.
    set (c := 2 ^ (-53)) in *. set (M := inject_Z m) in *.
    set (K := inject_Z (2 ^ 53 - 1)) in *. clearbody c M K. nra.
  - assert (Hle : 2 ^ (Baseline.exponent r + 1) <= 2 ^ (-1)) by (apply pow2_le; lia).
    assert (Hh : 2 ^ (-1) <= 1 - 2 ^ (-53)) by discriminate.
    lra.
Qed.


(** A product of a draw of [Math.random()] and a positive integer [k] is
    at least 0 and below [k], also after rounding. *)
Lemma times_range (r : Q) (k : Z) :
  Baseline.isBinary64 r = true -> 0 <= r -> r < 1 -> (1 <= k)%Z ->
  0 <= Baseline.times r (inject_Z k) /\ Baseline.times r (inject_Z k) < inject_Z k.
Proof.
  intros Hd H0 H1 HN. unfold Baseline.times.
  assert (HNq : 1 <= inject_Z k).
  { change 1 with (inject_Z 1). now rewrite <- Zle_Qle. }
  destruct (Qeq_dec r 0) as [Hz|Hnz].
  - rewrite binary64_zero by (rewrite Hz; ring). lra.
  - assert (Hr : 0 < r).
    { apply Qle_lteq in H0. destruct H0 as [H|H]; [exact H|].
      symmetry in H. contradiction. }
    unfold Baseline.isBinary64 in Hd. apply Qeq_bool_iff in Hd.
    rewrite binary64_pos in Hd by exact Hr.
    pose proof (double_below_one r Hr H1 Hd) as Hmax.
    assert (Hx : 0 < r * inject_Z k) by (apply Qmult_lt_0_compat; lra).
    rewrite binary64_pos by exact Hx.
    assert (Hle : r * inject_Z k <= inject_Z k * (1 - 2 ^ (-53))).
    { set (c := 2 ^ (-53)) in *. clearbody c. nra. }
    split; [now apply nearest_nonneg | now apply nearest_below].
Qed.

(** [Math.floor(random * k)] is one of 0, ..., k - 1. *)
Lemma floor_times (r : Q) (k : Z) :
  Baseline.isBinary64 r = true -> 0 <= r -> r < 1 -> (1 <= k)%Z ->
  (0 <= Qfloor (Baseline.times r (inject_Z k)) < k)%Z.
Proof.
  intros Hd H0 H1 Hk. destruct (times_range r k Hd H0 H1 Hk) as [Hge Hlt].
  split.
  - change 0%Z with (Qfloor 0). now apply Qfloor_resp_le.
  - rewrite Zlt_Qlt. eapply Qle_lt_trans; [apply Qfloor_le | exact Hlt].
Qed.

(** The rounding error of a product: at most [2^-53] of the product, or
    [2^-1075] for a subnormal result. *)
Lemma times_error (a b : Q) :
  0 <= a * b ->
  a * b - (a * b * 2 ^ (-53) + 2 ^ (-1075)) <= Baseline.times a b /\
  Baseline.times a b <= a * b + (a * b * 2 ^ (-53) + 2 ^ (-1075)).
Proof.
  intros H0. unfold Baseline.times.
  assert (Hp : 0 < 2 ^ (-53)) by apply pow2_pos.
  assert (Hq : 0 < 2 ^ (-1075)) by apply pow2_pos.
  destruct (Qeq_dec (a * b) 0) as [Hz|Hnz].
  - rewrite binary64_zero by exact Hz. rewrite Hz. lra.
  - assert (Hx : 0 < a * b).
    { apply Qle_lteq in H0. destruct H0 as [H|H]; [exact H|].
      symmetry in H. contradiction. }
    rewrite binary64_pos by exact Hx.
    destruct (nearest_spec (a * b)) as [L U].
    pose proof (ulp_pos (a * b)) as Hu.
    assert (Hhalf : Baseline.ulp (a * b) * (1 # 2) <= a * b * 2 ^ (-53) + 2 ^ (-1075)).
    { destruct (ulp_bound (a * b) Hx) as [H|H].
      - assert (Hc : 2 ^ 52 * 2 ^ (-53) == 1 # 2) by reflexivity.
        set (u := Baseline.ulp (a * b)) in *. set (x := a * b) in *.
        set (c := 2 ^ (-53)) in *. set (d := 2 ^ 52) in *.
        set (q := 2 ^ (-1075)) in *. clearbody u x c d q.
        assert (u * d * c <= x * c) by nra. nra.
      - rewrite H.
        assert (Hc : 2 ^ (-1074) * (1 # 2) == 2 ^ (-1075)) by reflexivity.
        rewrite Hc. set (x := a * b) in *. set (c := 2 ^ (-53)) in *.
        set (q := 2 ^ (-1075)) in *. clearbody x c q. nra. }
    lra.
Qed.

Lemma floor_is_floor (x : Q) : inject_Z (Qfloor x) <= x < inject_Z (Qfloor x) + 1.
Proof.
  pose proof (Qfloor_le x). pose proof (Qlt_floor x) as H2.
  rewrite inject_Z_plus in H2. change (inject_Z 1) with 1 in H2. lra.
Qed.

End Doubles.

(** The draws of the examples are doubles. *)
Example draws_are_doubles :
  forallb Baseline.isBinary64 [1 # 2; oneThird; 1 # 4; 3 # 8] = true /\
  Baseline.isBinary64 (1 # 3) = false.
Proof. vm_compute. split; reflexivity. Qed.

(** Rounding the product matters: for the double nearest to 0.2359 the
    exact product with 10000 is below 2359 and the double product is 2359;
    for the double nearest to 0.00065 the product with 100 is written
    "0.07", where the exact product would be written "0.06". *)
Example rounding_of_products :
  let r := 265599788024175 # 1125899906842624 in
  let r' := 1498797955988901 # 2305843009213693952 in
  Baseline.isBinary64 r = true /\
  Baseline.Math_floor (Baseline.times r 10000) = 2359%Z /\
  Qfloor (r * 10000) = 2358%Z /\
  Baseline.isBinary64 r' = true /\
  Baseline.toFixed2 (Baseline.times r' 100) = "0.07" /\
  Baseline.toFixed2 (r' * 100) = "0.06".
Proof. vm_compute. repeat split. Qed.

(** * Reading the decimals of [toFixed(2)] *)

Lemma decimal_string_of_Z (z : Z) :
  (0 <= z)%Z -> decimal (Baseline.string_of_Z z) = Some z.
Proof.
  intros Hz. unfold decimal, Baseline.string_of_Z.
  destruct z as [|p|p]; [reflexivity | | lia].
  cbn [Z.to_int NilZero.string_of_int].
  rewrite NilZero.usu by apply DecimalPos.Unsigned.to_uint_nonnil.
  cbn [option_map]. unfold Z.of_uint. now rewrite DecimalPos.Unsigned.of_to.
Qed.

Lemma twoDigits_spec (c : Z) :
  (0 <= c < 100)%Z -> String.length (twoDigits c) = 2 /\ decimal (twoDigits c) = Some c.
Proof.
  intros Hc.
  assert (H : forallb (fun n => Nat.eqb (String.length (twoDigits (Z.of_nat n))) 2 &&
                               match decimal (twoDigits (Z.of_nat n)) with
                               | Some z => Z.eqb z (Z.of_nat n)
                               | None => false
                               end) (seq 0 100) = true) by (vm_compute; reflexivity).
  rewrite forallb_forall in H.
  specialize (H (Z.to_nat c)). rewrite Z2Nat.id in H by lia.
  assert (Hin : In (Z.to_nat c) (seq 0 100)) by (apply in_seq; lia).
  apply H in Hin. apply andb_true_iff in Hin. destruct Hin as [H1 H2].
  apply Nat.eqb_eq in H1. split; [exact H1|].
  destruct (decimal (twoDigits c)) as [z|]; [|discriminate].
  apply Z.eqb_eq in H2. now subst.
Qed.

Lemma toFixed2_reads (x : Q) :
  (0 <= x)%Q -> readsTwoDecimals (Baseline.toFixed2 x) x.
Proof.
  intros Hx. unfold Baseline.toFixed2.
  set (n := Qfloor (x * 100 + (1 # 2))%Q).
  assert (Hn : (0 <= n)%Z).
  { change 0%Z with (Qfloor 0). apply Qfloor_resp_le. lra. }
  exists n, (Baseline.string_of_Z (n / 100)), (twoDigits (n mod 100)).
  destruct (twoDigits_spec (n mod 100)%Z) as [H1 H2];
    [apply Z.mod_pos_bound; lia|].
  split; [reflexivity|]. split; [exact H1|].
  split; [apply decimal_string_of_Z, Z.div_pos; lia|]. split; [exact H2|].
  destruct (floor_is_floor (x * 100 + (1 # 2))%Q) as [L U]. fold n in L, U. lra.
Qed.

(** * Further properties of the generator *)

(** Decides the tests of [generateUpdateValue] on a column name that is
    known. *)
Ltac pick_branch :=
  unfold Baseline.generateUpdateValue;
  repeat match goal with
         | |- context [if ?b then _ else _] =>
             match type of b with
             | bool => let v := eval vm_compute in b in
                       change b with v; cbv iota
             end
         end.

Lemma at_index_in_range {X : Type} (l : list X) (i : Z) :
  (0 <= i < Z.of_nat (List.length l))%Z ->
  exists x, Baseline.at_index l i = Some x /\ In x l.
Proof.
  intros Hi. unfold Baseline.at_index.
  destruct (Z.ltb_spec i 0); [lia|].
  destruct (nth_error l (Z.to_nat i)) as [x|] eqn:E.
  - exists x. split; [reflexivity|]. eapply nth_error_In. exact E.
  - apply nth_error_None in E. lia.
Qed.

(** The tier that [generateUpdateValue] picks. *)
Lemma subscription_tier_rule (random : Q) (w : World) :
  Baseline.isBinary64 random = true -> (0 <= random)%Q -> (random < 1)%Q ->
  exists j s,
    Baseline.generateUpdateValue (Some "subscription_tier") random w
      = Normal (Some (JStr s)) w /\
    isFloorOf j (Baseline.times random 4) /\
    (0 <= j < 4)%Z /\
    nth_error ["Free"; "Basic"; "Pro"; "Enterprise"] (Z.to_nat j) = Some s.
Proof.
  intros Hd H0 H1. pick_branch. unfold Baseline.Math_floor.
  pose proof (floor_times random 4 Hd H0 H1 ltac:(lia)) as Hj.
  change (inject_Z 4) with 4%Q in Hj.
  destruct (at_index_in_range ["Free"; "Basic"; "Pro"; "Enterprise"]
              (Qfloor (Baseline.times random 4)) Hj) as (s & Es & _).
  exists (Qfloor (Baseline.times random 4)), s. rewrite Es.
  split; [reflexivity|]. split; [apply floor_is_floor|]. split; [exact Hj|].
  unfold Baseline.at_index in Es.
  destruct (Z.ltb_spec (Qfloor (Baseline.times random 4)) 0); [lia | exact Es].
Qed.

(** For every updateable column the value is defined. *)
Lemma generateUpdateValue_defined (random : Q) (w : World) (col : string) :
  Baseline.isBinary64 random = true -> (0 <= random)%Q -> (random < 1)%Q ->
  In col updateableColumns ->
  exists v, Baseline.generateUpdateValue (Some col) random w = Normal (Some v) w.
Proof.
  intros Hd H0 H1 Hin.
  destruct (subscription_tier_rule random w Hd H0 H1) as (j & s & Et & _).
  cbn in Hin.
  repeat destruct Hin as [<-|Hin]; try contradiction;
    first [ eexists; exact Et | pick_branch; eexists; reflexivity ].
Qed.

Ltac integer_branch Hd H0 H1 :=
  pick_branch; unfold Baseline.Math_floor; eexists;
  split; [reflexivity|];
  split; [apply (floor_times _ _ Hd H0 H1); lia | apply floor_is_floor].

Ltac decimals_branch Hd H0 H1 :=
  pick_branch; eexists; split; [reflexivity|];
  apply toFixed2_reads;
  exact (proj1 (times_range _ 100 Hd H0 H1 ltac:(lia))).

(** X17. The generation rules by column, for a draw of [Math.random()] (a
    double that is at least 0 and below 1). The product of the draw and a
    positive integer k of at most 53 bits is within the rounding error of
    the exact product, at least 0 and below k. [revenue] and [expenses] get the floor of
    the product with 1000000, hence an integer below 1000000; [profit] the
    same with 200000; [employees] 10 more than the floor of the product with
    1000; [status] is 'Active' when the draw is above one half and
    'Inactive' otherwise, [verified] and [premium] are true in the first
    case and false otherwise; [subscription_tier] is the tier name at the
    floor of the product with 4; the five score columns and the
    [performance_metric_N] and [kpi_N] columns get the product with 100
    written with two decimals; the [sales_metric_N] and [behavior_metric_N]
    columns the floor of the product with 10000. For every updateable column
    the value is defined and the call does not throw. *)
Theorem generated_values_by_column (random : Q) (w : World) :
  Baseline.isBinary64 random = true ->
  (0 <= random)%Q ->
  (random < 1)%Q ->
  (forall k, (1 <= k <= 2 ^ 53)%Z ->
     (0 <= Baseline.times random (inject_Z k) < inject_Z k)%Q /\
     (random * inject_Z k - (random * inject_Z k * 2 ^ (-53) + 2 ^ (-1075))
        <= Baseline.times random (inject_Z k)
        <= random * inject_Z k + (random * inject_Z k * 2 ^ (-53) + 2 ^ (-1075)))%Q) /\
  (forall col, In col ["revenue"; "expenses"] ->
     exists n, Baseline.generateUpdateValue (Some col) random w
               = Normal (Baseline.number n) w /\
               (0 <= n < 1000000)%Z /\
               isFloorOf n (Baseline.times random 1000000)) /\
  (exists n, Baseline.generateUpdateValue (Some "profit") random w
             = Normal (Baseline.number n) w /\
             (0 <= n < 200000)%Z /\
             isFloorOf n (Baseline.times random 200000)) /\
  (exists n, Baseline.generateUpdateValue (Some "employees") random w
             = Normal (Baseline.number (n + 10)) w /\
             (0 <= n < 1000)%Z /\
             isFloorOf n (Baseline.times random 1000)) /\
  (exists s, Baseline.generateUpdateValue (Some "status") random w
             = Normal (Some (JStr s)) w /\
             ((1 # 2 < random)%Q -> s = "Active") /\
             ((random <= 1 # 2)%Q -> s = "Inactive")) /\
  (forall col, In col ["verified"; "premium"] ->
     exists b, Baseline.generateUpdateValue (Some col) random w
               = Normal (Some (JBool b)) w /\
               ((1 # 2 < random)%Q -> b = true) /\
               ((random <= 1 # 2)%Q -> b = false)) /\
  (exists j s, Baseline.generateUpdateValue (Some "subscription_tier") random w
               = Normal (Some (JStr s)) w /\
               isFloorOf j (Baseline.times random 4) /\
               (0 <= j < 4)%Z /\
               nth_error ["Free"; "Basic"; "Pro"; "Enterprise"] (Z.to_nat j)
                 = Some s) /\
  (forall col, In col ["total_score"; "risk_factor"; "satisfaction_score";
                       "engagement_rate"; "conversion_rate"] ->
     exists s, Baseline.generateUpdateValue (Some col) random w
               = Normal (Some (JStr s)) w /\
               readsTwoDecimals s (Baseline.times random 100)) /\
  (forall N, 1 <= N <= 20 ->
     (exists s, Baseline.generateUpdateValue
                  (Some (template "performance_metric_" N)) random w
                = Normal (Some (JStr s)) w /\
                readsTwoDecimals s (Baseline.times random 100)) /\
     (exists s, Baseline.generateUpdateValue (Some (template "kpi_" N)) random w
                = Normal (Some (JStr s)) w /\
                readsTwoDecimals s (Baseline.times random 100)) /\
     (exists n, Baseline.generateUpdateValue
                  (Some (template "sales_metric_" N)) random w
                = Normal (Baseline.number n) w /\
                (0 <= n < 10000)%Z /\
                isFloorOf n (Baseline.times random 10000)) /\
     (exists n, Baseline.generateUpdateValue
                  (Some (template "behavior_metric_" N)) random w
                = Normal (Baseline.number n) w /\
                (0 <= n < 10000)%Z /\
                isFloorOf n (Baseline.times random 10000))) /\
  (forall col, In col updateableColumns ->
     exists v, Baseline.generateUpdateValue (Some col) random w = Normal (Some v) w).
Proof.
  intros Hd H0 H1.
  split.
  { intros k [Hk _]. split; [apply (times_range random k Hd H0 H1 Hk)|].
    apply times_error. apply Qmult_le_0_compat; [exact H0|].
    change 0%Q with (inject_Z 0). rewrite <- Zle_Qle. lia. }
  split.
  { intros col Hin. cbn in Hin.
    repeat destruct Hin as [<-|Hin]; try contradiction; integer_branch Hd H0 H1. }
  split; [integer_branch Hd H0 H1|].
  split.
  { pick_branch. unfold Baseline.Math_floor. eexists.
    split; [reflexivity|].
    split; [apply (floor_times _ _ Hd H0 H1); lia | apply floor_is_floor]. }
  split.
  { pick_branch. eexists. split; [reflexivity|].
    destruct (Qlt_le_dec (1 # 2) random) as [Hgt|Hle]; split; intros H;
      try reflexivity; exfalso; revert H;
      [apply Qlt_not_le | apply Qle_not_lt]; assumption. }
  split.
  { intros col Hin. cbn in Hin.
    repeat destruct Hin as [<-|Hin]; try contradiction;
      pick_branch; eexists; (split; [reflexivity|]);
      destruct (Qlt_le_dec (1 # 2) random) as [Hgt|Hle]; split; intros H;
      try reflexivity; exfalso; revert H;
      [apply Qlt_not_le | apply Qle_not_lt | apply Qlt_not_le | apply Qle_not_lt];
      assumption. }
  split; [exact (subscription_tier_rule random w Hd H0 H1)|].
  split.
  { intros col Hin. cbn in Hin.
    repeat destruct Hin as [<-|Hin]; try contradiction; decimals_branch Hd H0 H1. }
  split.
  { intros N HN.
    assert (Hin : In N (seq 1 20)) by (apply in_seq; lia).
    cbn in Hin.
    repeat destruct Hin as [<-|Hin]; try contradiction;
      (split; [decimals_branch Hd H0 H1|]);
      (split; [decimals_branch Hd H0 H1|]);
      split; integer_branch Hd H0 H1. }
  intros col Hin. now apply generateUpdateValue_defined.
Qed.

Lemma generated_values_by_column_witness :
  (exists n, Baseline.generateUpdateValue (Some "employees") (1 # 4) idle
             = Normal (Baseline.number (n + 10)) idle /\
             (0 <= n < 1000)%Z /\
             isFloorOf n (Baseline.times (1 # 4) 1000)) /\
  (exists s, Baseline.generateUpdateValue (Some "total_score") (1 # 4) idle
             = Normal (Some (JStr s)) idle /\
             readsTwoDecimals s (Baseline.times (1 # 4) 100)).
Proof.
  assert (Hd : Baseline.isBinary64 (1 # 4) = true) by (vm_compute; reflexivity).
  assert (H0 : (0 <= 1 # 4)%Q) by discriminate.
  assert (H1 : (1 # 4 < 1)%Q) by reflexivity.
  destruct (generated_values_by_column (1 # 4) idle Hd H0 H1)
    as (_ & _ & _ & G3 & _ & _ & _ & G7 & _).
  split; [exact G3 | apply G7; now left].
Defined.

(** X14. A tick of the generator with at least one client registered, draws
    of [Math.random()] (doubles at least 0 and below 1) and no [send] that
    throws: the update targets the row [row_k] with k the floor of the
    product of the first draw and 1000, below 1000, and the column at the
    floor of the product of the second draw and 93, a column of the
    updateable list; its value is the one [generateUpdateValue] gives for
    that column, it is defined, and the update is sent as
    [{type: 'update', rowId, columnId, newValue}] exactly to the registered
    connections that are open, in registry order; then it is logged. The
    registry and the store are not touched. *)
Theorem tick_targets_updateable_column (r1 r2 r3 : Q) (w : World) :
  Baseline.isBinary64 r1 = true -> (0 <= r1)%Q -> (r1 < 1)%Q ->
  Baseline.isBinary64 r2 = true -> (0 <= r2)%Q -> (r2 < 1)%Q ->
  Baseline.isBinary64 r3 = true -> (0 <= r3)%Q -> (r3 < 1)%Q ->
  clients w <> [] ->
  (forall c, In c (clients w) -> isOpen (sockets w c) = true ->
             sendThrows (sockets w c) = false) ->
  exists k j col v,
    isFloorOf k (Baseline.times r1 1000) /\
    (0 <= k < 1000)%Z /\
    isFloorOf j (Baseline.times r2 93) /\
    (0 <= j < 93)%Z /\
    nth_error updateableColumns (Z.to_nat j) = Some col /\
    Baseline.generateUpdateValue (Some col) r3 w = Normal (Some v) w /\
    Baseline.onInterval r1 r2 r3 w =
    Normal tt
      (add_effects
         (deliveries
            (JObj [ ("type", JStr "update");
                    ("rowId", JStr ("row_" ++ Baseline.string_of_Z k));
                    ("columnId", JStr col);
                    ("newValue", v) ])
            (clients w) w ++
          [Log (SentUpdate ("row_" ++ Baseline.string_of_Z k) col (Some v))])
         w).
Proof.
  intros Hd1 Ha1 Hb1 Hd2 Ha2 Hb2 Hd3 Ha3 Hb3 Hne Hsend.
  pose proof (floor_times r1 1000 Hd1 Ha1 Hb1 ltac:(lia)) as Hk.
  pose proof (floor_times r2 93 Hd2 Ha2 Hb2 ltac:(lia)) as Hj.
  change (inject_Z 1000) with 1000%Q in Hk.
  destruct (at_index_in_range updateableColumns
              (Qfloor (Baseline.times r2 (inject_Z 93))))
    as (col & Ecol & Hcol).
  { change (Z.of_nat (List.length updateableColumns)) with 93%Z. exact Hj. }
  destruct (generateUpdateValue_defined r3 w col Hd3 Ha3 Hb3 Hcol) as (v & Ev).
  exists (Qfloor (Baseline.times r1 1000)),
         (Qfloor (Baseline.times r2 (inject_Z 93))), col, v.
  split; [apply floor_is_floor|]. split; [exact Hk|].
  split; [apply floor_is_floor|]. split; [exact Hj|].
  split.
  { unfold Baseline.at_index in Ecol.
    destruct (Z.ltb_spec (Qfloor (Baseline.times r2 (inject_Z 93))) 0);
      [lia | exact Ecol]. }
  split; [exact Ev|].
  unfold Baseline.onInterval. unfold bind at 1. unfold gets at 1.
  destruct (clients w) as [|c0 cs] eqn:Ecs; [contradiction|].
  cbn [List.length Nat.ltb Nat.leb].
  change (Z.of_nat (List.length updateableColumns)) with 93%Z.
  unfold Baseline.Math_floor. rewrite Ecol.
  unfold bind at 1. rewrite Ev.
  unfold bind at 1. rewrite broadcast_unfold, Ecs.
  rewrite sendLoop_ok by exact Hsend.
  unfold log, emit, modify. rewrite add_effect_one, add_effects_app.
  reflexivity.
Qed.

Lemma tick_targets_updateable_column_witness :
  exists k j col v,
    isFloorOf k (Baseline.times (1 # 2) 1000) /\
    (0 <= k < 1000)%Z /\
    isFloorOf j (Baseline.times (3 # 8) 93) /\
    (0 <= j < 93)%Z /\
    nth_error updateableColumns (Z.to_nat j) = Some col /\
    Baseline.generateUpdateValue (Some col) (1 # 4) (serving [1; 2])
      = Normal (Some v) (serving [1; 2]) /\
    Baseline.onInterval (1 # 2) (3 # 8) (1 # 4) (serving [1; 2]) =
    Normal tt
      (add_effects
         (deliveries
            (JObj [ ("type", JStr "update");
                    ("rowId", JStr ("row_" ++ Baseline.string_of_Z k));
                    ("columnId", JStr col);
                    ("newValue", v) ])
            (clients (serving [1; 2])) (serving [1; 2]) ++
          [Log (SentUpdate ("row_" ++ Baseline.string_of_Z k) col (Some v))])
         (serving [1; 2])).
Proof.
  apply (tick_targets_updateable_column (1 # 2) (3 # 8) (1 # 4) (serving [1; 2]));
    try discriminate; try (vm_compute; reflexivity); reflexivity.
Defined.

(** * The grid page applying an update *)

Lemma getProp_setProp_same (k : string) (v : value) (row : Client.DataRow) :
  Client.getProp k (Client.setProp k v row) = v.
Proof.
  induction row as [|[k' v'] row IH]; cbn.
  - now rewrite String.eqb_refl.
  - destruct (String.eqb_spec k k') as [->|Hne]; cbn.
    + now rewrite String.eqb_refl.
    + destruct (String.eqb_spec k k'); [contradiction | exact IH].
Qed.

Lemma getProp_setProp_other (k k' : string) (v : value) (row : Client.DataRow) :
  k' <> k ->
  Client.getProp k' (Client.setProp k v row) = Client.getProp k' row.
Proof.
  intros Hne. induction row as [|[k0 v0] row IH]; cbn.
  - destruct (String.eqb_spec k' k); [contradiction | reflexivity].
  - destruct (String.eqb_spec k k0) as [->|Hk]; cbn.
    + destruct (String.eqb_spec k' k0); [contradiction | reflexivity].
    + destruct (String.eqb k' k0); [reflexivity | exact IH].
Qed.

Lemma setProp_setProp (k : string) (v1 v2 : value) (row : Client.DataRow) :
  Client.setProp k v2 (Client.setProp k v1 row) = Client.setProp k v2 row.
Proof.
  induction row as [|[k0 v0] row IH]; cbn.
  - now rewrite String.eqb_refl.
  - destruct (String.eqb_spec k k0) as [->|Hk]; cbn.
    + now rewrite String.eqb_refl.
    + destruct (String.eqb_spec k k0); [contradiction | now rewrite IH].
Qed.

Lemma hasId_setProp (id k : string) (v : value) (row : Client.DataRow) :
  k <> "id" ->
  Client.hasId id (Client.setProp k v row) = Client.hasId id row.
Proof.
  intros Hne. unfold Client.hasId.
  rewrite getProp_setProp_other; [reflexivity|]. congruence.
Qed.

Lemma hasId_unique (id1 id2 : string) (row : Client.DataRow) :
  Client.hasId id1 row = true -> Client.hasId id2 row = true -> id1 = id2.
Proof.
  unfold Client.hasId.
  destruct (Client.getProp "id" row) as [[ | | |s| | ]|]; try discriminate.
  intros H1 H2. apply String.eqb_eq in H1, H2. congruence.
Qed.

(** X18. Applying an update on the grid page keeps the number and order of
    the loaded rows; a row whose [id] is the update's [rowId] gets the new
    value under [columnId] and keeps every other property, and every other
    row is left as it is; the time of the last update is recorded. The newer
    page does the same to [allData]. The older page treats the loaded rows
    in the same way and never changes [allData]. *)
Theorem update_sets_the_cell
    (message : Client.WSMessage) (time : string) (st : Client.State) :
  let st' := Client.handleRealTimeUpdate message time st in
  let older := Client.firstRenderHandler message time st in
  List.length (Client.loadedRows st') = List.length (Client.loadedRows st) /\
  (forall i row,
     nth_error (Client.loadedRows st) i = Some row ->
     exists row',
       nth_error (Client.loadedRows st') i = Some row' /\
       (Client.hasId (Client.rowId message) row = true ->
        Client.getProp (Client.columnId message) row' = Client.newValue message /\
        forall k, k <> Client.columnId message ->
                  Client.getProp k row' = Client.getProp k row) /\
       (Client.hasId (Client.rowId message) row = false -> row' = row)) /\
  Client.allData st' = Client.applyUpdate message (Client.allData st) /\
  Client.lastUpdate st' = Some time /\
  Client.loadedRows older = Client.loadedRows st' /\
  Client.allData older = Client.allData st /\
  Client.lastUpdate older = Some time.
Proof.
  cbn. split; [apply length_map|]. split; [|split; [|repeat split]].
  - intros i row Hi. unfold Client.applyUpdate.
    rewrite nth_error_map, Hi. cbn. eexists. split; [reflexivity|].
    split; intros Hid; rewrite Hid; [|reflexivity].
    split; [apply getProp_setProp_same|].
    intros k Hk. now apply getProp_setProp_other.
  - destruct (Client.allData st); reflexivity.
Qed.

(** X19. An update for a row that is not among the loaded rows changes no
    row of the page. *)
Theorem update_of_unknown_row_is_dropped
    (message : Client.WSMessage) (time : string) (st : Client.State) :
  (forall row, In row (Client.loadedRows st) ->
               Client.hasId (Client.rowId message) row = false) ->
  (forall row, In row (Client.allData st) ->
               Client.hasId (Client.rowId message) row = false) ->
  Client.loadedRows (Client.handleRealTimeUpdate message time st) =
    Client.loadedRows st /\
  Client.allData (Client.handleRealTimeUpdate message time st) =
    Client.allData st.
Proof.
  assert (H : forall rows,
             (forall row, In row rows ->
                          Client.hasId (Client.rowId message) row = false) ->
             Client.applyUpdate message rows = rows).
  { induction rows as [|row rows IH]; intros Hall; [reflexivity|].
    cbn. rewrite (Hall row (or_introl eq_refl)). f_equal.
    apply IH. intros r Hr. apply Hall. now right. }
  intros H1 H2. unfold Client.handleRealTimeUpdate. cbn [Client.loadedRows Client.allData].
  split; [now apply H|].
  destruct (0 <? List.length (Client.allData st)); [now apply H | reflexivity].
Qed.

Lemma applyUpdate_twice (m1 m2 : Client.WSMessage) (rows : list Client.DataRow) :
  Client.rowId m1 = Client.rowId m2 ->
  Client.columnId m1 = Client.columnId m2 ->
  Client.columnId m1 <> "id" ->
  Client.applyUpdate m2 (Client.applyUpdate m1 rows) = Client.applyUpdate m2 rows.
Proof.
  intros Hr Hc Hid. unfold Client.applyUpdate. rewrite map_map.
  apply map_ext. intros row. rewrite Hr, Hc in *.
  destruct (Client.hasId (Client.rowId m2) row) eqn:E.
  - rewrite hasId_setProp, E by assumption. apply setProp_setProp.
  - now rewrite E.
Qed.

Lemma applyUpdate_length (m : Client.WSMessage) (rows : list Client.DataRow) :
  List.length (Client.applyUpdate m rows) = List.length rows.
Proof. apply length_map. Qed.

(** X20. Last write wins on the page: of two updates of the same cell
    (same [rowId], same [columnId], not the [id] column) applied one after
    the other, only the second one shows; in particular applying the same
    update twice is the same as applying it once. *)
Theorem last_update_wins
    (m1 m2 : Client.WSMessage) (t1 t2 : string) (st : Client.State) :
  Client.rowId m1 = Client.rowId m2 ->
  Client.columnId m1 = Client.columnId m2 ->
  Client.columnId m1 <> "id" ->
  Client.handleRealTimeUpdate m2 t2 (Client.handleRealTimeUpdate m1 t1 st) =
  Client.handleRealTimeUpdate m2 t2 st.
Proof.
  intros Hr Hc Hid. unfold Client.handleRealTimeUpdate. cbn. f_equal.
  - now apply applyUpdate_twice.
  - destruct (Client.allData st) as [|row rows] eqn:E; [reflexivity|].
    cbn [List.length Nat.ltb Nat.leb].
    rewrite applyUpdate_length. cbn [List.length Nat.leb].
    now apply applyUpdate_twice.
Qed.

Lemma applyUpdate_commute (m1 m2 : Client.WSMessage) (k : string)
    (rows : list Client.DataRow) :
  Client.rowId m1 <> Client.rowId m2 \/ Client.columnId m1 <> Client.columnId m2 ->
  Client.columnId m1 <> "id" ->
  Client.columnId m2 <> "id" ->
  map (Client.getProp k) (Client.applyUpdate m1 (Client.applyUpdate m2 rows)) =
  map (Client.getProp k) (Client.applyUpdate m2 (Client.applyUpdate m1 rows)).
Proof.
  intros Hdiff H1 H2. unfold Client.applyUpdate. rewrite !map_map.
  apply map_ext. intros row.
  destruct (Client.hasId (Client.rowId m1) row) eqn:E1;
    destruct (Client.hasId (Client.rowId m2) row) eqn:E2;
    rewrite ?hasId_setProp, ?E1, ?E2 by assumption; try reflexivity.
  assert (Hc : Client.columnId m1 <> Client.columnId m2).
  { destruct Hdiff as [Hr|Hc]; [|exact Hc].
    exfalso. apply Hr. eapply hasId_unique; eassumption. }
  destruct (String.eqb_spec k (Client.columnId m1)) as [->|Hk1].
  - rewrite getProp_setProp_same.
    rewrite getProp_setProp_other by assumption.
    now rewrite getProp_setProp_same.
  - rewrite (getProp_setProp_other (Client.columnId m1)) by assumption.
    destruct (String.eqb_spec k (Client.columnId m2)) as [->|Hk2].
    + now rewrite !getProp_setProp_same.
    + now rewrite !getProp_setProp_other by assumption.
Qed.

(** X21. Updates of different cells commute on the page: for two updates
    that differ in [rowId] or in [columnId] (neither on the [id] column),
    every loaded row shows the same value under every property whichever of
    the two arrives first. *)
Theorem updates_of_different_cells_commute
    (m1 m2 : Client.WSMessage) (t1 t2 : string) (st : Client.State) (k : string) :
  Client.rowId m1 <> Client.rowId m2 \/ Client.columnId m1 <> Client.columnId m2 ->
  Client.columnId m1 <> "id" ->
  Client.columnId m2 <> "id" ->
  map (Client.getProp k)
      (Client.loadedRows
         (Client.handleRealTimeUpdate m1 t1 (Client.handleRealTimeUpdate m2 t2 st))) =
  map (Client.getProp k)
      (Client.loadedRows
         (Client.handleRealTimeUpdate m2 t2 (Client.handleRealTimeUpdate m1 t1 st))).
Proof.
  intros Hdiff H1 H2. cbn. now apply applyUpdate_commute.
Qed.

Lemma update_of_unknown_row_is_dropped_witness :
  Client.loadedRows
    (Client.handleRealTimeUpdate (revenueUpdate "row_7" 5) "12:00:00" samplePage)
    = Client.loadedRows samplePage /\
  Client.allData
    (Client.handleRealTimeUpdate (revenueUpdate "row_7" 5) "12:00:00" samplePage)
    = Client.allData samplePage.
Proof.
  apply (update_of_unknown_row_is_dropped (revenueUpdate "row_7" 5) "12:00:00"
           samplePage).
  - intros row [<-|[<-|[]]]; reflexivity.
  - intros row [].
Defined.

Lemma last_update_wins_witness :
  Client.handleRealTimeUpdate (revenueUpdate "row_42" 200) "12:00:02"
    (Client.handleRealTimeUpdate (revenueUpdate "row_42" 100) "12:00:01" samplePage) =
  Client.handleRealTimeUpdate (revenueUpdate "row_42" 200) "12:00:02" samplePage.
Proof.
  apply (last_update_wins (revenueUpdate "row_42" 100) (revenueUpdate "row_42" 200)).
  - reflexivity.
  - reflexivity.
  - discriminate.
Defined.

Lemma updates_of_different_cells_commute_witness :
  map (Client.getProp "status")
      (Client.loadedRows
         (Client.handleRealTimeUpdate (revenueUpdate "row_42" 100) "12:00:02"
            (Client.handleRealTimeUpdate (statusUpdate "row_42" "Inactive")
               "12:00:01" samplePage))) =
  map (Client.getProp "status")
      (Client.loadedRows
         (Client.handleRealTimeUpdate (statusUpdate "row_42" "Inactive") "12:00:01"
            (Client.handleRealTimeUpdate (revenueUpdate "row_42" 100)
               "12:00:02" samplePage))).
Proof.
  apply (updates_of_different_cells_commute (revenueUpdate "row_42" 100)
           (statusUpdate "row_42" "Inactive")).
  - right. discriminate.
  - discriminate.
  - discriminate.
Defined.

(** * The first server *)

Lemma first_onSigint_ok (w : World) :
  (forall c, In c (clients w) -> closeThrows (sockets w c) = false) ->
  FirstServer.onSigint w =
  Normal tt
    (set_callbacks true (onHttpClosed w)
       (add_effects ([Log ShuttingDown] ++ goodbyes (clients w) ++ [WssClose]) w)).
Proof.
  intros H. unfold FirstServer.onSigint.
  unfold bind at 1. unfold log, emit, modify. rewrite add_effect_one.
  unfold bind at 1. unfold gets at 1. unfold bind at 1.
  change (clients (add_effects [Log ShuttingDown] w)) with (clients w).
  rewrite closeLoop_ok by exact H.
  unfold bind. rewrite add_effect_one, !add_effects_app. reflexivity.
Qed.

(** X22. Shutdown of the first server. On SIGINT, provided no [close] of a
    registered connection throws, it calls
    [close(1000, 'Server shutting down')] on every registered connection in
    registry order, then [wss.close]; when that calls back, [server.close];
    when that calls back, it exits with code 0. There is no store to
    close. *)
Theorem first_server_shutdown (w : World) :
  status w = Live ->
  (forall c, In c (clients w) -> closeThrows (sockets w c) = false) ->
  let w' := FirstServer.run
              [FirstServer.Sigint; FirstServer.WssClosed; FirstServer.HttpClosed] w in
  trace w' =
    trace w ++
    [Log ShuttingDown] ++
    map (fun c => Close c 1000 "Server shutting down") (clients w) ++
    [WssClose; Log WebSocketServerClosed; ServerClose; Log HttpServerClosed; Exit 0] /\
  status w' = Exited 0 /\
  clients w' = clients w.
Proof.
  intros Hlive H w'. subst w'.
  unfold FirstServer.run, run_events. cbn [fold_left].
  assert (E : FirstServer.step FirstServer.Sigint w =
              set_callbacks true (onHttpClosed w)
                (add_effects ([Log ShuttingDown] ++ goodbyes (clients w) ++ [WssClose]) w)).
  { unfold FirstServer.step, run_handler. now rewrite Hlive, (first_onSigint_ok w H). }
  rewrite E. fold (goodbyes (clients w)).
  destruct w as [cs so pe np uri cl co a b st tr]. cbn in Hlive. subst st.
  cbn; repeat (rewrite <- app_assoc; cbn); repeat split; reflexivity.
Qed.

Lemma first_server_shutdown_witness :
  let w' := FirstServer.run
              [FirstServer.Sigint; FirstServer.WssClosed; FirstServer.HttpClosed]
              (serving [1; 2]) in
  trace w' =
    trace (serving [1; 2]) ++
    [Log ShuttingDown] ++
    map (fun c => Close c 1000 "Server shutting down") (clients (serving [1; 2])) ++
    [WssClose; Log WebSocketServerClosed; ServerClose; Log HttpServerClosed; Exit 0] /\
  status w' = Exited 0 /\
  clients w' = clients (serving [1; 2]).
Proof.
  apply (first_server_shutdown (serving [1; 2])).
  - reflexivity.
  - intros c _. reflexivity.
Defined.

(** * From one page to the others *)

Lemma strictEquals_hasId (row : Client.DataRow) (r : string) :
  Page.strictEquals (Client.getProp "id" row) (Some (JStr r)) = Client.hasId r row.
Proof.
  unfold Client.hasId.
  destruct (Client.getProp "id" row) as [[ | | |s| | ]|]; reflexivity.
Qed.

Lemma runtime_applyUpdate_typed (ToPropertyKey : value -> string)
    (r c : string) (v : value) (rows : list Client.DataRow) :
  (forall s, ToPropertyKey (Some (JStr s)) = s) ->
  Page.applyUpdate ToPropertyKey (Some (JStr r)) (Some (JStr c)) v rows =
  Client.applyUpdate (Client.mkWSMessage r c v) rows.
Proof.
  intros Hkey. unfold Page.applyUpdate, Client.applyUpdate. cbn.
  apply map_ext. intros row. now rewrite strictEquals_hasId, Hkey.
Qed.

(** X24. From one page to the others. When a cell of a row with [id] r is
    edited on a page whose socket is open, the page sends an update; the
    relay's handler takes it and is suspended on its three fields; and a
    page that receives the relay's broadcast of it applies exactly the
    update (r, column, new value) that was made, whatever timestamp the
    relay put on it. *)
Theorem edit_reaches_the_other_pages
    (ToPropertyKey : value -> string) (data : Client.DataRow)
    (r c : string) (v : value) (count : nat) :
  (forall s, ToPropertyKey (Some (JStr s)) = s) ->
  Client.getProp "id" data = Some (JStr r) ->
  exists m u,
    Page.onCellValueChanged true data (Some c) v count = (count + 1, Some m) /\
    (forall ws w,
       exists w', Relay.onMessage ws (Parsed m) w = Normal tt w' /\
                  pending w' = pending w ++ [(nextPromise w, u)]) /\
    (forall now time st,
       Page.onmessage ToPropertyKey (Parsed (Relay.broadcastMessage u now)) time st =
       Client.handleRealTimeUpdate (Client.mkWSMessage r c v) time st).
Proof.
  intros Hkey Hid.
  unfold Page.onCellValueChanged. rewrite Hid.
  eexists. exists (mkCellUpdate (Some (JStr r)) (Some (JStr c)) v).
  split; [reflexivity|]. split.
  - intros ws w.
    destruct v as [v|]; unfold JSON_stringify; cbn [stringify];
      rewrite onMessage_update by reflexivity;
      eexists; split; reflexivity.
  - intros now time st.
    destruct v as [v|]; cbn;
      unfold Page.handleRealTimeUpdate, Client.handleRealTimeUpdate; cbn;
      rewrite !runtime_applyUpdate_typed by exact Hkey; reflexivity.
Qed.

Lemma edit_reaches_the_other_pages_witness :
  exists m u,
    Page.onCellValueChanged true
      [ ("id", Some (JStr "row_42")); ("revenue", Some (JNum 200)) ]
      (Some "revenue") (Some (JNum 500000)) 0 = (0 + 1, Some m) /\
    (forall ws w,
       exists w', Relay.onMessage ws (Parsed m) w = Normal tt w' /\
                  pending w' = pending w ++ [(nextPromise w, u)]) /\
    (forall now time st,
       Page.onmessage keyOfString (Parsed (Relay.broadcastMessage u now)) time st =
       Client.handleRealTimeUpdate
         (Client.mkWSMessage "row_42" "revenue" (Some (JNum 500000))) time st).
Proof.
  apply (edit_reaches_the_other_pages keyOfString
           [ ("id", Some (JStr "row_42")); ("revenue", Some (JNum 200)) ]
           "row_42" "revenue" (Some (JNum 500000)) 0).
  - intros s. reflexivity.
  - reflexivity.
Defined.

(** X25. The page acts on updates only: a payload that is not JSON, the
    relay's greeting, and any parsed message whose [type] is not ['update']
    leave the rows, [allData] and the last-update time as they are; and with
    a closed socket an edit is counted but nothing is sent. *)
Theorem page_acts_on_updates_only
    (ToPropertyKey : value -> string) (time : string) (st : Client.State) :
  Page.onmessage ToPropertyKey SyntaxError time st = st /\
  Page.onmessage ToPropertyKey (Parsed Relay.connectedMessage) time st = st /\
  (forall message,
     (forall fields, message = JObj fields ->
                     isUpdate (lookup "type" fields) = false) ->
     Page.onmessage ToPropertyKey (Parsed message) time st = st) /\
  (forall data field newValue count,
     Page.onCellValueChanged false data field newValue count = (count + 1, None)).
Proof.
  repeat split.
  intros message H. destruct message; try reflexivity.
  cbn. now rewrite (H fields eq_refl).
Qed.

(** * The generator leaves everything else alone *)

Lemma onInterval_shape (r1 r2 r3 : Q) (w : World) :
  exists m sent logs,
    final (Baseline.onInterval r1 r2 r3 w) =
      add_effects (map (fun c => Send c m) sent ++ map Log logs) w /\
    forall c, In c sent ->
      In c (clients w) /\ isOpen (sockets w c) = true /\
      sendThrows (sockets w c) = false.
Proof.
  unfold Baseline.onInterval. unfold bind at 1. unfold gets at 1.
  destruct (0 <? List.length (clients w)).
  - set (row := ("row_" ++ _)%string).
    set (col := Baseline.at_index _ _).
    unfold bind at 1.
    pose proof (generateUpdateValue_pure col r3 w) as Hg.
    destruct (Baseline.generateUpdateValue col r3 w) as [v w1|w1];
      cbn in Hg; subst w1.
    + unfold bind at 1. rewrite broadcast_unfold.
      destruct (sendLoop_sends_open (Baseline.syntheticMessage row col v)
                  (clients w) w) as (sent & Hsent & E).
      exists (Baseline.syntheticMessage row col v), sent.
      destruct (sendLoop (Baseline.syntheticMessage row col v) (clients w) w)
        as [[] w2|w2]; cbn in E; subst w2.
      * eexists [_]. unfold log, emit, modify.
        rewrite add_effect_one, add_effects_app. split; [reflexivity | exact Hsent].
      * exists []. cbn [map]. rewrite app_nil_r. split; [reflexivity | exact Hsent].
    + exists JNull, [], []. cbn. rewrite add_effects_nil. split; [reflexivity | easy].
  - exists JNull, [], []. cbn. rewrite add_effects_nil. split; [reflexivity | easy].
Qed.

Lemma writes_map_Send (m : json) (sent : list ConnId) :
  writes (map (fun c => Send c m) sent) = [].
Proof. induction sent as [|c l IH]; cbn; congruence. Qed.

Lemma writes_logs (logs : list LogLine) : writes (map Log logs) = [].
Proof. induction logs; cbn; auto. Qed.

(** X23. The generator only broadcasts. Whatever the draws and the sockets,
    a timer tick leaves the registry and the sockets as they are, calls
    neither [updateCell] nor the store, closes no connection, and sends only
    to registered connections that are open. *)
Theorem generator_only_broadcasts (r1 r2 r3 : Q) (w : World) :
  let w' := Baseline.step (Baseline.Tick r1 r2 r3) w in
  clients w' = clients w /\
  sockets w' = sockets w /\
  writes (trace w') = writes (trace w) /\
  issued (trace w') = issued (trace w) /\
  closes (trace w') = closes (trace w) /\
  forall c m, In (c, m) (sends (trace w')) ->
    In (c, m) (sends (trace w)) \/
    (In c (clients w) /\ isOpen (sockets w c) = true).
Proof.
  cbn zeta. unfold Baseline.step.
  destruct (onInterval_shape r1 r2 r3 w) as (m & sent & logs & E & Hsent).
  assert (H : forall w',
             w' = add_effects (map (fun c => Send c m) sent ++ map Log logs) w \/
             w' = set_status Faulted
                    (add_effects (map (fun c => Send c m) sent ++ map Log logs) w) \/
             w' = w ->
             clients w' = clients w /\
             sockets w' = sockets w /\
             writes (trace w') = writes (trace w) /\
             issued (trace w') = issued (trace w) /\
             closes (trace w') = closes (trace w) /\
             forall c m0, In (c, m0) (sends (trace w')) ->
               In (c, m0) (sends (trace w)) \/
               (In c (clients w) /\ isOpen (sockets w c) = true)).
  { intros w' [->|[->| ->]]; cbn;
      rewrite ?writes_app, ?issued_app, ?closes_app, ?sends_app,
        ?writes_map_Send, ?writes_logs, ?issued_map_Send,
        ?(issued_benign _ (benign_logs logs)), ?closes_map_Send, ?closes_logs,
        ?sends_map_Send, ?(sends_benign _ (benign_logs logs)), ?app_nil_r;
      repeat split; auto;
      intros c m0 Hin; apply in_app_or in Hin;
      (destruct Hin as [Hold|Hnew]; [now left | right]);
      apply in_map_iff in Hnew; destruct Hnew as (c' & Heq & Hc');
      injection Heq as -> _; destruct (Hsent c Hc') as (A & B & _); auto. }
  apply H.
  destruct (run_handler_cases (Baseline.onInterval r1 r2 r3) w) as [->|[->| ->]];
    rewrite ?E; auto.
Qed.

(** * Seeding the collection *)

Lemma range_app (s : N) (a b : nat) :
  Seed.range s (a + b) = Seed.range s a ++ Seed.range (s + N.of_nat a) b.
Proof.
  revert s. induction a as [|a IH]; intros s.
  - cbn [Nat.add Seed.range app]. f_equal. lia.
  - cbn [Nat.add Seed.range app]. rewrite IH. do 3 f_equal. lia.
Qed.

Lemma range_length (s : N) (n : nat) : List.length (Seed.range s n) = n.
Proof. revert s. induction n as [|n IH]; intros s; cbn; auto. Qed.

Lemma range_In (s : N) (n : nat) (i : N) :
  In i (Seed.range s n) <-> (s <= i < s + N.of_nat n)%N.
Proof.
  revert s. induction n as [|n IH]; intros s; cbn [Seed.range In].
  - lia.
  - rewrite IH. lia.
Qed.

Lemma insertBatches_turn (rowData : N -> Client.DataRow) (now : N -> string * string)
    (r : Seed.Replies) (fuel : nat) (j : N)
    (stored : list Seed.Document) (logged : list Seed.Line) :
  (j < 100)%N ->
  Seed.insertBatches rowData now (S fuel) (Seed.BATCH_SIZE * j) r stored logged =
  match Seed.insertMany r (Seed.BATCH_SIZE * j) with
  | None =>
      Seed.insertBatches rowData now fuel (Seed.BATCH_SIZE * (j + 1)) r
        (stored ++ batchOf rowData now j) (logged ++ [batchLine j])
  | Some k => (stored ++ firstn k (batchOf rowData now j), logged, Seed.Thrown)
  end.
Proof.
  intros Hj. cbn [Seed.insertBatches].
  assert (Hlt : (Seed.BATCH_SIZE * j <? Seed.TOTAL_ROWS)%N = true)
    by (apply N.ltb_lt; unfold Seed.BATCH_SIZE, Seed.TOTAL_ROWS; lia).
  rewrite Hlt.
  assert (Hend : N.min (Seed.BATCH_SIZE * j + Seed.BATCH_SIZE) Seed.TOTAL_ROWS =
                 (Seed.BATCH_SIZE * (j + 1))%N)
    by (unfold Seed.BATCH_SIZE, Seed.TOTAL_ROWS; lia).
  rewrite Hend.
  assert (Hlen : (Seed.BATCH_SIZE * (j + 1) - Seed.BATCH_SIZE * j = Seed.BATCH_SIZE)%N)
    by (unfold Seed.BATCH_SIZE; lia).
  rewrite Hlen.
  assert (Hnext : (Seed.BATCH_SIZE * j + Seed.BATCH_SIZE = Seed.BATCH_SIZE * (j + 1))%N)
    by (unfold Seed.BATCH_SIZE; lia).
  rewrite Hnext. fold (batchOf rowData now j).
  destruct (Seed.insertMany r (Seed.BATCH_SIZE * j)) as [k|]; [reflexivity|].
  unfold batchLine. unfold batchOf at 2. rewrite length_map, range_length.
  reflexivity.
Qed.

Lemma insertBatches_end (rowData : N -> Client.DataRow) (now : N -> string * string)
    (r : Seed.Replies) (fuel : nat)
    (stored : list Seed.Document) (logged : list Seed.Line) :
  Seed.insertBatches rowData now fuel (Seed.BATCH_SIZE * 100) r stored logged =
  (stored, logged, Seed.Returned).
Proof. destruct fuel; reflexivity. Qed.

Lemma insertBatches_complete (rowData : N -> Client.DataRow) (now : N -> string * string)
    (r : Seed.Replies) :
  (forall i, (i < 100)%N -> Seed.insertMany r (Seed.BATCH_SIZE * i) = None) ->
  forall (n : nat) (fuel : nat) (j : N) stored logged,
    (j + N.of_nat n = 100)%N ->
    n <= fuel ->
    Seed.insertBatches rowData now fuel (Seed.BATCH_SIZE * j) r stored logged =
    (stored ++ batchesFrom rowData now j n,
     logged ++ map batchLine (Seed.range j n),
     Seed.Returned).
Proof.
  intros Hok. induction n as [|n IH]; intros fuel j stored logged Hj Hfuel.
  - assert (j = 100%N) by lia. subst j.
    rewrite insertBatches_end. cbn. now rewrite !app_nil_r.
  - destruct fuel as [|fuel]; [lia|].
    rewrite insertBatches_turn by lia. rewrite Hok by lia.
    replace (j + 1)%N with (N.succ j) by lia.
    rewrite IH by lia.
    cbn [batchesFrom Seed.range map]. now rewrite <- !app_assoc.
Qed.

Lemma batchesFrom_rows (rowData : N -> Client.DataRow) (now : N -> string * string)
    (j : N) (n : nat) :
  batchesFrom rowData now j n =
  map (Seed.document rowData now)
      (Seed.range (Seed.BATCH_SIZE * j) (n * N.to_nat Seed.BATCH_SIZE)).
Proof.
  revert j. induction n as [|n IH]; intros j; [reflexivity|].
  cbn [batchesFrom Nat.mul]. rewrite range_app, map_app, IH. unfold batchOf.
  do 3 f_equal. unfold Seed.BATCH_SIZE. lia.
Qed.

Lemma connectToDatabase_reachable (r : Seed.Replies) (w : World) :
  reachable r w = true ->
  exists es,
    Relay.connectToDatabase (Seed.connect r) w =
      Normal true (add_effects es (set_db true true w)) /\
    Forall benign es.
Proof.
  unfold reachable. intros H.
  destruct w as [cs so pe np uri cl co a b st tr].
  destruct r as [[cok iok uo] ct ins]. cbn in H.
  unfold Relay.connectToDatabase, try_catch, bind, gets, modify, log, emit,
    throw, ret; cbn.
  destruct uri, cl, co, cok, iok, ct; try discriminate; cbn;
    unfold add_effect, add_effects, set_db; cbn;
    repeat (rewrite <- app_assoc; cbn).
  all: first [ exists []; cbn; rewrite app_nil_r; split; [reflexivity | constructor]
             | eexists; split; [reflexivity | repeat constructor] ].
Qed.

Lemma connectToDatabase_unreachable (r : Seed.Replies) (w : World) :
  reachable r w = false ->
  Seed.countThrows r = true \/
  (exists w', Relay.connectToDatabase (Seed.connect r) w = Abrupt w') \/
  (exists w', Relay.connectToDatabase (Seed.connect r) w = Normal false w').
Proof.
  unfold reachable. intros H.
  destruct w as [cs so pe np uri cl co a b st tr].
  destruct r as [[cok iok uo] ct ins]. cbn in H.
  unfold Relay.connectToDatabase, try_catch, bind, gets, modify, log, emit,
    throw, ret; cbn.
  destruct uri, cl, co, cok, iok, ct; try discriminate; cbn; eauto.
Qed.

Lemma initializeData_reachable (rowData : N -> Client.DataRow) (now : N -> string * string)
    (r : Seed.Replies) (w : World) (stored : list Seed.Document) :
  reachable r w = true ->
  exists w',
    mongoUri w' = mongoUri w /\ client w' = true /\ collection w' = true /\
    clients w' = clients w /\ sends (trace w') = sends (trace w) /\
    Seed.initializeData rowData now r w stored =
      if 0 <? List.length stored
      then Seed.mkResult w' stored [Seed.AlreadyContains (List.length stored)]
             Seed.Returned
      else
        match Seed.insertBatches rowData now Seed.turns 0 r stored
                [Seed.Initializing; Seed.Creating Seed.TOTAL_ROWS] with
        | (stored', logged, Seed.Returned) =>
            Seed.mkResult w' stored'
              (logged ++ [Seed.Initialized Seed.TOTAL_ROWS]) Seed.Returned
        | (stored', logged, Seed.Thrown) =>
            Seed.mkResult w' stored' (logged ++ [Seed.ErrorInitializing])
              Seed.Thrown
        end.
Proof.
  intros H. destruct (connectToDatabase_reachable r w H) as (es & E & Hb).
  exists (add_effects es (set_db true true w)).
  repeat (split; [reflexivity|]).
  split; [cbn; now rewrite sends_app, (sends_benign es Hb), app_nil_r|].
  unfold Seed.initializeData. rewrite E.
  unfold reachable in H. apply andb_true_iff in H. destruct H as [_ H].
  apply negb_true_iff in H. rewrite H. reflexivity.
Qed.

Lemma initializeData_unreachable (rowData : N -> Client.DataRow) (now : N -> string * string)
    (r : Seed.Replies) (w : World) (stored : list Seed.Document) :
  reachable r w = false ->
  Seed.outcome (Seed.initializeData rowData now r w stored) = Seed.Thrown /\
  Seed.documents (Seed.initializeData rowData now r w stored) = stored /\
  Seed.lines (Seed.initializeData rowData now r w stored) =
    [Seed.ErrorInitializing].
Proof.
  intros H. unfold Seed.initializeData.
  destruct (connectToDatabase_unreachable r w H) as [Hc|[(w' & E)|(w' & E)]].
  - destruct (Relay.connectToDatabase (Seed.connect r) w) as [[|] w'|w'];
      rewrite ?Hc; auto.
  - rewrite E. auto.
  - rewrite E. auto.
Qed.

Lemma insertBatches_returned (rowData : N -> Client.DataRow) (now : N -> string * string)
    (r : Seed.Replies) (n : nat) :
  forall (fuel : nat) (j : N) stored logged,
    (j + N.of_nat n = 100)%N ->
    n <= fuel ->
    snd (Seed.insertBatches rowData now fuel (Seed.BATCH_SIZE * j) r stored logged) =
      Seed.Returned ->
    forall i, (j <= i < 100)%N -> Seed.insertMany r (Seed.BATCH_SIZE * i) = None.
Proof.
  induction n as [|n IH]; intros fuel j stored logged Hj Hfuel Hret i Hi; [lia|].
  destruct fuel as [|fuel]; [lia|].
  rewrite insertBatches_turn in Hret by lia.
  destruct (Seed.insertMany r (Seed.BATCH_SIZE * j)) as [k|] eqn:E;
    [discriminate|].
  destruct (N.eq_dec i j) as [->|Hne]; [exact E|].
  apply (IH fuel (j + 1)%N _ _ ltac:(lia) ltac:(lia) Hret). lia.
Qed.

Lemma firstn_range (s : N) (m n : nat) :
  firstn m (Seed.range s n) = Seed.range s (Nat.min m n).
Proof.
  revert s n. induction m as [|m IH]; intros s [|n]; cbn; try reflexivity.
  now rewrite IH.
Qed.

Lemma insertBatches_prefix (rowData : N -> Client.DataRow) (now : N -> string * string)
    (r : Seed.Replies) (n : nat) :
  forall (fuel : nat) (j : N) stored logged,
    (j + N.of_nat n = 100)%N ->
    n <= fuel ->
    exists m,
      m <= n * N.to_nat Seed.BATCH_SIZE /\
      fst (fst (Seed.insertBatches rowData now fuel (Seed.BATCH_SIZE * j) r
                  stored logged)) =
        stored ++ map (Seed.document rowData now)
                      (Seed.range (Seed.BATCH_SIZE * j) m).
Proof.
  induction n as [|n IH]; intros fuel j stored logged Hj Hfuel.
  - assert (j = 100%N) by lia. subst j. rewrite insertBatches_end.
    exists 0. cbn. now rewrite app_nil_r.
  - destruct fuel as [|fuel]; [lia|].
    rewrite insertBatches_turn by lia.
    destruct (Seed.insertMany r (Seed.BATCH_SIZE * j)) as [k|].
    + exists (Nat.min k (N.to_nat Seed.BATCH_SIZE)). split; [lia|].
      cbn [fst]. unfold batchOf. now rewrite firstn_map, firstn_range.
    + destruct (IH fuel (j + 1)%N (stored ++ batchOf rowData now j)
                  (logged ++ [batchLine j]) ltac:(lia) ltac:(lia))
        as (m & Hm & E).
      exists (N.to_nat Seed.BATCH_SIZE + m). split; [lia|].
      rewrite E, <- app_assoc. f_equal. unfold batchOf.
      rewrite range_app, map_app. do 3 f_equal.
      unfold Seed.BATCH_SIZE. lia.
Qed.

Lemma insertBatches_interrupted (rowData : N -> Client.DataRow) (now : N -> string * string)
    (r : Seed.Replies) (j1 : N) (k : nat) :
  (j1 < 100)%N ->
  Seed.insertMany r (Seed.BATCH_SIZE * j1) = Some k ->
  forall (n : nat) (fuel : nat) (j : N) stored logged,
    (j + N.of_nat n = j1)%N ->
    n < fuel ->
    (forall i, (j <= i < j1)%N -> Seed.insertMany r (Seed.BATCH_SIZE * i) = None) ->
    Seed.insertBatches rowData now fuel (Seed.BATCH_SIZE * j) r stored logged =
    (stored ++ batchesFrom rowData now j n ++ firstn k (batchOf rowData now j1),
     logged ++ map batchLine (Seed.range j n),
     Seed.Thrown).
Proof.
  intros Hj1 Hfail.
  induction n as [|n IH]; intros fuel j stored logged Hj Hfuel Hok.
  - assert (j = j1) by lia. subst j.
    destruct fuel as [|fuel]; [lia|].
    rewrite insertBatches_turn by lia. rewrite Hfail. cbn.
    now rewrite app_nil_r.
  - destruct fuel as [|fuel]; [lia|].
    rewrite insertBatches_turn by lia. rewrite Hok by lia.
    replace (j + 1)%N with (N.succ j) by lia.
    rewrite IH; [|lia|lia|intros i Hi; apply Hok; lia].
    cbn [batchesFrom Seed.range map]. now rewrite <- !app_assoc.
Qed.

Lemma enough_turns : 100 <= Seed.turns.
Proof. vm_compute. lia. Qed.

Lemma batch_starts (j : N) :
  (Seed.BATCH_SIZE * j < Seed.TOTAL_ROWS)%N <-> (j < 100)%N.
Proof. unfold Seed.BATCH_SIZE, Seed.TOTAL_ROWS. lia. Qed.

Lemma all_batches (rowData : N -> Client.DataRow) (now : N -> string * string) :
  batchesFrom rowData now 0 100 = seedRows rowData now (N.to_nat Seed.TOTAL_ROWS).
Proof.
  rewrite batchesFrom_rows. unfold seedRows.
  replace (Seed.BATCH_SIZE * 0)%N with 0%N by reflexivity.
  replace (100 * N.to_nat Seed.BATCH_SIZE) with (N.to_nat Seed.TOTAL_ROWS);
    [reflexivity|].
  unfold Seed.BATCH_SIZE, Seed.TOTAL_ROWS. lia.
Qed.

Lemma string_of_N_inj (a b : N) :
  Seed.string_of_N a = Seed.string_of_N b -> a = b.
Proof.
  unfold Seed.string_of_N. intros H.
  apply (f_equal NilEmpty.uint_of_string) in H.
  rewrite !NilEmpty.usu in H. injection H as H.
  apply (f_equal N.of_uint) in H.
  now rewrite !DecimalN.Unsigned.of_to in H.
Qed.

Lemma range_NoDup (s : N) (n : nat) : NoDup (Seed.range s n).
Proof.
  revert s. induction n as [|n IH]; intros s; cbn; constructor; auto.
  rewrite range_In. lia.
Qed.

Lemma seedRows_ids (rowData : N -> Client.DataRow) (now : N -> string * string) (m : nat) :
  NoDup (map Seed.row_id (seedRows rowData now m)).
Proof.
  unfold seedRows. rewrite map_map.
  assert (H : forall l : list N, NoDup l ->
            NoDup (map (fun i => Seed.row_id (Seed.document rowData now i)) l)).
  { induction 1 as [|x l Hx Hl IH]; cbn [map]; constructor; auto.
    rewrite in_map_iff. intros (y & Hy & Hin).
    cbn in Hy. injection Hy as Hy. apply string_of_N_inj in Hy.
    now subst y. }
  apply H, range_NoDup.
Qed.

Lemma seedRows_length (rowData : N -> Client.DataRow) (now : N -> string * string) (m : nat) :
  List.length (seedRows rowData now m) = m.
Proof. unfold seedRows. now rewrite length_map, range_length. Qed.

(** X26. Seeding an empty collection returns normally exactly when the store
    can be used and the [insertMany] of every batch succeeds; in every other
    case [initializeData] throws. *)
Theorem seed_returns_iff_every_step_succeeds
    (rowData : N -> Client.DataRow) (now : N -> string * string) (r : Seed.Replies) (w : World) :
  Seed.outcome (Seed.initializeData rowData now r w []) = Seed.Returned <->
  reachable r w = true /\
  forall j, (Seed.BATCH_SIZE * j < Seed.TOTAL_ROWS)%N ->
            Seed.insertMany r (Seed.BATCH_SIZE * j) = None.
Proof.
  destruct (reachable r w) eqn:Hr.
  - destruct (initializeData_reachable rowData now r w [] Hr)
      as (w' & _ & _ & _ & _ & _ & E).
    rewrite E. cbn [List.length Nat.ltb Nat.leb].
    set (logged := [Seed.Initializing; Seed.Creating Seed.TOTAL_ROWS]).
    split.
    + intros Hout. split; [reflexivity|]. intros j Hj. apply batch_starts in Hj.
      pose proof (insertBatches_returned rowData now r 100 Seed.turns 0 [] logged
                    eq_refl enough_turns) as H.
      change (Seed.BATCH_SIZE * 0)%N with 0%N in H.
      apply H; [|lia].
      destruct (Seed.insertBatches rowData now Seed.turns 0 r [] logged)
        as [[d l] [|]]; [reflexivity | discriminate].
    + intros [_ Hall].
      assert (Hall' : forall i, (i < 100)%N ->
                Seed.insertMany r (Seed.BATCH_SIZE * i) = None)
        by (intros i Hi; apply Hall, batch_starts, Hi).
      pose proof (insertBatches_complete rowData now r Hall' 100 Seed.turns 0 []
                    logged eq_refl enough_turns) as H.
      change (Seed.BATCH_SIZE * 0)%N with 0%N in H. rewrite H. reflexivity.
  - destruct (initializeData_unreachable rowData now r w [] Hr) as (Ho & _).
    rewrite Ho. split; [discriminate | intros [H _]; discriminate].
Qed.

(** X27. A successful seed is complete. When the store can be used and every
    [insertMany] succeeds, seeding an empty collection returns with exactly
    the documents of the rows 0, ..., 99999 stored, in order, and one
    [Inserted batch] line for each of the 100 batches between the two
    opening lines and the closing one. *)
Theorem fresh_seed_is_complete
    (rowData : N -> Client.DataRow) (now : N -> string * string) (r : Seed.Replies) (w : World) :
  reachable r w = true ->
  (forall j, (Seed.BATCH_SIZE * j < Seed.TOTAL_ROWS)%N ->
             Seed.insertMany r (Seed.BATCH_SIZE * j) = None) ->
  Seed.outcome (Seed.initializeData rowData now r w []) = Seed.Returned /\
  Seed.documents (Seed.initializeData rowData now r w []) =
    seedRows rowData now (N.to_nat Seed.TOTAL_ROWS) /\
  List.length (Seed.documents (Seed.initializeData rowData now r w [])) =
    N.to_nat Seed.TOTAL_ROWS /\
  Seed.lines (Seed.initializeData rowData now r w []) =
    [Seed.Initializing; Seed.Creating Seed.TOTAL_ROWS] ++
    map batchLine (Seed.range 0 100) ++
    [Seed.Initialized Seed.TOTAL_ROWS].
Proof.
  intros Hr Hall.
  destruct (initializeData_reachable rowData now r w [] Hr)
    as (w' & _ & _ & _ & _ & _ & E).
  rewrite E. cbn [List.length Nat.ltb Nat.leb].
  set (logged := [Seed.Initializing; Seed.Creating Seed.TOTAL_ROWS]).
  assert (Hall' : forall i, (i < 100)%N ->
            Seed.insertMany r (Seed.BATCH_SIZE * i) = None)
    by (intros i Hi; apply Hall, batch_starts, Hi).
  pose proof (insertBatches_complete rowData now r Hall' 100 Seed.turns 0 []
                logged eq_refl enough_turns) as H.
  change (Seed.BATCH_SIZE * 0)%N with 0%N in H. rewrite H.
  cbn [Seed.outcome Seed.documents Seed.lines app].
  rewrite all_batches, seedRows_length.
  repeat split.
Qed.

Lemma fresh_seed_is_complete_witness :
  let r := Seed.mkReplies stored false (fun _ => None) in
  let res := Seed.initializeData sampleRow at_noon r (degraded []) [] in
  Seed.outcome res = Seed.Returned /\
  Seed.documents res =
    seedRows sampleRow at_noon (N.to_nat Seed.TOTAL_ROWS) /\
  List.length (Seed.documents res) = N.to_nat Seed.TOTAL_ROWS /\
  Seed.lines res =
    [Seed.Initializing; Seed.Creating Seed.TOTAL_ROWS] ++
    map batchLine (Seed.range 0 100) ++
    [Seed.Initialized Seed.TOTAL_ROWS].
Proof.
  apply (fresh_seed_is_complete sampleRow at_noon
           (Seed.mkReplies stored false (fun _ => None)) (degraded []));
    [reflexivity | intros j _; reflexivity].
Defined.

(** X28. Whatever the store does, seeding an empty collection leaves in it a
    prefix of the seed: the documents of the rows 0, ..., m - 1 for some
    m <= 100000, in order, and so no two documents with the same [row_id]. *)
Theorem seed_stores_a_prefix
    (rowData : N -> Client.DataRow) (now : N -> string * string) (r : Seed.Replies) (w : World) :
  exists m,
    m <= N.to_nat Seed.TOTAL_ROWS /\
    Seed.documents (Seed.initializeData rowData now r w []) =
      seedRows rowData now m /\
    NoDup (map Seed.row_id
             (Seed.documents (Seed.initializeData rowData now r w []))).
Proof.
  assert (H : exists m, m <= N.to_nat Seed.TOTAL_ROWS /\
            Seed.documents (Seed.initializeData rowData now r w []) =
              seedRows rowData now m).
  { destruct (reachable r w) eqn:Hr.
    - destruct (initializeData_reachable rowData now r w [] Hr)
        as (w' & _ & _ & _ & _ & _ & E).
      rewrite E. cbn [List.length Nat.ltb Nat.leb].
      set (logged := [Seed.Initializing; Seed.Creating Seed.TOTAL_ROWS]).
      destruct (insertBatches_prefix rowData now r 100 Seed.turns 0 [] logged
                  eq_refl enough_turns) as (m & Hm & Ed).
      change (Seed.BATCH_SIZE * 0)%N with 0%N in Ed.
      exists m. split; [unfold Seed.BATCH_SIZE, Seed.TOTAL_ROWS in *; lia|].
      destruct (Seed.insertBatches rowData now Seed.turns 0 r [] logged)
        as [[d l] [|]]; cbn in Ed |- *; exact Ed.
    - destruct (initializeData_unreachable rowData now r w [] Hr) as (_ & Hd & _).
      exists 0. split; [lia | exact Hd]. }
  destruct H as (m & Hm & E). exists m. split; [exact Hm|]. split; [exact E|].
  rewrite E. apply seedRows_ids.
Qed.

(** X29. An interrupted seed is never completed. When the [insertMany] of
    batch [j] fails after storing [k] documents of it (the earlier batches
    having succeeded), [initializeData] throws and leaves the rows
    0, ..., 1000 j + k - 1 in the collection; if that is at least one row,
    a later run that can use the store finds the collection non-empty and
    returns without inserting anything. *)
Theorem interrupted_seed_is_never_completed
    (rowData : N -> Client.DataRow) (now1 now2 : N -> string * string)
    (r1 r2 : Seed.Replies) (w1 w2 : World) (j : N) (k : nat) :
  reachable r1 w1 = true ->
  reachable r2 w2 = true ->
  (Seed.BATCH_SIZE * j < Seed.TOTAL_ROWS)%N ->
  (forall i, (i < j)%N -> Seed.insertMany r1 (Seed.BATCH_SIZE * i) = None) ->
  Seed.insertMany r1 (Seed.BATCH_SIZE * j) = Some k ->
  k < N.to_nat Seed.BATCH_SIZE ->
  0 < N.to_nat (Seed.BATCH_SIZE * j) + k ->
  let partial := seedRows rowData now1 (N.to_nat (Seed.BATCH_SIZE * j) + k) in
  Seed.outcome (Seed.initializeData rowData now1 r1 w1 []) = Seed.Thrown /\
  Seed.documents (Seed.initializeData rowData now1 r1 w1 []) = partial /\
  List.length partial < N.to_nat Seed.TOTAL_ROWS /\
  Seed.outcome (Seed.initializeData rowData now2 r2 w2 partial) = Seed.Returned /\
  Seed.documents (Seed.initializeData rowData now2 r2 w2 partial) = partial /\
  Seed.lines (Seed.initializeData rowData now2 r2 w2 partial) =
    [Seed.AlreadyContains (List.length partial)].
Proof.
  intros Hr1 Hr2 Hj Hok Hfail Hk Hpos partial.
  apply batch_starts in Hj.
  destruct (initializeData_reachable rowData now1 r1 w1 [] Hr1)
    as (w1' & _ & _ & _ & _ & _ & E1).
  destruct (initializeData_reachable rowData now2 r2 w2 partial Hr2)
    as (w2' & _ & _ & _ & _ & _ & E2).
  rewrite E1. cbn [List.length Nat.ltb Nat.leb].
  set (logged := [Seed.Initializing; Seed.Creating Seed.TOTAL_ROWS]).
  assert (Hlen : List.length partial = N.to_nat (Seed.BATCH_SIZE * j) + k)
    by apply seedRows_length.
  pose proof (insertBatches_interrupted rowData now1 r1 j k Hj Hfail
                (N.to_nat j) Seed.turns 0 [] logged) as H.
  change (Seed.BATCH_SIZE * 0)%N with 0%N in H.
  rewrite H; [| lia | pose proof enough_turns; lia | intros i Hi; apply Hok; lia].
  assert (Hp : batchesFrom rowData now1 0 (N.to_nat j) ++
               firstn k (batchOf rowData now1 j) = partial).
  { rewrite batchesFrom_rows. unfold batchOf, partial, seedRows.
    rewrite firstn_map, firstn_range, <- map_app.
    replace (Nat.min k (N.to_nat Seed.BATCH_SIZE)) with k by lia.
    replace (Seed.BATCH_SIZE * 0)%N with 0%N by reflexivity.
    replace (N.to_nat (Seed.BATCH_SIZE * j))
      with (N.to_nat j * N.to_nat Seed.BATCH_SIZE)
      by (unfold Seed.BATCH_SIZE; lia).
    rewrite range_app. do 3 f_equal. unfold Seed.BATCH_SIZE. lia. }
  cbn [app Seed.outcome Seed.documents Seed.lines]. rewrite Hp.
  assert (Hnz : (0 <? List.length partial) = true)
    by (apply Nat.ltb_lt; lia).
  rewrite E2, Hnz. cbn [Seed.outcome Seed.documents Seed.lines].
  repeat split. rewrite Hlen. unfold Seed.BATCH_SIZE, Seed.TOTAL_ROWS in *. lia.
Qed.

Lemma interrupted_seed_is_never_completed_witness :
  let r1 := Seed.mkReplies stored false
              (fun s => if (s =? 2000)%N then Some 7 else None) in
  let r2 := Seed.mkReplies stored false (fun _ => None) in
  let partial := seedRows sampleRow at_noon
                   (N.to_nat (Seed.BATCH_SIZE * 2) + 7) in
  Seed.outcome (Seed.initializeData sampleRow at_noon r1
                  (degraded []) []) = Seed.Thrown /\
  Seed.documents (Seed.initializeData sampleRow at_noon r1
                    (degraded []) []) = partial /\
  List.length partial < N.to_nat Seed.TOTAL_ROWS /\
  Seed.outcome (Seed.initializeData sampleRow next_morning r2
                  (degraded [1]) partial) = Seed.Returned /\
  Seed.documents (Seed.initializeData sampleRow next_morning r2
                    (degraded [1]) partial) = partial /\
  Seed.lines (Seed.initializeData sampleRow next_morning r2
                (degraded [1]) partial) =
    [Seed.AlreadyContains (List.length partial)].
Proof.
  apply (interrupted_seed_is_never_completed
           sampleRow at_noon next_morning
           (Seed.mkReplies stored false
              (fun s => if (s =? 2000)%N then Some 7 else None))
           (Seed.mkReplies stored false (fun _ => None))
           (degraded []) (degraded [1]) 2 7).
  - reflexivity.
  - reflexivity.
  - reflexivity.
  - intros i Hi. cbn [Seed.insertMany].
    destruct (Seed.BATCH_SIZE * i =? 2000)%N eqn:E; [|reflexivity].
    apply N.eqb_eq in E. unfold Seed.BATCH_SIZE in E. lia.
  - reflexivity.
  - vm_compute. lia.
  - vm_compute. lia.
Defined.

(** * Starting without a reachable store *)

Lemma resumeMessage_stuck (u : CellUpdate) (reply : Relay.StoreReply)
    (now : string) (w : World) :
  mongoUri w = true -> client w = true -> collection w = false ->
  Relay.resumeMessage u reply now w =
  Normal tt (add_effects [Log ErrorUpdatingCell; Log ErrorProcessingMessage] w).
Proof.
  intros Huri Hcl Hco.
  destruct w as [cs so pe np uri cl co a b st tr]. cbn in *. subst.
  unfold Relay.resumeMessage, Relay.updateCell, Relay.connectToDatabase,
    try_catch, bind, gets, modify, log, emit, throw, ret; cbn.
  unfold add_effect, add_effects, modify; cbn. now rewrite <- app_assoc.
Qed.

Lemma stuck_step (e : Relay.Event) (w : World) :
  isTraffic e = true ->
  mongoUri w = true -> client w = true -> collection w = false ->
  (mongoUri (Relay.step e w) = true /\ client (Relay.step e w) = true /\
   collection (Relay.step e w) = false) /\
  sends (trace (Relay.step e w)) = sends (trace w) /\
  issued (trace (Relay.step e w)) = issued (trace w).
Proof.
  destruct e as [ws s|ws s|ws|ws|ws data|k reply now| |closeOk| ];
    try discriminate; intros _ Huri Hcl Hco; unfold Relay.step.
  - destruct (onMessage_frame ws data w) as (es & p & n & E & _).
    destruct (onMessage_effects ws data w) as (es' & Ht & Hb & _).
    rewrite E in Ht. cbn in Ht. apply app_inv_head in Ht. subst es'.
    unfold run_handler. rewrite E.
    destruct (status w); cbn; rewrite ?sends_app, ?issued_app,
      ?(sends_benign es Hb), ?(issued_benign es Hb), ?app_nil_r; auto.
  - destruct (Relay.find_pending k (pending w)) as [u|]; [|auto].
    set (w0 := set_pending _ _ w).
    unfold run_handler. change (status w0) with (status w).
    rewrite (resumeMessage_stuck u reply now w0 Huri Hcl Hco).
    destruct (status w); cbn; rewrite ?sends_app, ?issued_app, ?app_nil_r; auto.
Qed.

Lemma stuck_run (events : list Relay.Event) (w : World) :
  forallb isTraffic events = true ->
  mongoUri w = true -> client w = true -> collection w = false ->
  sends (trace (Relay.run events w)) = sends (trace w) /\
  issued (trace (Relay.run events w)) = issued (trace w).
Proof.
  revert w. induction events as [|e events IH]; intros w Hall Huri Hcl Hco;
    [auto|].
  cbn in Hall. apply andb_true_iff in Hall. destruct Hall as [He Hall].
  unfold Relay.run, run_events in *. cbn [fold_left].
  destruct (stuck_step e w He Huri Hcl Hco) as ((H1 & H2 & H3) & H4 & H5).
  destruct (IH (Relay.step e w) Hall H1 H2 H3) as (H6 & H7).
  rewrite H6, H7. auto.
Qed.

(** X30. A store that cannot be reached when the server starts stops the
    relaying of edits. When [client.connect()] fails during [initialize],
    the failure is logged together with the line announcing that the server
    runs without persistence, nothing is seeded, and [initialize] returns;
    but from then on no edit is written or broadcast, however many messages
    arrive and whatever the store would answer. *)
Theorem unreachable_store_at_startup_stops_relay
    (rowData : N -> Client.DataRow) (now : N -> string * string) (r : Seed.Replies)
    (w : World) (docs : list Seed.Document) (events : list Relay.Event) :
  mongoUri w = true ->
  client w = false ->
  collection w = false ->
  Relay.connectOk (Seed.connect r) = false ->
  forallb isTraffic events = true ->
  Seed.outcome (Seed.initialize rowData now r w docs) = Seed.Returned /\
  Seed.documents (Seed.initialize rowData now r w docs) = docs /\
  Seed.lines (Seed.initialize rowData now r w docs) =
    [Seed.FailedToInitialize; Seed.WillRunWithoutPersistence] /\
  clients (Seed.world (Seed.initialize rowData now r w docs)) = clients w /\
  sends (trace (Relay.run events
                  (Seed.world (Seed.initialize rowData now r w docs)))) =
    sends (trace w) /\
  issued (trace (Relay.run events
                   (Seed.world (Seed.initialize rowData now r w docs)))) =
    issued (trace w).
Proof.
  intros Huri Hcl Hco Hcok Hall.
  assert (E : exists es,
            Seed.initialize rowData now r w docs =
              Seed.mkResult (add_effects es (set_db true false w)) docs
                [Seed.FailedToInitialize; Seed.WillRunWithoutPersistence]
                Seed.Returned /\
            Forall benign es).
  { destruct w as [cs so pe np uri cl co a b st tr]. cbn in *. subst.
    destruct r as [[cok iok uo] ct ins]. cbn in Hcok. subst.
    unfold Seed.initialize, Relay.connectToDatabase, try_catch, bind, gets,
      modify, log, emit, throw, ret; cbn.
    unfold add_effect, add_effects, set_db; cbn. rewrite <- app_assoc. cbn.
    eexists. split; [reflexivity | repeat constructor]. }
  destruct E as (es & E & Hb). rewrite E.
  cbn [Seed.outcome Seed.documents Seed.lines Seed.world].
  repeat (split; [reflexivity|]).
  destruct (stuck_run events (add_effects es (set_db true false w)) Hall
              Huri eq_refl eq_refl) as (Hs & Hi).
  rewrite Hs, Hi. cbn.
  now rewrite sends_app, issued_app, (sends_benign es Hb), (issued_benign es Hb),
    !app_nil_r.
Qed.

Lemma unreachable_store_at_startup_stops_relay_witness :
  let r := Seed.mkReplies storeDown false (fun _ => None) in
  let events := [ Relay.Message 1 (Parsed edit);
                  Relay.Settle 0 stored "2024-01-01T12:00:00.000Z" ] in
  let res := Seed.initialize sampleRow at_noon r (degraded [1; 2]) [] in
  Seed.outcome res = Seed.Returned /\
  Seed.documents res = [] /\
  Seed.lines res = [Seed.FailedToInitialize; Seed.WillRunWithoutPersistence] /\
  clients (Seed.world res) = clients (degraded [1; 2]) /\
  sends (trace (Relay.run events (Seed.world res))) =
    sends (trace (degraded [1; 2])) /\
  issued (trace (Relay.run events (Seed.world res))) =
    issued (trace (degraded [1; 2])).
Proof.
  apply (unreachable_store_at_startup_stops_relay sampleRow at_noon
           (Seed.mkReplies storeDown false (fun _ => None))
           (degraded [1; 2]) []
           [ Relay.Message 1 (Parsed edit);
             Relay.Settle 0 stored "2024-01-01T12:00:00.000Z" ]);
    reflexivity.
Defined.
